(** * Omega3D: influence kernels, panel collections, RHS assembly and the
      simulation stepper, embedded from the C++ sources.

    The C++ code is templated over its scalar type ([template <class S>]),
    so the embedding is generic over a [Scalar] interface that lists the
    arithmetic operations and literals the code uses.  Statements that depend
    only on the shape of the computation are proved for every [Scalar];
    statements that need the laws of arithmetic are proved for the real
    numbers, the exact-arithmetic reading of the code.

    Conventions of the embedding:
    - one scalar type stands for both [S] and the [double] intermediates;
    - a method that mutates [*this] takes the object and returns the new one;
    - [assert] is live: a failed assertion ends the operation
      ([AssertFail]), so a method with assertions returns a [result];
    - sizes and indices are natural numbers, with the reduction modulo 2^32
      written out where a value passes through [Int];
    - printing to [std::cout] is left out.

    The first part is the program, the second part the properties. *)

From Stdlib Require Import Reals Lra Lia List ZArith String Bool.
From stdpp Require Import base list.
Import ListNotations.

(** ** The scalar interface *)

Class Scalar (S : Type) := {
  s_add  : S -> S -> S;
  s_sub  : S -> S -> S;
  s_mul  : S -> S -> S;
  s_div  : S -> S -> S;
  s_neg  : S -> S;
  s_sqrt : S -> S;              (* std::sqrt *)
  s_abs  : S -> S;              (* std::abs *)
  s_ltb  : S -> S -> bool;      (* operator<  *)
  lit_0    : S;                 (* 0.0  *)
  lit_1    : S;                 (* 1.0  *)
  lit_3    : S;                 (* 3.0  *)
  lit_4    : S;                 (* 4.0  *)
  lit_6    : S;                 (* 6.0  *)
  lit_0_25 : S;                 (* 0.25 *)
  lit_0_5  : S;                 (* 0.5  *)
  lit_0_01 : S;                 (* 0.01 *)
  lit_100  : S;                 (* 100.0 *)
  lit_pi   : S;                 (* M_PI *)
  lit_eps  : S                  (* std::numeric_limits<double>::epsilon() *)
}.

Declare Scope scalar_scope.
Delimit Scope scalar_scope with sc.
Infix "+!" := s_add (at level 50, left associativity) : scalar_scope.
Infix "-!" := s_sub (at level 50, left associativity) : scalar_scope.
Infix "*!" := s_mul (at level 40, left associativity) : scalar_scope.
Infix "/!" := s_div (at level 40, left associativity) : scalar_scope.
Notation "-! x" := (s_neg x) (at level 35, right associativity) : scalar_scope.
Infix "<!" := s_ltb (at level 70, no associativity) : scalar_scope.
Local Open Scope scalar_scope.

(** [a > b] is [b < a]. *)
Definition s_gtb {S} `{Scalar S} (a b : S) : bool := b <! a.

(** The exact-arithmetic instance. *)
#[export] Instance RScalar : Scalar R := {
  s_add := Rplus;
  s_sub := Rminus;
  s_mul := Rmult;
  s_div := Rdiv;
  s_neg := Ropp;
  s_sqrt := sqrt;
  s_abs := Rabs;
  s_ltb := fun a b => if Rlt_dec a b then true else false;
  lit_0 := 0%R;
  lit_1 := 1%R;
  lit_3 := 3%R;
  lit_4 := 4%R;
  lit_6 := 6%R;
  lit_0_25 := (/ 4)%R;
  lit_0_5 := (/ 2)%R;
  lit_0_01 := (/ 100)%R;
  lit_100 := 100%R;
  lit_pi := PI;
  lit_eps := (/ 4503599627370496)%R     (* 2^-52 *)
}.

(** ** Small vectors

    [std::array<S,3>] and the (x,y,z) argument triples of the kernels. *)

Definition V3 (A : Type) : Type := (A * A * A)%type.

Definition v3_get {A} (d : nat) (v : V3 A) : A :=
  let '(a, b, c) := v in
  match d with 0 => a | 1 => b | _ => c end.

Definition v3_map {A B} (f : A -> B) (v : V3 A) : V3 B :=
  let '(a, b, c) := v in (f a, f b, f c).

Definition v3_zip {A B C} (f : A -> B -> C) (v : V3 A) (w : V3 B) : V3 C :=
  let '(a, b, c) := v in let '(a', b', c') := w in (f a a', f b b', f c c').

(** ** Vector algebra used to state the properties (not part of the code) *)

Module Vec.
Section Vec.
Context {S : Type} `{Scalar S}.

Definition add (a b : V3 S) : V3 S := v3_zip s_add a b.
Definition sub (a b : V3 S) : V3 S := v3_zip s_sub a b.
Definition scale (k : S) (a : V3 S) : V3 S := v3_map (s_mul k) a.
Definition divide (a : V3 S) (k : S) : V3 S := v3_map (fun c => c /! k) a.

Definition dot (a b : V3 S) : S :=
  let '(ax, ay, az) := a in let '(bx, by_, bz) := b in
  ax *! bx +! ay *! by_ +! az *! bz.

(** The usual right-handed cross product [a × b]. *)
Definition cross (a b : V3 S) : V3 S :=
  let '(ax, ay, az) := a in let '(bx, by_, bz) := b in
  (ay *! bz -! az *! by_, az *! bx -! ax *! bz, ax *! by_ -! ay *! bx).

Definition norm2 (a : V3 S) : S := dot a a.
End Vec.
End Vec.

(** ** Kernels.h *)

Module Kernels.
Section Kernels.
Context {S : Type} `{Scalar S}.

(** The three accumulators [*tu], [*tv], [*tw] are passed in and the
    updated triple is returned. *)

(** thick-cored particle on thick-cored point, no gradients *)
Definition kernel_0v_0b (sx sy sz sr ssx ssy ssz tx ty tz tr : S)
    (acc : V3 S) : V3 S :=
  let '(tu, tv, tw) := acc in
  let dx := tx -! sx in
  let dy := ty -! sy in
  let dz := tz -! sz in
  let r2 := dx *! dx +! dy *! dy +! dz *! dz +! sr *! sr +! tr *! tr in
  let r2 := lit_1 /! (r2 *! s_sqrt r2) in
  let dxxw := dz *! ssy -! dy *! ssz in
  let dyxw := dx *! ssz -! dz *! ssx in
  let dzxw := dy *! ssx -! dx *! ssy in
  (tu +! r2 *! dxxw, tv +! r2 *! dyxw, tw +! r2 *! dzxw).

(** thick-cored particle on singular point, no gradients *)
Definition kernel_0v_0p (sx sy sz sr ssx ssy ssz tx ty tz : S)
    (acc : V3 S) : V3 S :=
  let '(tu, tv, tw) := acc in
  let dx := tx -! sx in
  let dy := ty -! sy in
  let dz := tz -! sz in
  let r2 := dx *! dx +! dy *! dy +! dz *! dz +! sr *! sr in
  let r2 := lit_1 /! (r2 *! s_sqrt r2) in
  let dxxw := dz *! ssy -! dy *! ssz in
  let dyxw := dx *! ssz -! dz *! ssx in
  let dzxw := dy *! ssx -! dx *! ssy in
  (tu +! r2 *! dxxw, tv +! r2 *! dyxw, tw +! r2 *! dzxw).

(** influence of a constant-strength vortex panel on a target point,
    using four singular integration points on the source side *)
Definition kernel_2_0p (sx0 sy0 sz0 sx1 sy1 sz1 sx2 sy2 sz2
    ssx ssy ssz tx ty tz : S) (acc : V3 S) : V3 S :=
  (* scale the strength by 1/4 *)
  let strx := lit_0_25 *! ssx in
  let stry := lit_0_25 *! ssy in
  let strz := lit_0_25 *! ssz in
  (* first source point *)
  let acc :=
    let sx := (sx0 +! sx1 +! sx2) /! lit_3 in
    let sy := (sy0 +! sy1 +! sy2) /! lit_3 in
    let sz := (sz0 +! sz1 +! sz2) /! lit_3 in
    kernel_0v_0p sx sy sz lit_0 strx stry strz tx ty tz acc in
  (* second source point *)
  let acc :=
    let sx := (lit_4 *! sx0 +! sx1 +! sx2) /! lit_6 in
    let sy := (lit_4 *! sy0 +! sy1 +! sy2) /! lit_6 in
    let sz := (lit_4 *! sz0 +! sz1 +! sz2) /! lit_6 in
    kernel_0v_0p sx sy sz lit_0 strx stry strz tx ty tz acc in
  (* third source point *)
  let acc :=
    let sx := (sx0 +! lit_4 *! sx1 +! sx2) /! lit_6 in
    let sy := (sy0 +! lit_4 *! sy1 +! sy2) /! lit_6 in
    let sz := (sz0 +! lit_4 *! sz1 +! sz2) /! lit_6 in
    kernel_0v_0p sx sy sz lit_0 strx stry strz tx ty tz acc in
  (* final source point *)
  let sx := (sx0 +! sx1 +! lit_4 *! sx2) /! lit_6 in
  let sy := (sy0 +! sy1 +! lit_4 *! sy2) /! lit_6 in
  let sz := (sz0 +! sz1 +! lit_4 *! sz2) /! lit_6 in
  kernel_0v_0p sx sy sz lit_0 strx stry strz tx ty tz acc.
(** same, but source strength only *)
Definition kernel_0s_0p (sx sy sz sr ss tx ty tz : S) (acc : V3 S) : V3 S :=
  let '(tu, tv, tw) := acc in
  let dx := tx -! sx in
  let dy := ty -! sy in
  let dz := tz -! sz in
  let r2 := dx *! dx +! dy *! dy +! dz *! dz +! sr *! sr in
  let r2 := ss /! (r2 *! s_sqrt r2) in
  (tu +! r2 *! dx, tv +! r2 *! dy, tw +! r2 *! dz).

(** The nine gradient accumulators, grouped by the direction of
    differentiation: [((tux, tvx, twx), (tuy, tvy, twy), (tuz, tvz, twz))]. *)
Definition Grad : Type := (V3 S * V3 S * V3 S)%type.

(** thick-cored particle on thick-cored point, with gradients *)
Definition kernel_0v_0bg (sx sy sz sr ssx ssy ssz tx ty tz tr : S)
    (acc : V3 S) (grad : Grad) : V3 S * Grad :=
  let '(tu, tv, tw) := acc in
  let '(gx, gy, gz) := grad in
  let '(tux, tvx, twx) := gx in
  let '(tuy, tvy, twy) := gy in
  let '(tuz, tvz, twz) := gz in
  let dx := tx -! sx in
  let dy := ty -! sy in
  let dz := tz -! sz in
  let r2 := dx *! dx +! dy *! dy +! dz *! dz +! sr *! sr +! tr *! tr in
  let r3 := lit_1 /! (r2 *! s_sqrt r2) in
  let dxxw := dz *! ssy -! dy *! ssz in
  let dyxw := dx *! ssz -! dz *! ssx in
  let dzxw := dy *! ssx -! dx *! ssy in
  let tu := tu +! r3 *! dxxw in
  let tv := tv +! r3 *! dyxw in
  let tw := tw +! r3 *! dzxw in
  (* accumulate velocity gradients *)
  let bbb := -! lit_3 *! r3 /! r2 in
  let dxxw := dxxw *! bbb in
  let dyxw := dyxw *! bbb in
  let dzxw := dzxw *! bbb in
  ((tu, tv, tw),
   ((tux +! dx *! dxxw,
     tvx +! (dx *! dyxw +! ssz *! r3),
     twx +! (dx *! dzxw -! ssy *! r3)),
    (tuy +! (dy *! dxxw -! ssz *! r3),
     tvy +! dy *! dyxw,
     twy +! (dy *! dzxw +! ssx *! r3)),
    (tuz +! (dz *! dxxw +! ssy *! r3),
     tvz +! (dz *! dyxw -! ssx *! r3),
     twz +! dz *! dzxw))).

(** thick-cored particle on singular point, with gradients *)
Definition kernel_0v_0pg (sx sy sz sr ssx ssy ssz tx ty tz : S)
    (acc : V3 S) (grad : Grad) : V3 S * Grad :=
  let '(tu, tv, tw) := acc in
  let '(gx, gy, gz) := grad in
  let '(tux, tvx, twx) := gx in
  let '(tuy, tvy, twy) := gy in
  let '(tuz, tvz, twz) := gz in
  let dx := tx -! sx in
  let dy := ty -! sy in
  let dz := tz -! sz in
  let r2 := dx *! dx +! dy *! dy +! dz *! dz +! sr *! sr in
  let r3 := lit_1 /! (r2 *! s_sqrt r2) in
  let dxxw := dz *! ssy -! dy *! ssz in
  let dyxw := dx *! ssz -! dz *! ssx in
  let dzxw := dy *! ssx -! dx *! ssy in
  let tu := tu +! r3 *! dxxw in
  let tv := tv +! r3 *! dyxw in
  let tw := tw +! r3 *! dzxw in
  (* accumulate velocity gradients *)
  let bbb := -! lit_3 *! r3 /! r2 in
  let dxxw := dxxw *! bbb in
  let dyxw := dyxw *! bbb in
  let dzxw := dzxw *! bbb in
  ((tu, tv, tw),
   ((tux +! dx *! dxxw,
     tvx +! (dx *! dyxw +! ssz *! r3),
     twx +! (dx *! dzxw -! ssy *! r3)),
    (tuy +! (dy *! dxxw -! ssz *! r3),
     tvy +! dy *! dyxw,
     twy +! (dy *! dzxw +! ssx *! r3)),
    (tuz +! (dz *! dxxw +! ssy *! r3),
     tvz +! (dz *! dyxw -! ssx *! r3),
     twz +! dz *! dzxw))).

(** same as [kernel_2_0p], but for source terms *)
Definition kernel_2s_0p (sx0 sy0 sz0 sx1 sy1 sz1 sx2 sy2 sz2
    ss tx ty tz : S) (acc : V3 S) : V3 S :=
  (* scale the strength by 1/4 *)
  let strx := lit_0_25 *! ss in
  (* first source point *)
  let acc :=
    let sx := (sx0 +! sx1 +! sx2) /! lit_3 in
    let sy := (sy0 +! sy1 +! sy2) /! lit_3 in
    let sz := (sz0 +! sz1 +! sz2) /! lit_3 in
    kernel_0s_0p sx sy sz lit_0 strx tx ty tz acc in
  (* second source point *)
  let acc :=
    let sx := (lit_4 *! sx0 +! sx1 +! sx2) /! lit_6 in
    let sy := (lit_4 *! sy0 +! sy1 +! sy2) /! lit_6 in
    let sz := (lit_4 *! sz0 +! sz1 +! sz2) /! lit_6 in
    kernel_0s_0p sx sy sz lit_0 strx tx ty tz acc in
  (* third source point *)
  let acc :=
    let sx := (sx0 +! lit_4 *! sx1 +! sx2) /! lit_6 in
    let sy := (sy0 +! lit_4 *! sy1 +! sy2) /! lit_6 in
    let sz := (sz0 +! lit_4 *! sz1 +! sz2) /! lit_6 in
    kernel_0s_0p sx sy sz lit_0 strx tx ty tz acc in
  (* final source point *)
  let sx := (sx0 +! sx1 +! lit_4 *! sx2) /! lit_6 in
  let sy := (sy0 +! sy1 +! lit_4 *! sy2) /! lit_6 in
  let sz := (sz0 +! sz1 +! lit_4 *! sz2) /! lit_6 in
  kernel_0s_0p sx sy sz lit_0 strx tx ty tz acc.

(** influence of a constant-strength vortex panel on a thick-cored target
    vortex, using four singular integration points on the source side *)
Definition kernel_2_0b (sx0 sy0 sz0 sx1 sy1 sz1 sx2 sy2 sz2
    ssx ssy ssz tx ty tz tr : S) (acc : V3 S) : V3 S :=
  (* scale the strength by 1/4 *)
  let strx := lit_0_25 *! ssx in
  let stry := lit_0_25 *! ssy in
  let strz := lit_0_25 *! ssz in
  (* first source point *)
  let acc :=
    let sx := (sx0 +! sx1 +! sx2) /! lit_3 in
    let sy := (sy0 +! sy1 +! sy2) /! lit_3 in
    let sz := (sz0 +! sz1 +! sz2) /! lit_3 in
    kernel_0v_0b sx sy sz lit_0 strx stry strz tx ty tz tr acc in
  (* second source point *)
  let acc :=
    let sx := (lit_4 *! sx0 +! sx1 +! sx2) /! lit_6 in
    let sy := (lit_4 *! sy0 +! sy1 +! sy2) /! lit_6 in
    let sz := (lit_4 *! sz0 +! sz1 +! sz2) /! lit_6 in
    kernel_0v_0b sx sy sz lit_0 strx stry strz tx ty tz tr acc in
  (* third source point *)
  let acc :=
    let sx := (sx0 +! lit_4 *! sx1 +! sx2) /! lit_6 in
    let sy := (sy0 +! lit_4 *! sy1 +! sy2) /! lit_6 in
    let sz := (sz0 +! lit_4 *! sz1 +! sz2) /! lit_6 in
    kernel_0v_0b sx sy sz lit_0 strx stry strz tx ty tz tr acc in
  (* final source point *)
  let sx := (sx0 +! sx1 +! lit_4 *! sx2) /! lit_6 in
  let sy := (sy0 +! sy1 +! lit_4 *! sy2) /! lit_6 in
  let sz := (sz0 +! sz1 +! lit_4 *! sz2) /! lit_6 in
  kernel_0v_0b sx sy sz lit_0 strx stry strz tx ty tz tr acc.

(** the same on a thick-cored target vortex, with gradients *)
Definition kernel_2_0bg (sx0 sy0 sz0 sx1 sy1 sz1 sx2 sy2 sz2
    ssx ssy ssz tx ty tz tr : S) (acc : V3 S) (grad : Grad) : V3 S * Grad :=
  (* scale the strength by 1/4 *)
  let strx := lit_0_25 *! ssx in
  let stry := lit_0_25 *! ssy in
  let strz := lit_0_25 *! ssz in
  (* first source point *)
  let '(acc, grad) :=
    let sx := (sx0 +! sx1 +! sx2) /! lit_3 in
    let sy := (sy0 +! sy1 +! sy2) /! lit_3 in
    let sz := (sz0 +! sz1 +! sz2) /! lit_3 in
    kernel_0v_0bg sx sy sz lit_0 strx stry strz tx ty tz tr acc grad in
  (* second source point *)
  let '(acc, grad) :=
    let sx := (lit_4 *! sx0 +! sx1 +! sx2) /! lit_6 in
    let sy := (lit_4 *! sy0 +! sy1 +! sy2) /! lit_6 in
    let sz := (lit_4 *! sz0 +! sz1 +! sz2) /! lit_6 in
    kernel_0v_0bg sx sy sz lit_0 strx stry strz tx ty tz tr acc grad in
  (* third source point *)
  let '(acc, grad) :=
    let sx := (sx0 +! lit_4 *! sx1 +! sx2) /! lit_6 in
    let sy := (sy0 +! lit_4 *! sy1 +! sy2) /! lit_6 in
    let sz := (sz0 +! lit_4 *! sz1 +! sz2) /! lit_6 in
    kernel_0v_0bg sx sy sz lit_0 strx stry strz tx ty tz tr acc grad in
  (* final source point *)
  let sx := (sx0 +! sx1 +! lit_4 *! sx2) /! lit_6 in
  let sy := (sy0 +! sy1 +! lit_4 *! sy2) /! lit_6 in
  let sz := (sz0 +! sz1 +! lit_4 *! sz2) /! lit_6 in
  kernel_0v_0bg sx sy sz lit_0 strx stry strz tx ty tz tr acc grad.

(** the same on a singular target point, with gradients *)
Definition kernel_2_0pg (sx0 sy0 sz0 sx1 sy1 sz1 sx2 sy2 sz2
    ssx ssy ssz tx ty tz : S) (acc : V3 S) (grad : Grad) : V3 S * Grad :=
  (* scale the strength by 1/4 *)
  let strx := lit_0_25 *! ssx in
  let stry := lit_0_25 *! ssy in
  let strz := lit_0_25 *! ssz in
  (* first source point *)
  let '(acc, grad) :=
    let sx := (sx0 +! sx1 +! sx2) /! lit_3 in
    let sy := (sy0 +! sy1 +! sy2) /! lit_3 in
    let sz := (sz0 +! sz1 +! sz2) /! lit_3 in
    kernel_0v_0pg sx sy sz lit_0 strx stry strz tx ty tz acc grad in
  (* second source point *)
  let '(acc, grad) :=
    let sx := (lit_4 *! sx0 +! sx1 +! sx2) /! lit_6 in
    let sy := (lit_4 *! sy0 +! sy1 +! sy2) /! lit_6 in
    let sz := (lit_4 *! sz0 +! sz1 +! sz2) /! lit_6 in
    kernel_0v_0pg sx sy sz lit_0 strx stry strz tx ty tz acc grad in
  (* third source point *)
  let '(acc, grad) :=
    let sx := (sx0 +! lit_4 *! sx1 +! sx2) /! lit_6 in
    let sy := (sy0 +! lit_4 *! sy1 +! sy2) /! lit_6 in
    let sz := (sz0 +! lit_4 *! sz1 +! sz2) /! lit_6 in
    kernel_0v_0pg sx sy sz lit_0 strx stry strz tx ty tz acc grad in
  (* final source point *)
  let sx := (sx0 +! sx1 +! lit_4 *! sx2) /! lit_6 in
  let sy := (sy0 +! sy1 +! lit_4 *! sy2) /! lit_6 in
  let sz := (sz0 +! sz1 +! lit_4 *! sz2) /! lit_6 in
  kernel_0v_0pg sx sy sz lit_0 strx stry strz tx ty tz acc grad.
End Kernels.
End Kernels.


(** ** The kernel as the specification words it *)

Module KernelSpec.
Section KernelSpec.
Context {S : Type} `{Scalar S}.

(** [r² = |x_t - x_s|² + core_source² + core_target²] *)
Definition reg_r2 (xs xt : V3 S) (core_source core_target : S) : S :=
  Vec.norm2 (Vec.sub xt xs) +! core_source *! core_source
    +! core_target *! core_target.

(** [r³] from [r²] *)
Definition r_cubed (r2 : S) : S :=
  let r := s_sqrt r2 in r *! r *! r.

(** [(x_t - x_s) × s / r³], the operand order of the specification text *)
Definition separation_cross_strength (xs xt s : V3 S) (r2 : S) : V3 S :=
  Vec.divide (Vec.cross (Vec.sub xt xs) s) (r_cubed r2).

(** [s × (x_t - x_s) / r³], the Biot-Savart operand order *)
Definition strength_cross_separation (xs xt s : V3 S) (r2 : S) : V3 S :=
  Vec.divide (Vec.cross s (Vec.sub xt xs)) (r_cubed r2).

(** The four quadrature points of a triangle: the centroid and, for each
    vertex [i], the point [(4 v_i + v_j + v_k) / 6]. *)
Definition centroid (v0 v1 v2 : V3 S) : V3 S :=
  Vec.divide (Vec.add (Vec.add v0 v1) v2) lit_3.

Definition toward (vi vj vk : V3 S) : V3 S :=
  Vec.divide (Vec.add (Vec.add (Vec.scale lit_4 vi) vj) vk) lit_6.

(** One point-kernel evaluation with zero source core, started from
    zeroed accumulators: the velocity that source point contributes. *)
Definition point_influence (p s t : V3 S) : V3 S :=
  let '(px, py, pz) := p in
  let '(ssx, ssy, ssz) := s in
  let '(tx, ty, tz) := t in
  Kernels.kernel_0v_0p px py pz lit_0 ssx ssy ssz tx ty tz
    (lit_0, lit_0, lit_0).
(** The sum of the four point-kernel evaluations, each with a quarter of
    the panel strength. *)
Definition quadrature_sum (v0 v1 v2 s t : V3 S) : V3 S :=
  let q := Vec.divide s lit_4 in
  Vec.add
    (Vec.add
       (Vec.add (point_influence (centroid v0 v1 v2) q t)
                (point_influence (toward v0 v1 v2) q t))
       (point_influence (toward v1 v0 v2) q t))
    (point_influence (toward v2 v0 v1) q t).
(** [(x_t - x_s) * strength / r³], the velocity of a source element. *)
Definition separation_times_strength (xs xt : V3 S) (ss r2 : S) : V3 S :=
  Vec.divide (Vec.scale ss (Vec.sub xt xs)) (KernelSpec.r_cubed r2).

(** The trace [tux + tvy + twz] of the gradient accumulators: the
    divergence of the velocity. *)
Definition trace (g : Kernels.Grad) : S :=
  let '(gx, gy, gz) := g in
  v3_get 0 gx +! v3_get 1 gy +! v3_get 2 gz.
End KernelSpec.
End KernelSpec.


(** The velocity of a source panel by four-point quadrature: the centroid
    and the three points toward the vertices, each carrying a quarter of the
    panel strength and no core. *)
Module SourceSpec.
Section SourceSpec.
Context {S : Type} `{Scalar S}.

Definition point_velocity (p : V3 S) (ss : S) (t : V3 S) : V3 S :=
  KernelSpec.separation_times_strength p t ss
    (KernelSpec.reg_r2 p t lit_0 lit_0).

Definition quadrature_sum (v0 v1 v2 : V3 S) (ss : S) (t : V3 S) : V3 S :=
  let q := ss /! lit_4 in
  Vec.add
    (Vec.add
       (Vec.add (point_velocity (KernelSpec.centroid v0 v1 v2) q t)
                (point_velocity (KernelSpec.toward v0 v1 v2) q t))
       (point_velocity (KernelSpec.toward v1 v0 v2) q t))
    (point_velocity (KernelSpec.toward v2 v0 v1) q t).
End SourceSpec.
End SourceSpec.

(** ** Omega3D.h *)

Definition Dimensions : nat := 3.

(** [Int] is [uint32_t]: a [size_t] passed as [Int], and arithmetic on
    [Int], are reduced modulo 2^32. *)
Definition to_Int (n : nat) : nat :=
  Z.to_nat (Z.of_nat n mod 4294967296).

(** element type *)
Inductive elem_t : Type :=
  | active      (* active vorticity *)
  | reactive    (* active once strength is solved *)
  | inert.      (* does not affect flow *)

(** movement type *)
Inductive move_t : Type :=
  | lagrangian  (* moves with local velocity *)
  | bodybound   (* moves with attached body *)
  | fixed.      (* does not move *)

(** ** Assertions

    [assert(c && "msg")] stops the operation when [c] is false; a method
    that contains assertions returns a [result]. *)

Inductive result (A : Type) : Type :=
  | Ok (a : A)
  | AssertFail (msg : string).
Arguments Ok {A} a.
Arguments AssertFail {A} msg.

#[export] Instance result_ret : MRet result := fun _ a => Ok a.
#[export] Instance result_bind : MBind result := fun _ _ f m =>
  match m with
  | Ok a => f a
  | AssertFail msg => AssertFail msg
  end.

Definition assert (c : bool) (msg : string) : result unit :=
  if c then Ok tt else AssertFail msg.

(** ** Loops and array accesses *)

(** [for (size_t i = lo; i < hi; ++i) body] *)
Definition for_loop {St : Type} (lo hi : nat) (body : nat -> St -> St)
    (st : St) : St :=
  fold_left (fun st i => body i st) (seq lo (hi - lo)) st.

(** [Vector<S>] is a [std::vector]; [v[i]] is read with [rd] (an index out of
    range, undefined in C++, reads the zero literal) and written with
    [<[i:=a]> v] (which leaves [v] alone out of range). [v.resize(n)] is
    [resize n lit_0 v]. *)
Definition rd {S} `{Scalar S} (v : list S) (i : nat) : S := nth i v lit_0.

Definition Arr3 (S : Type) : Type := V3 (list S).

Definition rd3 {S} `{Scalar S} (a : Arr3 S) (i : nat) : V3 S :=
  v3_map (fun v => rd v i) a.

Definition wr3 {S} (a : Arr3 S) (i : nat) (v : V3 S) : Arr3 S :=
  v3_zip (fun l c => <[i := c]> l) a v.

(** ** MathHelper.h *)

Module MathHelper.
Section MathHelper.
Context {S : Type} `{Scalar S}.

  (** Modelled from the spec: MathHelper.h is not among the sources; its
      [dot_product], [cross_product] and [length] on [std::array<S,3>] are
      the Euclidean dot product, cross product and norm that the basis
      construction of the specification uses. *)
Definition dot_product (v1 v2 : V3 S) : S := Vec.dot v1 v2.
Definition cross_product (v1 v2 : V3 S) : V3 S := Vec.cross v1 v2.
Definition length (v : V3 S) : S := s_sqrt (dot_product v v).
End MathHelper.
End MathHelper.

(** ** Body.h and ElementBase.h *)

(** Modelled from the spec: Body.h is not among the sources.  A body has a
    name, a rotation-rate vector and a rigid-body affine transform, all at
    the time the body was last moved to. *)
Record Body (S : Type) : Type := mkBody {
  get_name : string;
  get_rotvel_vec : V3 S;
  get_transform_mat : V3 S -> V3 S
}.
Arguments mkBody {S}.
Arguments get_name {S}.
Arguments get_rotvel_vec {S}.
Arguments get_transform_mat {S}.

(** ElementBase.h is not among the sources: its data members, as the
    comments and uses in Surfaces.h give them (x, s, u, ux on the nodes). *)
Record ElementBase (S : Type) : Type := mkElementBase {
  n : nat;                       (* number of nodes *)
  E : elem_t;
  M : move_t;
  B : option (Body S);           (* std::shared_ptr<Body>, None is nullptr *)
  x : Arr3 S;                    (* node positions *)
  s : option (Arr3 S);           (* node strengths *)
  u : Arr3 S;                    (* node velocities *)
  ux : option (Arr3 S)           (* untransformed node positions *)
}.
Arguments mkElementBase {S}.
Arguments n {S}.
Arguments E {S}.
Arguments M {S}.
Arguments B {S}.
Arguments x {S}.
Arguments s {S}.
Arguments u {S}.
Arguments ux {S}.

Definition empty3 {S} : Arr3 S := ([], [], []).


Definition has_value {A} (o : option A) : bool :=
  match o with Some _ => true | None => false end.

Definition set_n {S} (v : nat) (e : ElementBase S) : ElementBase S :=
  mkElementBase v (E e) (M e) (B e) (x e) (s e) (u e) (ux e).
Definition set_x {S} (v : Arr3 S) (e : ElementBase S) : ElementBase S :=
  mkElementBase (n e) (E e) (M e) (B e) v (s e) (u e) (ux e).
Definition set_u {S} (v : Arr3 S) (e : ElementBase S) : ElementBase S :=
  mkElementBase (n e) (E e) (M e) (B e) (x e) (s e) v (ux e).
Definition set_ux {S} (v : option (Arr3 S)) (e : ElementBase S)
    : ElementBase S :=
  mkElementBase (n e) (E e) (M e) (B e) (x e) (s e) (u e) v.

(** [ElementBase<S>(_n, _e, _m, _bp)]: the counters and tags are set, the
    arrays start empty and the optionals unset. *)
Definition ElementBase_new {S} (_n : nat) (_e : elem_t) (_m : move_t)
    (_bp : option (Body S)) : ElementBase S :=
  mkElementBase _n _e _m _bp empty3 None empty3 None.

(** ** Surfaces.h *)

(** [Basis<S>]: [b[0]] holds the tangential-1 vectors, [b[1]] the
    tangential-2 vectors, [b[2]] the normals; [b[k][j][i]] is component [j]
    for panel [i]. *)
Definition Basis (S : Type) : Type := V3 (Arr3 S).

Record Surfaces (S : Type) : Type := mkSurfaces {
  base : ElementBase S;          (* the ElementBase<S> subobject *)
  np : nat;                      (* number of panels *)
  idx : list nat;                (* indexes into the x array *)
  area : list S;                 (* panel areas *)
  b : Basis S;                   (* transformed basis vectors *)
  pu : Arr3 S;                   (* panel-center velocities *)
  vs : list S * list S;          (* vortex sheet strengths (x1,x2) *)
  bc : list (list S);            (* boundary condition for the elements *)
  ss : option (list S);          (* source strengths *)
  ps : Arr3 S;                   (* panel-center strengths *)
  istart : nat;                  (* index of first entry in RHS vector *)
  vol : S;                       (* volume of the body *)
  utc : V3 S;                    (* untransformed geometric center *)
  tc : V3 S;                     (* transformed geometric center *)
  max_strength : S
}.
Arguments mkSurfaces {S}.
Arguments base {S}.
Arguments np {S}.
Arguments idx {S}.
Arguments area {S}.
Arguments b {S}.
Arguments pu {S}.
Arguments vs {S}.
Arguments bc {S}.
Arguments ss {S}.
Arguments ps {S}.
Arguments istart {S}.
Arguments vol {S}.
Arguments utc {S}.
Arguments tc {S}.
Arguments max_strength {S}.

Section SurfacesSetters.
Context {S : Type}.
Implicit Type t : Surfaces S.

Definition set_base v t := mkSurfaces v (np t) (idx t) (area t) (b t) (pu t)
  (vs t) (bc t) (ss t) (ps t) (istart t) (vol t) (utc t) (tc t)
  (max_strength t).
Definition set_np v t := mkSurfaces (base t) v (idx t) (area t) (b t) (pu t)
  (vs t) (bc t) (ss t) (ps t) (istart t) (vol t) (utc t) (tc t)
  (max_strength t).
Definition set_idx v t := mkSurfaces (base t) (np t) v (area t) (b t) (pu t)
  (vs t) (bc t) (ss t) (ps t) (istart t) (vol t) (utc t) (tc t)
  (max_strength t).
Definition set_area v t := mkSurfaces (base t) (np t) (idx t) v (b t) (pu t)
  (vs t) (bc t) (ss t) (ps t) (istart t) (vol t) (utc t) (tc t)
  (max_strength t).
Definition set_b v t := mkSurfaces (base t) (np t) (idx t) (area t) v (pu t)
  (vs t) (bc t) (ss t) (ps t) (istart t) (vol t) (utc t) (tc t)
  (max_strength t).
Definition set_pu v t := mkSurfaces (base t) (np t) (idx t) (area t) (b t) v
  (vs t) (bc t) (ss t) (ps t) (istart t) (vol t) (utc t) (tc t)
  (max_strength t).
Definition set_vs v t := mkSurfaces (base t) (np t) (idx t) (area t) (b t)
  (pu t) v (bc t) (ss t) (ps t) (istart t) (vol t) (utc t) (tc t)
  (max_strength t).
Definition set_bc v t := mkSurfaces (base t) (np t) (idx t) (area t) (b t)
  (pu t) (vs t) v (ss t) (ps t) (istart t) (vol t) (utc t) (tc t)
  (max_strength t).
Definition set_ss v t := mkSurfaces (base t) (np t) (idx t) (area t) (b t)
  (pu t) (vs t) (bc t) v (ps t) (istart t) (vol t) (utc t) (tc t)
  (max_strength t).
Definition set_ps v t := mkSurfaces (base t) (np t) (idx t) (area t) (b t)
  (pu t) (vs t) (bc t) (ss t) v (istart t) (vol t) (utc t) (tc t)
  (max_strength t).
Definition set_vol v t := mkSurfaces (base t) (np t) (idx t) (area t) (b t)
  (pu t) (vs t) (bc t) (ss t) (ps t) (istart t) v (utc t) (tc t)
  (max_strength t).
Definition set_utc v t := mkSurfaces (base t) (np t) (idx t) (area t) (b t)
  (pu t) (vs t) (bc t) (ss t) (ps t) (istart t) (vol t) v (tc t)
  (max_strength t).
Definition set_tc v t := mkSurfaces (base t) (np t) (idx t) (area t) (b t)
  (pu t) (vs t) (bc t) (ss t) (ps t) (istart t) (vol t) (utc t) v
  (max_strength t).
End SurfacesSetters.


(** Members the constructor leaves uninitialised hold indeterminate
    values, supplied here from outside. *)
Record Indeterminate (S : Type) : Type := mkIndeterminate {
  junk_istart : nat;
  junk_utc : V3 S;
  junk_tc : V3 S
}.
Arguments mkIndeterminate {S}.
Arguments junk_istart {S}.
Arguments junk_utc {S}.
Arguments junk_tc {S}.

Module Surfaces.
Section Methods.
Context {S : Type} `{Scalar S}.
Implicit Type this : Surfaces S.

Definition get_npanels this : nat := np this.
Definition get_bcs this : list (list S) := bc this.
Definition get_vel this : Arr3 S := pu this.
Definition get_x1 this : Arr3 S := v3_get 0 (b this).
Definition get_x2 this : Arr3 S := v3_get 1 (b this).
Definition get_norm this : Arr3 S := v3_get 2 (b this).
Definition get_area this : list S := area this.
Definition have_src_str this : bool := has_value (ss this).

(** need to maintain the 3x3 set of basis vectors for each panel;
    this also calculates the triangle areas *)
Definition compute_bases (nnew : nat) this : result (Surfaces S) :=
  assert (to_Int (3 * nnew) =? length (idx this)) "Array size mismatch";;
  (* how big is my set of basis vectors? *)
  let norig := to_Int (length (v3_get 0 (v3_get 0 (b this)))) in
  (* resize any vectors *)
  let b0 := v3_map (v3_map (resize nnew lit_0)) (b this) in
  let area0 := resize nnew lit_0 (area this) in
  let xs := x (base this) in
  (* update what we need *)
  let '(b1, area1) :=
    for_loop norig nnew (fun i '(bb, ar) =>
      let id0 := nth (3 * i) (idx this) 0 in
      let id1 := nth (3 * i + 1) (idx this) 0 in
      let id2 := nth (3 * i + 2) (idx this) 0 in
      (* x1 vector is along direction from node 0 to node 1 *)
      let x1 := v3_zip s_sub (rd3 xs id1) (rd3 xs id0) in
      let base := MathHelper.length x1 in
      let x1 := v3_map (fun c => c *! (lit_1 /! base)) x1 in
      (* x2 vector is perpendicular to x1, and points toward node 2 *)
      let x2 := v3_zip s_sub (rd3 xs id2) (rd3 xs id0) in
      let dp := MathHelper.dot_product x2 x1 in
      let x2 := v3_zip (fun c2 c1 => c2 -! dp *! c1) x2 x1 in
      let height := MathHelper.length x2 in
      let x2 := v3_map (fun c => c *! (lit_1 /! height)) x2 in
      (* now we have the area *)
      let ar := <[i := lit_0_5 *! base *! height]> ar in
      (* x3 is the normal vector, pointing into the fluid *)
      let norm := MathHelper.cross_product x1 x2 in
      (* and assign *)
      let '(bx1, bx2, bnorm) := bb in
      ((wr3 bx1 i x1, wr3 bx2 i x2, wr3 bnorm i norm), ar))
    (b0, area0) in
  Ok (set_area area1 (set_b b1 this)).

(** convert vortex sheet strength to absolute panel strength *)
Definition vortex_sheet_to_panel_strength (num : nat) this
    : result (Surfaces S) :=
  assert (length (fst (vs this)) =? num) "Input array sizes do not match";;
  assert (length (fst (vs this)) =? length (v3_get 0 (v3_get 0 (b this))))
    "Input array sizes do not match";;
  (* make sure the arrays are sized properly *)
  let ps0 := v3_map (resize num lit_0) (ps this) in
  (* convenience references *)
  let x1 := v3_get 0 (b this) in
  let x2 := v3_get 1 (b this) in
  (* now copy the values over (do them all) *)
  let ps1 :=
    for_loop 0 num (fun i p =>
      wr3 p i
        (v3_zip (fun x1d x2d =>
           (rd (fst (vs this)) i *! rd x1d i +! rd (snd (vs this)) i *! rd x2d i)
             *! rd (area this) i) x1 x2))
      ps0 in
  Ok (set_ps ps1 this).

(** calculate the geometric center of all geometry in this object *)
Definition set_geom_center this : result (Surfaces S) :=
  (* we must have an attached body and a set of untransformed coordinates *)
  assert (has_value (B (base this))) "Body pointer has not been set";;
  assert (has_value (ux (base this)))
    "Untransformed positions have not been set";;
  let '(ux0, ux1, ux2) := default empty3 (ux (base this)) in
  (* iterate over panels, accumulating vol and CM *)
  let '(vsum, xsum, ysum, zsum) :=
    for_loop 0 (get_npanels this) (fun i '(vsum, xsum, ysum, zsum) =>
      let jp0 := nth (3 * i) (idx this) 0 in
      let jp1 := nth (3 * i + 1) (idx this) 0 in
      let jp2 := nth (3 * i + 2) (idx this) 0 in
      (* assume a triangle from 0,0 to two ends of each panel *)
      let thisvol := rd ux0 jp0 *! rd ux1 jp1 *! rd ux2 jp2
                  -! rd ux0 jp0 *! rd ux1 jp2 *! rd ux2 jp1
                  -! rd ux0 jp1 *! rd ux1 jp0 *! rd ux2 jp2
                  +! rd ux0 jp1 *! rd ux1 jp2 *! rd ux2 jp0
                  +! rd ux0 jp2 *! rd ux1 jp0 *! rd ux2 jp1
                  -! rd ux0 jp2 *! rd ux1 jp1 *! rd ux2 jp0 in
      let thisvol := thisvol /! lit_6 in
      (* add this to the running sums *)
      (vsum +! thisvol,
       xsum +! lit_0_25 *! thisvol *! (rd ux0 jp0 +! rd ux0 jp1 +! rd ux0 jp2),
       ysum +! lit_0_25 *! thisvol *! (rd ux1 jp0 +! rd ux1 jp1 +! rd ux1 jp2),
       zsum +! lit_0_25 *! thisvol *! (rd ux2 jp0 +! rd ux2 jp1 +! rd ux2 jp2)))
    (lit_0, lit_0, lit_0, lit_0) in
  let this := set_vol vsum this in
  Ok (set_utc (xsum /! vol this, ysum /! vol this, zsum /! vol this) this).
(** constructor - accepts vector of (x,y,z) triples, vector of indicies,
    vector of BCs; last parameter (_val) is either fixed strength or
    boundary condition *)
Definition ctor (_x : list S) (_idx : list nat) (_val : list S)
    (_e : elem_t) (_m : move_t) (_bp : option (Body S))
    (junk : Indeterminate S) : result (Surfaces S) :=
  let this :=
    mkSurfaces (ElementBase_new 0 _e _m _bp) 0 [] [] (empty3, empty3, empty3)
      empty3 ([], []) [] None empty3 (junk_istart junk) (-! lit_1)
      (junk_utc junk) (junk_tc junk) (-! lit_1) in
  (* make sure input arrays are correctly-sized *)
  assert (length _idx mod Dimensions =? 0)
    "Index array is not an even multiple of dimensions";;
  let nsurfs := length _idx / Dimensions in
  (* if no surfs, quit out now *)
  if nsurfs =? 0 then
    Ok (if has_value _bp
        then set_base (set_ux (Some (x (base this))) (base this)) this
        else this)
  else
  assert (length _val mod nsurfs =? 0)
    "Value array is not an even multiple of panel count";;
  assert (length _x mod Dimensions =? 0)
    "Position array is not an even multiple of dimensions";;
  let nnodes := length _x / Dimensions in
  (* pull out the node locations, they go in the base class *)
  let copy_x (d : nat) (xd : list S) :=
    for_loop 0 nnodes (fun i xd => <[i := rd _x (Dimensions * i + d)]> xd)
      (resize nnodes lit_0 xd) in
  let '(x0, x1, x2) := x (base this) in
  let this := set_base (set_x (copy_x 0 x0, copy_x 1 x1, copy_x 2 x2)
                          (base this)) this in
  (* save them as untransformed if we are given a Body pointer *)
  let this := if has_value _bp
              then set_base (set_ux (Some (x (base this))) (base this)) this
              else this in
  (* copy over the node indices *)
  let '(idx_are_all_good, idx1) :=
    for_loop 0 (3 * nsurfs) (fun i '(good, ix) =>
      (* make sure it exists in the nodes array *)
      let good := if nnodes <=? nth i _idx 0 then false else good in
      (good, <[i := nth i _idx 0]> ix))
    (true, resize (length _idx) 0 (idx this)) in
  let this := set_idx idx1 this in
  assert idx_are_all_good "Some indicies are bad";;
  (* compute all basis vectors and panel areas *)
  this ← compute_bases (to_Int nsurfs) this;
  (* now, depending on the element type, put the value somewhere *)
  this ←
    match E (base this) with
    | active =>
        (* value is a fixed strength for the segment *)
        assert (length _val =? 2 * nsurfs)
          "Value array is not an even multiple of panel count";;
        let fill (d : nat) (vd : list S) :=
          for_loop 0 nsurfs (fun i vd => <[i := rd _val (2 * i + d)]> vd)
            (resize nsurfs lit_0 vd) in
        let this := set_vs (fill 0 (fst (vs this)), fill 1 (snd (vs this)))
                      this in
        (* we still need general strengths (ps) *)
        vortex_sheet_to_panel_strength nsurfs this
    | reactive =>
        (* value is a boundary condition *)
        let nper := length _val / nsurfs in
        assert ((0 <? nper) && (nper <? 4))
          "Number of boundary conditions is not 1..3";;
        let bc1 :=
          for_loop 0 nper (fun d bcs =>
            <[d := for_loop 0 nsurfs
                     (fun i bcd => <[i := rd _val (nper * i + d)]> bcd)
                     (resize nsurfs lit_0 (nth d bcs []))]> bcs)
            (resize nper [] (bc this)) in
        let this := set_bc bc1 this in
        (* make space for the unknown, panel-centric strengths *)
        let zeros (vd : list S) := replicate nsurfs lit_0 in
        let this := set_vs (zeros (fst (vs this)), zeros (snd (vs this)))
                      this in
        (* we still need general strengths (ps) *)
        vortex_sheet_to_panel_strength nsurfs this
    | inert =>
        (* value is ignored (probably zero) *)
        Ok this
    end;
  (* velocity is per node, in the base class - just resize it here *)
  let this := set_base (set_u (v3_map (resize nnodes lit_0) (u (base this)))
                          (base this)) this in
  (* but panel velocity is per panel *)
  let this := set_pu (v3_map (resize nsurfs lit_0) (pu this)) this in
  (* need to reset the base class n and the local np *)
  let this := set_np nsurfs (set_base (set_n nnodes (base this)) this) in
  (* find geometric center *)
  match M (base this) with
  | bodybound => set_geom_center this
  | _ => Ok this
  end.

(** a little logic to see if we should augment the BEM equations for this
    object *)
Definition is_augmented this : bool :=
  let augment := true in
  (* don't augment the ground body, or the boundary to an internal flow *)
  let augment :=
    match B (base this) with
    | Some body =>
        (* is the body pointer ground? *)
        if String.eqb "ground" (get_name body) then
          (* now, does the object bound internal flow? *)
          if vol this <! lit_0 then false else augment
        else augment
    | None =>
        (* nullptr for Body? no augment (old way of turning it off) *)
        false
    end in
  (* and only need to augment reactive surfaces *)
  let augment :=
    match E (base this) with reactive => augment | _ => false end in
  (* force no augmentation at all *)
  let augment := false in
  augment.
(** augment the strengths with a value equal to that which accounts for
    the solid-body rotation of the object *)
Definition add_rot_strengths (_constfac _rotfactor : S) this
    : result (Surfaces S) :=
  (* if no rotation, or no parent Body, or attached to ground, then no
     problem! *)
  match B (base this) with
  | None => Ok this
  | Some body =>
  if String.eqb "ground" (get_name body) then Ok this else
  (* if no rotation, then we don't need to add anything *)
  let '(rotvel0, rotvel1, rotvel2) := get_rotvel_vec body in
  if s_gtb (s_abs rotvel0 +! s_abs rotvel1 +! s_abs rotvel2) lit_eps
  then Ok this else
  (* make sure we've calculated transformed center *)
  assert (s_gtb (vol this) lit_0)
    "Have not calculated transformed center, or volume is negative";;
  (* have we made ss yet? or is it the right size? *)
  let this :=
    match ss this with
    | Some v => set_ss (Some (resize (get_npanels this) lit_0 v)) this
    | None => set_ss (Some (replicate (get_npanels this) lit_0)) this
    end in
  assert (length (v3_get 0 (ps this)) =? get_npanels this)
    "Strength array is not the same as panel count";;
  (* what is the actual factor that we will add? *)
  let factor := lit_0 in
  (* still here? let's do it. use the untransformed coordinates *)
  let '(ux0, ux1, ux2) := default empty3 (ux (base this)) in
  let '(utc0, utc1, utc2) := utc this in
  Ok (for_loop 0 (get_npanels this) (fun i this =>
        (* indices for this panel *)
        let id0 := nth (3 * i) (idx this) 0 in
        let id1 := nth (3 * i + 1) (idx this) 0 in
        let id2 := nth (3 * i + 2) (idx this) 0 in
        (* vector from object geometric center to panel center *)
        let dx := (rd ux0 id0 +! rd ux0 id1 +! rd ux0 id2) /! lit_3 -! utc0 in
        let dy := (rd ux1 id0 +! rd ux1 id1 +! rd ux1 id2) /! lit_3 -! utc1 in
        let dz := (rd ux2 id0 +! rd ux2 id1 +! rd ux2 id2) /! lit_3 -! utc2 in
        (* velocity of the panel center *)
        let ui := factor *! (rotvel1 *! dz -! rotvel2 *! dy) in
        let vi := factor *! (rotvel2 *! dx -! rotvel0 *! dz) in
        let wi := factor *! (rotvel0 *! dy -! rotvel1 *! dx) in
        (* the strength updates that would use ui, vi, wi are commented
           out in the source *)
        this) this)
  end.
(** find out the next row index in the BEM after this collection *)
Definition set_first_row (_i : nat) this : Surfaces S :=
  mkSurfaces (base this) (np this) (idx this) (area this) (b this) (pu this)
    (vs this) (bc this) (ss this) (ps this) _i (vol this) (utc this)
    (tc this) (max_strength this).
Definition get_first_row this : nat := istart this.
Definition get_num_rows this : nat :=
  to_Int (length (bc this) * length (nth 0 (bc this) [])
          + (if is_augmented this then 3 else 0)).
Definition get_next_row this : nat :=
  to_Int (istart this + get_num_rows this).

(** assign the new strengths from BEM - do not let base class do this *)
Definition set_str (ioffset icnt : nat) (_in : list S) this
    : result (Surfaces S) :=
  assert (2 =? 2) "Vortex strength array not initialized";;
  assert (length _in =? length (fst (vs this)) * 2)
    "Set strength array size does not match";;
  assert (ioffset =? 0) "Offset is not zero";;
  (* copy over the strengths *)
  let vs1 :=
    for_loop 0 (get_npanels this) (fun i '(vs0, vs1) =>
      (<[i := rd _in (2 * i + 0)]> vs0, <[i := rd _in (2 * i + 1)]> vs1))
      (vs this) in
  (* now recompute the absolute panel strengths (ps) *)
  vortex_sheet_to_panel_strength (get_npanels this) (set_vs vs1 this).

(** add more nodes and panels to this collection *)
Definition add_new (_x : list S) (_idx : list nat) (_val : list S) this
    : result (Surfaces S) :=
  (* remember old sizes of nodes and element arrays *)
  let nnold := n (base this) in
  let neold := get_npanels this in
  (* make sure input arrays are correctly-sized *)
  assert (length _idx mod Dimensions =? 0)
    "Index array is not an even multiple of dimensions";;
  let nsurfs := length _idx / Dimensions in
  (* if no surfs, quit out now *)
  if nsurfs =? 0 then Ok this else
  assert (length _val mod nsurfs =? 0)
    "Value array is not an even multiple of panel count";;
  assert (length _x mod Dimensions =? 0)
    "Position array is not an even multiple of dimensions";;
  let nnodes := length _x / Dimensions in
  (* pull out the node locations, they are base class *)
  let copy_x (d : nat) (xd : list S) :=
    for_loop 0 nnodes
      (fun i xd => <[nnold + i := rd _x (Dimensions * i + d)]> xd)
      (resize (nnold + nnodes) lit_0 xd) in
  let '(x0, x1, x2) := x (base this) in
  let this := set_base (set_x (copy_x 0 x0, copy_x 1 x1, copy_x 2 x2)
                          (base this)) this in
  (* save them as untransformed if we have a Body pointer *)
  let this :=
    if has_value (B (base this)) then
      let save (xd uxd : list S) :=
        for_loop nnold (nnold + nnodes) (fun i uxd => <[i := rd xd i]> uxd)
          (resize (nnold + nnodes) lit_0 uxd) in
      set_base (set_ux (Some (v3_zip save (x (base this))
                                (default empty3 (ux (base this)))))
                  (base this)) this
    else this in
  (* copy over the node indices, taking care to offset into the new array *)
  let '(idx_are_all_good, idx1) :=
    for_loop 0 (3 * nsurfs) (fun i '(good, ix) =>
      (* make sure it exists in the nodes array *)
      let good := if nnold + nnodes <=? nth i _idx 0 then false else good in
      (good, <[3 * neold + i := to_Int (nnold + nth i _idx 0)]> ix))
    (true, resize (3 * neold + length _idx) 0 (idx this)) in
  let this := set_idx idx1 this in
  assert idx_are_all_good "Some indicies are bad";;
  (* compute all basis vectors and panel areas *)
  this ← compute_bases (to_Int (neold + nsurfs)) this;
  (* now, depending on the element type, put the value somewhere *)
  this ←
    match E (base this) with
    | active =>
        (* value is a fixed strength for the element *)
        assert (length _val =? 2 * nsurfs)
          "Value array is not an even multiple of panel count";;
        let fill (d : nat) (vd : list S) :=
          for_loop 0 nsurfs
            (fun i vd => <[neold + i := rd _val (2 * i + d)]> vd)
            (resize (neold + nsurfs) lit_0 vd) in
        let this := set_vs (fill 0 (fst (vs this)), fill 1 (snd (vs this)))
                      this in
        (* and ensure that the raw strengths are resized and set *)
        vortex_sheet_to_panel_strength (neold + nsurfs) this
    | reactive =>
        (* value is a boundary condition *)
        let nper := length _val / nsurfs in
        assert ((0 <? nper) && (nper <? 4))
          "Number of boundary conditions is not 1..3";;
        (* make sure we have the same number of components in the new
           array as in the old *)
        assert (length (bc this) =? nper)
          "Boundary condition array is not the correct size";;
        (* copy them into place *)
        let bc1 :=
          for_loop 0 nper (fun d bcs =>
            <[d := for_loop 0 nsurfs
                     (fun i bcd => <[neold + i := rd _val (nper * i + d)]> bcd)
                     (resize (neold + nsurfs) lit_0 (nth d bcs []))]> bcs)
            (bc this) in
        let this := set_bc bc1 this in
        (* upsize vortex sheet and raw strength arrays, too *)
        let this := set_vs (resize (neold + nsurfs) lit_0 (fst (vs this)),
                            resize (neold + nsurfs) lit_0 (snd (vs this)))
                      this in
        let this := set_ps (v3_map (resize (neold + nsurfs) lit_0) (ps this))
                      this in
        (* and ensure that the raw strengths are resized and set *)
        vortex_sheet_to_panel_strength (neold + nsurfs) this
    | inert =>
        (* value is ignored (probably zero) *)
        Ok this
    end;
  (* velocity is in the base class - just resize it here *)
  let this := set_base (set_u (v3_map (resize (nnold + nnodes) lit_0)
                                 (u (base this))) (base this)) this in
  (* panel velocity is here *)
  let this := set_pu (v3_map (resize (neold + nsurfs) lit_0) (pu this))
                this in
  (* need to reset the base class n *)
  let this := set_np (np this + nsurfs)
                (set_base (set_n (n (base this) + nnodes) (base this)) this) in
  (* re-find geometric center *)
  match M (base this) with
  | bodybound => set_geom_center this
  | _ => Ok this
  end.

(** return a particle version of the panels (useful during diffusion):
    the flat particle vector and the collection, whose panel strengths
    the call refreshes *)
Definition represent_as_particles (_offset _vdelta : S) this
    : result (list S * Surfaces S) :=
  (* how many panels? *)
  let num_pts := get_npanels this in
  (* recompute the panel strengths, just in case *)
  this ← vortex_sheet_to_panel_strength num_pts this;
  (* init the output vector (x, y, z, sx, sy, sz, r) *)
  let px := replicate (num_pts * 7) lit_0 in
  (* get basis vectors *)
  let norm := v3_get 2 (b this) in
  (* the fluid is to the left walking from one point to the next *)
  let dn := _offset *! _vdelta in
  let px :=
    for_loop 0 num_pts (fun i px =>
      let id0 := nth (3 * i) (idx this) 0 in
      let id1 := nth (3 * i + 1) (idx this) 0 in
      let id2 := nth (3 * i + 2) (idx this) 0 in
      let idx7 := to_Int (7 * i) in
      (* start at center of panel *)
      let px :=
        for_loop 0 3 (fun j px =>
          <[idx7 + j := (lit_1 /! lit_3)
                        *! (rd (v3_get j (x (base this))) id0
                            +! rd (v3_get j (x (base this))) id1
                            +! rd (v3_get j (x (base this))) id2)]> px) px in
      (* push out a fixed distance *)
      let px :=
        for_loop 0 3 (fun j px =>
          <[idx7 + j := rd px (idx7 + j) +! dn *! rd (v3_get j norm) i]> px)
          px in
      (* complete the element with a strength *)
      let px :=
        for_loop 0 3 (fun j px =>
          <[idx7 + 3 + j := rd (v3_get j (ps this)) i]> px) px in
      (* and the core size *)
      <[idx7 + 6 := _vdelta]> px) px in
  Ok (px, this).

(** return a vector of the total circulation on these panels *)
Definition get_total_circ (_time : S) this
    : result (V3 S * Surfaces S) :=
  let circ := (lit_0, lit_0, lit_0) in
  match E (base this) with
  | inert => Ok (circ, this)
  | _ =>
      (* make this easy - represent as particles *)
      '(pts, this) ← represent_as_particles lit_0 lit_1 this;
      (* now compute impulse of those *)
      Ok (for_loop 0 (get_npanels this) (fun i '(c0, c1, c2) =>
            (c0 +! rd pts (7 * i + 3 + 0),
             c1 +! rd pts (7 * i + 3 + 1),
             c2 +! rd pts (7 * i + 3 + 2))) circ, this)
  end.

(** return a vector of the impulse of these panels *)
Definition get_total_impulse this : result (V3 S * Surfaces S) :=
  (* here is the return vector *)
  let imp := (lit_0, lit_0, lit_0) in
  match E (base this) with
  | inert => Ok (imp, this)
  | _ =>
      (* make this easy - represent as particles *)
      '(pts, this) ← represent_as_particles lit_0 lit_1 this;
      (* now compute impulse of those *)
      Ok (for_loop 0 (get_npanels this) (fun i '(i0, i1, i2) =>
            let ix := 7 * i in
            (i0 +! (rd pts (ix + 3 + 1) *! rd pts (ix + 2)
                    -! rd pts (ix + 3 + 2) *! rd pts (ix + 1)),
             i1 +! (rd pts (ix + 3 + 2) *! rd pts (ix + 0)
                    -! rd pts (ix + 3 + 0) *! rd pts (ix + 2)),
             i2 +! (rd pts (ix + 3 + 0) *! rd pts (ix + 1)
                    -! rd pts (ix + 3 + 1) *! rd pts (ix + 0)))) imp, this)
  end.
End Methods.

Section BaseCalls.
Context {S : Type} `{Scalar S}.
Implicit Type this : Surfaces S.

(** ElementBase.h is not among the sources.  Its [transform] and
    [finalize_vels] are members of the base class: whatever they do, they
    act on the [ElementBase] subobject only. *)
Variable ElementBase_transform : S -> ElementBase S -> ElementBase S.
Variable ElementBase_finalize_vels : V3 S -> ElementBase S -> ElementBase S.

(** when transforming a body-bound object to a new time, we must also
    transform the geometric center *)
Definition transform (_time : S) this : result (Surfaces S) :=
  (* must explicitly call the method in the base class *)
  let this := set_base (ElementBase_transform _time (base this)) this in
  (* and recalculate the basis vectors *)
  this ← compute_bases (to_Int (np this)) this;
  match B (base this), M (base this) with
  | Some body, bodybound =>
      (* do the transform with an affine matrix *)
      Ok (set_tc (get_transform_mat body (utc this)) this)
  | _, _ =>
      (* copy utc to tc *)
      Ok (set_tc (utc this) this)
  end.

Definition finalize_vels (_fs : V3 S) this : Surfaces S :=
  (* finalize panel-center vels first *)
  let factor := lit_0_25 /! lit_pi in
  let finalize_component (fsd : S) (pud : list S) :=
    for_loop 0 (get_npanels this)
      (fun i pud => <[i := fsd +! rd pud i *! factor]> pud) pud in
  let this := set_pu (v3_zip finalize_component _fs (pu this)) this in
  (* must explicitly call the method in the base class, too *)
  set_base (ElementBase_finalize_vels _fs (base this)) this.
(** More members of the missing base class and of [Body], as parameters:
    [ElementBase::zero_vels], [ElementBase::zero_strengths],
    [Body::get_vel(time)] and [Body::get_rotvel_vec(time)]. *)
Variable ElementBase_zero_vels : ElementBase S -> ElementBase S.
Variable ElementBase_zero_strengths : ElementBase S -> ElementBase S.
Variable Body_get_vel : Body S -> S -> V3 S.
Variable Body_get_rotvel_vec : Body S -> S -> V3 S.

Definition zero_vels this : Surfaces S :=
  (* zero the local, panel-center vels *)
  let this := set_pu (v3_map (fun pud => replicate (length pud) lit_0)
                        (pu this)) this in
  (* then explicitly call the method in the base class to zero theirs *)
  set_base (ElementBase_zero_vels (base this)) this.

Definition zero_strengths this : Surfaces S :=
  (* call base class first *)
  let this := set_base (ElementBase_zero_strengths (base this)) this in
  (* and reset any panel strengths *)
  let this := set_vs (replicate (length (fst (vs this))) lit_0,
                      replicate (length (snd (vs this))) lit_0) this in
  (* and reset the source strengths here *)
  match ss this with
  | Some v => set_ss (Some (replicate (length v) lit_0)) this
  | None => this
  end.

Definition add_body_motion (_factor : S) (_time : S) this
    : result (Surfaces S) :=
  (* if no body pointer, or attached to ground, return *)
  match B (base this) with
  | None => Ok this
  | Some body =>
  if String.eqb "ground" (get_name body) then Ok this else
  (* make sure we've calculated transformed center *)
  assert (s_gtb (vol this) lit_0)
    "Have not calculated transformed center, or volume is negative";;
  (* get the body motion *)
  let thisvel := Body_get_vel body _time in
  let '(rotvel0, rotvel1, rotvel2) := Body_get_rotvel_vec body _time in
  let '(x0, x1, x2) := x (base this) in
  let '(tc0, tc1, tc2) := tc this in
  (* do this for all nodes - what about panels? *)
  Ok (set_pu
        (for_loop 0 (get_npanels this) (fun i pus =>
           (* apply the translational velocity *)
           let pus :=
             v3_zip (fun pud vd => <[i := rd pud i +! _factor *! vd]> pud)
               pus thisvel in
           (* now compute the rotational velocity with respect to the
              geometric center *)
           let id0 := nth (3 * i) (idx this) 0 in
           let id1 := nth (3 * i + 1) (idx this) 0 in
           let id2 := nth (3 * i + 2) (idx this) 0 in
           (* panel center minus body center *)
           let xc := (rd x0 id0 +! rd x0 id1 +! rd x0 id2) /! lit_3 -! tc0 in
           let yc := (rd x1 id0 +! rd x1 id1 +! rd x1 id2) /! lit_3 -! tc1 in
           let zc := (rd x2 id0 +! rd x2 id1 +! rd x2 id2) /! lit_3 -! tc2 in
           (* add rotational velocity *)
           let '(pu0, pu1, pu2) := pus in
           (<[i := rd pu0 i +! _factor *! (rotvel1 *! zc -! rotvel2 *! yc)]>
              pu0,
            <[i := rd pu1 i +! _factor *! (rotvel2 *! xc -! rotvel0 *! zc)]>
              pu1,
            <[i := rd pu2 i +! _factor *! (rotvel0 *! yc -! rotvel1 *! xc)]>
              pu2))
           (pu this)) this)
  end.
End BaseCalls.
End Surfaces.

(** ** RHS.h *)

Module RHS.
Section RHS.
Context {S : Type} `{Scalar S}.

Definition vels_to_rhs_panels (targ : Surfaces S) : result (list S) :=
  (* pull references to the element arrays *)
  let '(x1_0, x1_1, x1_2) := Surfaces.get_x1 targ in
  let '(x2_0, x2_1, x2_2) := Surfaces.get_x2 targ in
  let '(norm0, norm1, norm2) := Surfaces.get_norm targ in
  let '(tu0, tu1, tu2) := Surfaces.get_vel targ in
  let tb := Surfaces.get_bcs targ in
  (* check for data *)
  assert (length x1_0 =? length x2_0) "x1[0].size() == x2[0].size()";;
  assert (length x1_0 =? length norm0) "x1[0].size() == norm[0].size()";;
  assert (length x1_0 =? length tu0) "x1[0].size() == tu[0].size()";;
  assert (0 <? length tb) "tb.size() > 0";;
  assert (length x1_0 =? length (nth 0 tb [])) "x1[0].size() == tb[0].size()";;
  (* find array sizes *)
  let ntarg := Surfaces.get_npanels targ in
  let nunkn := length tb in
  (* prepare the rhs vector *)
  let rhs := resize (nunkn * ntarg) lit_0 [] in
  (* convert velocity and boundary condition to RHS values *)
  let rhs :=
    if nunkn =? 1 then
      (* normal-only *)
      for_loop 0 ntarg (fun i rhs =>
        <[i := -! (rd tu0 i *! rd norm0 i +! rd tu1 i *! rd norm1 i
                   +! rd tu2 i *! rd norm2 i)]> rhs) rhs
    else if nunkn =? 2 then
      (* dot product of x1 tangent with local velocity *)
      for_loop 0 ntarg (fun i rhs =>
        let rhs :=
          <[2 * i + 0 := -! (rd tu0 i *! rd x1_0 i +! rd tu1 i *! rd x1_1 i
                             +! rd tu2 i *! rd x1_2 i)]> rhs in
        <[2 * i + 1 := -! (rd tu0 i *! rd x2_0 i +! rd tu1 i *! rd x2_1 i
                           +! rd tu2 i *! rd x2_2 i)]> rhs) rhs
    else if nunkn =? 3 then
      (* two tangentials then the normal *)
      for_loop 0 ntarg (fun i rhs =>
        let rhs :=
          <[3 * i + 0 := -! (rd tu0 i *! rd x1_0 i +! rd tu1 i *! rd x1_1 i
                             +! rd tu2 i *! rd x1_2 i)]> rhs in
        let rhs :=
          <[3 * i + 1 := -! (rd tu0 i *! rd x2_0 i +! rd tu1 i *! rd x2_1 i
                             +! rd tu2 i *! rd x2_2 i)]> rhs in
        <[3 * i + 2 := -! (rd tu0 i *! rd norm0 i +! rd tu1 i *! rd norm1 i
                           +! rd tu2 i *! rd norm2 i)]> rhs) rhs
    else rhs in
  (* include the influence of the boundary condition (normally zero) *)
  let rhs :=
    for_loop 0 ntarg (fun i rhs =>
      for_loop 0 nunkn (fun j rhs =>
        <[nunkn * i + j := rd rhs (nunkn * i + j) -! rd (nth j tb []) i]> rhs)
        rhs) rhs in
  Ok rhs.
End RHS.
End RHS.


(** [for (size_t i = lo; i < hi; i += step) body], for [step > 0]: the
    loop runs at most [hi - lo] times. *)
Fixpoint for_loop_by_fuel {St : Type} (fuel i hi step : nat)
    (body : nat -> St -> St) (st : St) : St :=
  match fuel with
  | 0 => st
  | Datatypes.S fuel =>
      if i <? hi
      then for_loop_by_fuel fuel (i + step) hi step body (body i st)
      else st
  end.

Definition for_loop_by {St : Type} (lo hi step : nat)
    (body : nat -> St -> St) (st : St) : St :=
  for_loop_by_fuel (hi - lo) lo hi step body st.

(** ** Simulation.h, Simulation.cpp *)

Module Simulation.
Section Simulation.
Context {S : Type} `{Scalar S}.

(** Collection.h, Points.h and Influence.h are not among the sources: the
    collection type and the operations the stepper calls on a collection
    through [std::visit] are parameters.  [influence src targ] is the target
    after [std::visit(visitor, src, targ)]. *)
Context {Collection : Type}.
Variable Points_ctor : list S -> elem_t -> move_t -> Collection.
Variable add_new : list S -> Collection -> Collection.
Variable zero_vels : Collection -> Collection.
Variable influence : Collection -> Collection -> Collection.
Variable finalize_vels : V3 S -> Collection -> Collection.
Variable move : S -> Collection -> Collection.

(** Diffusion.h is not among the sources: the two values the getters of
    the simulation read from it. *)
Record Diffusion : Type := mkDiffusion {
  get_nom_sep_scaled : S;
  get_particle_overlap : S
}.

(** [std::future<void>]: [Some id] shares the state of the background task
    [id], [None] is a future that is not valid. *)
Definition future : Type := option nat.

Record Simulation : Type := mkSimulation {
  re : S;
  dt : S;
  fs : V3 S;
  vort : list Collection;        (* the free vorticity *)
  bdry : list Collection;        (* all boundaries *)
  fldpt : list Collection;       (* tracers and field points *)
  diff : Diffusion;
  time : S;
  sim_is_initialized : bool;
  step_has_started : bool;
  step_is_finished : bool;
  stepfuture : future
}.

Definition set_re v (m : Simulation) := mkSimulation v (dt m) (fs m)
  (vort m) (bdry m) (fldpt m) (diff m) (time m) (sim_is_initialized m)
  (step_has_started m) (step_is_finished m) (stepfuture m).
Definition set_vort v (m : Simulation) := mkSimulation (re m) (dt m) (fs m)
  v (bdry m) (fldpt m) (diff m) (time m) (sim_is_initialized m)
  (step_has_started m) (step_is_finished m) (stepfuture m).
Definition set_bdry v (m : Simulation) := mkSimulation (re m) (dt m) (fs m)
  (vort m) v (fldpt m) (diff m) (time m) (sim_is_initialized m)
  (step_has_started m) (step_is_finished m) (stepfuture m).
Definition set_fldpt v (m : Simulation) := mkSimulation (re m) (dt m) (fs m)
  (vort m) (bdry m) v (diff m) (time m) (sim_is_initialized m)
  (step_has_started m) (step_is_finished m) (stepfuture m).
Definition set_time v (m : Simulation) := mkSimulation (re m) (dt m) (fs m)
  (vort m) (bdry m) (fldpt m) (diff m) v (sim_is_initialized m)
  (step_has_started m) (step_is_finished m) (stepfuture m).
Definition set_sim_is_initialized v (m : Simulation) := mkSimulation (re m)
  (dt m) (fs m) (vort m) (bdry m) (fldpt m) (diff m) (time m) v
  (step_has_started m) (step_is_finished m) (stepfuture m).
Definition set_step_has_started v (m : Simulation) := mkSimulation (re m)
  (dt m) (fs m) (vort m) (bdry m) (fldpt m) (diff m) (time m)
  (sim_is_initialized m) v (step_is_finished m) (stepfuture m).
Definition set_step_is_finished v (m : Simulation) := mkSimulation (re m)
  (dt m) (fs m) (vort m) (bdry m) (fldpt m) (diff m) (time m)
  (sim_is_initialized m) (step_has_started m) v (stepfuture m).
Definition set_stepfuture v (m : Simulation) := mkSimulation (re m)
  (dt m) (fs m) (vort m) (bdry m) (fldpt m) (diff m) (time m)
  (sim_is_initialized m) (step_has_started m) (step_is_finished m) v.

(** constructor *)
Definition Simulation_new (_diff : Diffusion) : Simulation :=
  mkSimulation lit_100 lit_0_01 (lit_0, lit_0, lit_0) [] [] [] _diff lit_0
    false false false None.

(** getters *)
Definition get_hnu (m : Simulation) : S := s_sqrt (dt m /! re m).
Definition get_ips (m : Simulation) : S :=
  get_nom_sep_scaled (diff m) *! get_hnu m.
Definition get_vdelta (m : Simulation) : S :=
  get_particle_overlap (diff m) *! get_ips m.
Definition get_time (m : Simulation) : S := time m.

Definition is_initialized (m : Simulation) : bool := sim_is_initialized m.
Definition set_initialized (m : Simulation) : Simulation :=
  set_sim_is_initialized true m.

(** set up the particles *)
Definition add_particles (_invec : list S) (m : Simulation)
    : result Simulation :=
  if length _invec =? 0 then Ok m else
  (* make sure we're getting full particles *)
  assert (length _invec mod 7 =? 0) "_invec.size() % 7 == 0";;
  (* add the vdelta to each particle and pass it on *)
  let thisvd := get_vdelta m in
  let _invec :=
    for_loop_by 6 (length _invec) 7 (fun i v => <[i := thisvd]> v) _invec in
  (* if no collections exist *)
  if length (vort m) =? 0 then
    (* make a new collection *)
    Ok (set_vort (vort m ++ [Points_ctor _invec active lagrangian]) m)
  else
    (* HACK - add all particles to first collection *)
    Ok (set_vort (alter (add_new _invec) (length (vort m) - 1) (vort m)) m).
(** [std::visit(visitor, src, targ)] for [src] the [k]-th collection of
    [srcs]: the sources are the collections as they are at that moment. *)
Definition visit_from (srcs : list Collection) (k : nat) (targ : Collection)
    : Collection :=
  match srcs !! k with
  | Some src => influence src targ
  | None => targ
  end.

(** here's the vortex method: convection and diffusion with operator
    splitting *)
Definition step (m : Simulation) : Simulation :=
  (* we wind up using this a lot *)
  let thisfs := fs m in
  (* loop over boundary collections *)
  let m :=
    for_loop 0 (length (bdry m)) (fun t m =>
      (* zero velocities *)
      let m := set_bdry (alter zero_vels t (bdry m)) m in
      (* accumulate from vorticity *)
      for_loop 0 (length (vort m)) (fun k m =>
        set_bdry (alter (visit_from (vort m) k) t (bdry m)) m) m) m in
  (* loop over boundary collections *)
  let m :=
    for_loop 0 (length (bdry m)) (fun t m =>
      (* assemble from all boundaries *)
      for_loop 0 (length (bdry m)) (fun k m =>
        set_bdry (alter (visit_from (bdry m) k) t (bdry m)) m) m) m in
  (* find the influence on every vorticity element *)
  let m :=
    for_loop 0 (length (vort m)) (fun t m =>
      (* zero velocities *)
      let m := set_vort (alter zero_vels t (vort m)) m in
      (* accumulate from vorticity *)
      let m :=
        for_loop 0 (length (vort m)) (fun k m =>
          set_vort (alter (visit_from (vort m) k) t (vort m)) m) m in
      (* accumulate from boundaries *)
      let m :=
        for_loop 0 (length (bdry m)) (fun k m =>
          set_vort (alter (visit_from (bdry m) k) t (vort m)) m) m in
      (* add freestream and divide by 2pi *)
      set_vort (alter (finalize_vels thisfs) t (vort m)) m) m in
  (* find the influence on every field point/tracer element *)
  let m :=
    for_loop 0 (length (fldpt m)) (fun t m =>
      (* zero velocities *)
      let m := set_fldpt (alter zero_vels t (fldpt m)) m in
      (* accumulate from vorticity *)
      let m :=
        for_loop 0 (length (vort m)) (fun k m =>
          set_fldpt (alter (visit_from (vort m) k) t (fldpt m)) m) m in
      (* accumulate from boundaries *)
      let m :=
        for_loop 0 (length (bdry m)) (fun k m =>
          set_fldpt (alter (visit_from (bdry m) k) t (fldpt m)) m) m in
      (* add freestream and divide by 2pi *)
      set_fldpt (alter (finalize_vels thisfs) t (fldpt m)) m) m in
  (* move every movable element *)
  let m := set_vort (map (move (dt m)) (vort m)) m in
  let m := set_bdry (map (move (dt m)) (bdry m)) m in
  let m := set_fldpt (map (move (dt m)) (fldpt m)) m in
  (* update dt and return *)
  set_time (time m +! dt m) m.

(** *** The background task

    [std::async(std::launch::async, ...)] starts [step()] on a thread of its
    own.  The simulation object together with the background tasks that
    have been started and have not yet run to their end is a [World]; a task
    runs [step] on the simulation object when it runs ([run_task]).  Each
    task is taken to run its step in one piece. *)
Record World : Type := mkWorld {
  sim : Simulation;
  running : list nat;            (* tasks started and not yet finished *)
  launched : nat                 (* number of tasks started so far *)
}.

Definition is_running (id : nat) (w : World) : bool :=
  existsb (Nat.eqb id) (running w).

(** The background task [id] runs to its end. *)
Definition run_task (id : nat) (w : World) : World :=
  if is_running id w
  then mkWorld (step (sim w))
         (filter (fun j => negb (Nat.eqb id j)) (running w)) (launched w)
  else w.

(** [is_future_ready] of Simulation.h *)
Definition is_future_ready (f : future) (w : World) : bool :=
  match f with
  | None => false
  | Some id => negb (is_running id w)
  end.

(** [stepfuture.wait()], and the wait that releasing the last reference to
    the shared state of a [std::async] task performs. *)
Definition wait (f : future) (w : World) : World :=
  match f with
  | None => w
  | Some id => run_task id w
  end.

Definition reset (w : World) : World :=
  (* must wait for step() to complete, if it's still working *)
  let w :=
    if has_value (stepfuture (sim w))
    then let w := wait (stepfuture (sim w)) w in
         mkWorld (set_stepfuture None (sim w)) (running w) (launched w)
    else w in
  (* now reset everything else *)
  let m := set_time lit_0 (sim w) in
  let m := set_sim_is_initialized false m in
  let m := set_step_has_started false m in
  let m := set_step_is_finished false m in
  mkWorld m (running w) (launched w).

(** query and get() the future if possible *)
Definition test_for_new_results (w : World) : bool * World :=
  if negb (step_has_started (sim w)) then
    (* if we haven't made an async call yet *)
    (true, w)
  else if is_future_ready (stepfuture (sim w)) w then
    (* if we did, and it's ready to give us the results *)
    let m := set_stepfuture None (sim w) in
    (* set flag indicating that at least one step has been solved *)
    let m := set_step_is_finished true m in
    let m := set_step_has_started false m in
    (true, mkWorld m (running w) (launched w))
  else
    (* async call is not finished, do not try calling it again *)
    (false, w).

(** call this from a real-time GUI - will only run a new step if the last
    one is done *)
Definition async_step (w : World) : World :=
  let m := set_step_has_started true (sim w) in
  (* std::async starts a new task running step() *)
  let id := launched w in
  let w := mkWorld m (running w ++ [id]) (Datatypes.S (launched w)) in
  (* the move assignment releases the shared state stepfuture held *)
  let w := wait (stepfuture (sim w)) w in
  mkWorld (set_stepfuture (Some id) (sim w)) (running w) (launched w).
End Simulation.
Arguments Diffusion S : clear implicits.
Arguments Simulation S Collection : clear implicits.
Arguments World S Collection : clear implicits.
End Simulation.


(** ** Vocabulary of the properties *)

(** The assertion messages of the constructor that report a malformed
    shape of its input arrays. *)
Definition shape_errors : list string :=
  [ "Index array is not an even multiple of dimensions";
    "Value array is not an even multiple of panel count";
    "Position array is not an even multiple of dimensions";
    "Some indicies are bad" ]%string.

Module RHSSpec.
Section RHSSpec.
Context {S : Type} `{Scalar S}.

(** Every per-panel array of the collection holds one entry per panel. *)
Definition arrays_sized (targ : Surfaces S) : Prop :=
  let '(b0, b1, b2) := b targ in
  let '(b00, b01, b02) := b0 in
  let '(b10, b11, b12) := b1 in
  let '(b20, b21, b22) := b2 in
  let '(pu0, pu1, pu2) := pu targ in
  Forall (fun l : list S => length l = np targ)
    ([b00; b01; b02; b10; b11; b12; b20; b21; b22; pu0; pu1; pu2]
     ++ bc targ).

(** The projections of the panel-center velocity of panel [i], for [k]
    boundary-condition components per panel. *)
Definition projections (k : nat) (targ : Surfaces S) (i : nat) : list S :=
  let v := rd3 (pu targ) i in
  let t1 := rd3 (v3_get 0 (b targ)) i in
  let t2 := rd3 (v3_get 1 (b targ)) i in
  let nrm := rd3 (v3_get 2 (b targ)) i in
  match k with
  | 1 => [ -! Vec.dot v nrm ]
  | 2 => [ -! Vec.dot v t1; -! Vec.dot v t2 ]
  | 3 => [ -! Vec.dot v t1; -! Vec.dot v t2; -! Vec.dot v nrm ]
  | _ => []
  end.

(** Entry [j] of panel [i]: the projection minus the boundary-condition
    value [b_i[j]]. *)
Definition rhs_entry (k : nat) (targ : Surfaces S) (i j : nat) : S :=
  nth j (projections k targ i) lit_0 -! rd (nth j (bc targ) []) i.
End RHSSpec.
End RHSSpec.


(** A flat particle vector (seven values per particle) with the seventh
    value of every particle, its core radius, replaced by [vd]. *)
Definition with_radius {S} (vd : S) (v : list S) : list S :=
  imap (fun j a => if j mod 7 =? 6 then vd else a) v.


(** What running a step leaves alone in the simulation object: the flags,
    the future, the time step and (until its last statement) the time. *)
Definition same_control {S Collection : Type}
    (m m' : Simulation.Simulation S Collection) : Prop :=
  Simulation.step_has_started m' = Simulation.step_has_started m /\
  Simulation.step_is_finished m' = Simulation.step_is_finished m /\
  Simulation.stepfuture m' = Simulation.stepfuture m /\
  Simulation.dt m' = Simulation.dt m /\
  Simulation.time m' = Simulation.time m.


(** What running a step never changes: the parameters of the simulation
    and the number of collections of each kind. *)
Definition same_shape {S Collection : Type}
    (m m' : Simulation.Simulation S Collection) : Prop :=
  Simulation.re m' = Simulation.re m /\
  Simulation.dt m' = Simulation.dt m /\
  Simulation.fs m' = Simulation.fs m /\
  Simulation.diff m' = Simulation.diff m /\
  Simulation.sim_is_initialized m' = Simulation.sim_is_initialized m /\
  length (Simulation.vort m') = length (Simulation.vort m) /\
  length (Simulation.bdry m') = length (Simulation.bdry m) /\
  length (Simulation.fldpt m') = length (Simulation.fldpt m).

Definition set_B {S} (v : option (Body S)) (e : ElementBase S)
    : ElementBase S :=
  mkElementBase (n e) (E e) (M e) v (x e) (s e) (u e) (ux e).

Section ElementBaseModel.
Context {S : Type} `{Scalar S}.

(** [Body::transform(time)]: the body moved to a time. *)
Variable Body_transform : S -> Body S -> Body S.

(** Modelled from the spec: ElementBase.h is not among the sources.
    [ElementBase::transform] re-expresses the geometry after a rigid-body
    affine transform is applied to the underlying body: for a body-bound
    collection the body is moved to the given time and every node position
    becomes the transform of its untransformed position. *)
Definition ElementBase_transform (_time : S) (e : ElementBase S)
    : ElementBase S :=
  match B e, M e with
  | Some body, bodybound =>
      let body := Body_transform _time body in
      let e := set_B (Some body) e in
      match ux e with
      | Some uxs =>
          set_x (for_loop 0 (n e) (fun i xs =>
                   wr3 xs i (get_transform_mat body (rd3 uxs i))) (x e)) e
      | None => e
      end
  | _, _ => e
  end.
End ElementBaseModel.

(** The basis and area of a panel as the specification words them: the
    two-edge Gram-Schmidt construction on the panel's current nodes. *)
Module BasisSpec.
Section BasisSpec.
Context {S : Type} `{Scalar S}.

Definition norm (v : V3 S) : S := s_sqrt (Vec.norm2 v).
Definition normalize (v : V3 S) : V3 S := Vec.divide v (norm v).

(** tangent-1 = normalized edge from node 0 to node 1 *)
Definition tangent1 (p0 p1 : V3 S) : V3 S := normalize (Vec.sub p1 p0).

(** edge2 - (edge2 . tangent-1) * tangent-1 *)
Definition edge2_perp (p0 p1 p2 : V3 S) : V3 S :=
  let edge2 := Vec.sub p2 p0 in
  let t1 := tangent1 p0 p1 in
  Vec.sub edge2 (Vec.scale (Vec.dot edge2 t1) t1).

Definition tangent2 (p0 p1 p2 : V3 S) : V3 S :=
  normalize (edge2_perp p0 p1 p2).

(** normal = tangent-1 x tangent-2 *)
Definition normal (p0 p1 p2 : V3 S) : V3 S :=
  Vec.cross (tangent1 p0 p1) (tangent2 p0 p1 p2).

(** area = 0.5 * base * height *)
Definition panel_area (p0 p1 p2 : V3 S) : S :=
  lit_0_5 *! norm (Vec.sub p1 p0) *! norm (edge2_perp p0 p1 p2).

(** Node [c] (0, 1 or 2) of panel [i], at its current position. *)
Definition node (t : Surfaces S) (i c : nat) : V3 S :=
  rd3 (x (base t)) (nth (3 * i + c) (idx t) 0).

(** Every panel's stored basis and area are those of its current nodes. *)
Definition bases_match_geometry (t : Surfaces S) : Prop :=
  forall i, i < np t ->
    let p0 := node t i 0 in
    let p1 := node t i 1 in
    let p2 := node t i 2 in
    rd3 (v3_get 0 (b t)) i = tangent1 p0 p1 /\
    rd3 (v3_get 1 (b t)) i = tangent2 p0 p1 p2 /\
    rd3 (v3_get 2 (b t)) i = normal p0 p1 p2 /\
    rd (area t) i = panel_area p0 p1 p2.
(** The nine basis arrays and the area array hold one entry per panel. *)
Definition bases_sized (t : Surfaces S) : Prop :=
  let '(b0, b1, b2) := b t in
  let '(b00, b01, b02) := b0 in
  let '(b10, b11, b12) := b1 in
  let '(b20, b21, b22) := b2 in
  Forall (fun l : list S => length l = np t)
    [b00; b01; b02; b10; b11; b12; b20; b21; b22; area t].
End BasisSpec.
End BasisSpec.

(** The absolute strength of a panel, as [vortex_sheet_to_panel_strength]
    derives it from the sheet strengths, the basis and the area. *)
Module PanelStrength.
Section PanelStrength.
Context {S : Type} `{Scalar S}.

(** [(vs[0][i] * x1[i] + vs[1][i] * x2[i]) * area[i]] *)
Definition sheet_strength (t : Surfaces S) (i : nat) : V3 S :=
  v3_zip (fun x1d x2d =>
            (rd (fst (vs t)) i *! x1d +! rd (snd (vs t)) i *! x2d)
              *! rd (area t) i)
    (rd3 (v3_get 0 (b t)) i) (rd3 (v3_get 1 (b t)) i).

(** The stored absolute strengths are up to date. *)
Definition strengths_current (t : Surfaces S) : Prop :=
  forall i, i < np t -> rd3 (ps t) i = sheet_strength t i.
End PanelStrength.
End PanelStrength.

(** The tangents, normal and area of a panel, as one pass of the loop of
    [compute_bases] computes them and as the collection stores them. *)
Module PanelFrame.
Section PanelFrame.
Context {S : Type} `{Scalar S}.

Definition Frame : Type := V3 S * V3 S * V3 S * S.

(** What one pass of the loop of [compute_bases] computes for panel [i]
    from the node positions [xs] and the index table [ix]: tangent-1,
    tangent-2, normal and area. *)
Definition loop_frame (xs : Arr3 S) (ix : list nat) (i : nat) : Frame :=
  let id0 := nth (3 * i) ix 0 in
  let id1 := nth (3 * i + 1) ix 0 in
  let id2 := nth (3 * i + 2) ix 0 in
  let x1 := v3_zip s_sub (rd3 xs id1) (rd3 xs id0) in
  let base := MathHelper.length x1 in
  let x1 := v3_map (fun c => c *! (lit_1 /! base)) x1 in
  let x2 := v3_zip s_sub (rd3 xs id2) (rd3 xs id0) in
  let dp := MathHelper.dot_product x2 x1 in
  let x2 := v3_zip (fun c2 c1 => c2 -! dp *! c1) x2 x1 in
  let height := MathHelper.length x2 in
  let x2 := v3_map (fun c => c *! (lit_1 /! height)) x2 in
  (x1, x2, MathHelper.cross_product x1 x2, lit_0_5 *! base *! height).

Definition frame_t1 (f : Frame) : V3 S := fst (fst (fst f)).
Definition frame_t2 (f : Frame) : V3 S := snd (fst (fst f)).
Definition frame_n (f : Frame) : V3 S := snd (fst f).
Definition frame_area (f : Frame) : S := snd f.

(** The stored basis and area of panel [i]. *)
Definition stored_frame (t : Surfaces S) (i : nat) : Frame :=
  (rd3 (v3_get 0 (b t)) i, rd3 (v3_get 1 (b t)) i, rd3 (v3_get 2 (b t)) i,
   rd (area t) i).

(** The frame of panel [i] as the specification words it, on the panel's
    current nodes. *)
Definition spec_frame (t : Surfaces S) (i : nat) : Frame :=
  let p0 := BasisSpec.node t i 0 in
  let p1 := BasisSpec.node t i 1 in
  let p2 := BasisSpec.node t i 2 in
  (BasisSpec.tangent1 p0 p1, BasisSpec.tangent2 p0 p1 p2,
   BasisSpec.normal p0 p1 p2, BasisSpec.panel_area p0 p1 p2).

(** All nine basis arrays and the area array have length [m]. *)
Definition frames_length (m : nat) (t : Surfaces S) : Prop :=
  (forall k d, length (v3_get d (v3_get k (b t))) = m) /\
  length (area t) = m.

(** The three vectors of a frame are of unit length and mutually
    perpendicular. *)
Definition orthonormal (f : Frame) : Prop :=
  Vec.dot (frame_t1 f) (frame_t1 f) = lit_1 /\
  Vec.dot (frame_t2 f) (frame_t2 f) = lit_1 /\
  Vec.dot (frame_n f) (frame_n f) = lit_1 /\
  Vec.dot (frame_t1 f) (frame_t2 f) = lit_0 /\
  Vec.dot (frame_t1 f) (frame_n f) = lit_0 /\
  Vec.dot (frame_t2 f) (frame_n f) = lit_0.
End PanelFrame.
End PanelFrame.

(** The particles that stand for the panels of a collection, as
    [represent_as_particles] lays them out: seven values per particle. *)
Module PanelParticles.
Section PanelParticles.
Context {S : Type} `{Scalar S}.

(** Particle [i] of a flat particle vector: position, strength, radius. *)
Definition particle (px : list S) (i : nat) : V3 S * V3 S * S :=
  ((rd px (7 * i), rd px (7 * i + 1), rd px (7 * i + 2)),
   (rd px (7 * i + 3), rd px (7 * i + 4), rd px (7 * i + 5)),
   rd px (7 * i + 6)).

(** The center of panel [i]: a third of the sum of its three nodes. *)
Definition center (t : Surfaces S) (i : nat) : V3 S :=
  v3_map (fun xd => (lit_1 /! lit_3)
                    *! (rd xd (nth (3 * i) (idx t) 0)
                        +! rd xd (nth (3 * i + 1) (idx t) 0)
                        +! rd xd (nth (3 * i + 2) (idx t) 0)))
    (x (base t)).

(** The particle for panel [i]: the center pushed out along the stored
    normal by [_offset * _vdelta], the stored absolute strength, and the
    radius [_vdelta]. *)
Definition of_panel (_offset _vdelta : S) (t : Surfaces S) (i : nat)
    : V3 S * V3 S * S :=
  (v3_zip (fun c nd => c +! _offset *! _vdelta *! nd)
     (center t i) (rd3 (v3_get 2 (b t)) i),
   rd3 (ps t) i, _vdelta).

(** A vector per panel, summed in panel order starting from zero. *)
Definition total (num : nat) (f : nat -> V3 S) : V3 S :=
  for_loop 0 num (fun i acc => Vec.add acc (f i)) (lit_0, lit_0, lit_0).
End PanelParticles.
End PanelParticles.

(** The velocity of a rigid body that moves with velocity [vel] and turns
    at the rate [rotvel] about the transformed center of the collection,
    taken at the center of panel [i]. *)
Definition rigid_velocity {S} `{Scalar S} (vel rotvel : V3 S)
    (t : Surfaces S) (i : nat) : V3 S :=
  Vec.add vel
    (Vec.cross rotvel (Vec.sub (PanelParticles.center t i) (tc t))).

(** [t2] is [t] with every panel turned over: the second and third node
    of each panel are exchanged, and nothing else differs. *)
Definition orientation_reversed {S} (t t2 : Surfaces S) : Prop :=
  t2 = set_idx (idx t2) t /\
  forall i, i < np t ->
    nth (3 * i) (idx t2) 0 = nth (3 * i) (idx t) 0 /\
    nth (3 * i + 1) (idx t2) 0 = nth (3 * i + 2) (idx t) 0 /\
    nth (3 * i + 2) (idx t2) 0 = nth (3 * i + 1) (idx t) 0.

(** ** A concrete collection: one body-bound triangle *)

Module Example.
Local Open Scope R_scope.

(** A rigid rotation by a quarter turn about the z axis. *)
Definition quarter_turn (p : V3 R) : V3 R :=
  let '(px, py, pz) := p in (- py, px, pz).

Definition wing : Body R := mkBody "wing" (0, 0, 0) (fun p => p).

(** Moving the wing to a later time turns it by a quarter turn. *)
Definition turn_wing (_time : R) (body : Body R) : Body R :=
  mkBody (get_name body) (get_rotvel_vec body) quarter_turn.

(** nodes (0,0,0), (1,0,0), (0,1,0) and the one triangle on them *)
Definition tri_x : list R := [0; 0; 0; 1; 0; 0; 0; 1; 0].
Definition tri_idx : list nat := [0; 1; 2]%nat.
Definition junk0 : Indeterminate R := mkIndeterminate 0%nat (0, 0, 0) (0, 0, 0).

Definition panels : result (Surfaces R) :=
  Surfaces.ctor tri_x tri_idx [0] reactive bodybound (Some wing) junk0.
(** A reactive collection of two panels on the nodes (0,0,0), (1,0,0),
    (1,1,0), (0,1,0), bound to the wing, with two boundary-condition
    components per panel and panel-center velocities (1,3,5) and (2,4,6). *)
Definition two_panels : Surfaces R :=
  let xs : Arr3 R := ([0; 1; 1; 0], [0; 0; 1; 1], [0; 0; 0; 0]) in
  let zs : Arr3 R := ([0; 0; 0; 0], [0; 0; 0; 0], [0; 0; 0; 0]) in
  mkSurfaces
    (mkElementBase 4%nat reactive bodybound (Some wing) xs None zs (Some xs))
    2%nat [0; 1; 2; 0; 1; 3]%nat [/ 2; / 2]
    (([1; 1], [0; 0], [0; 0]), ([0; 0], [1; 1], [0; 0]),
     ([0; 0], [0; 0], [1; 1]))
    ([1; 2], [3; 4], [5; 6])
    ([0; 0], [0; 0])
    [[10; 20]; [30; 40]]
    None
    ([0; 0], [0; 0], [0; 0])
    0%nat 1 (0, 0, 0) (0, 0, 0) (- 1).

(** The two-panel collection before any basis or area is computed. *)
Definition two_panels_bare : Surfaces R :=
  set_area [] (set_b (empty3, empty3, empty3) two_panels).
(** two sheet strengths for each of two panels *)
Definition four_values : list R := [7; 8; 9; 10].

(** The wing moves along x at unit speed and turns about z. *)
Definition wing_vel (body : Body R) (_time : R) : V3 R := (1, 0, 0).
Definition wing_rotvel (body : Body R) (_time : R) : V3 R := (0, 0, 1).

(** The two-panel collection with no and with four boundary-condition
    components. *)
Definition no_bcs : Surfaces R := set_bc [] two_panels.
Definition four_bcs : Surfaces R :=
  set_bc [[10; 20]; [30; 40]; [50; 60]; [70; 80]] two_panels.

(** One more triangle, on three new nodes, with its two boundary values. *)
Definition new_x : list R := [2; 0; 0; 3; 0; 0; 2; 1; 0].
Definition new_idx : list nat := [0; 1; 2]%nat.
Definition new_val : list R := [5; 6].

(** One triangle on the nodes (1,0,0), (0,1,0), (0,0,1), bound to the
    wing, and the same triangle turned over. *)
Definition corner : Surfaces R :=
  let xs : Arr3 R := ([1; 0; 0], [0; 1; 0], [0; 0; 1]) in
  mkSurfaces
    (mkElementBase 3%nat reactive bodybound (Some wing) xs None
       ([0; 0; 0], [0; 0; 0], [0; 0; 0]) (Some xs))
    1%nat [0; 1; 2]%nat [] (empty3, empty3, empty3) empty3 ([], []) [] None
    empty3 0%nat (- 1) (0, 0, 0) (0, 0, 0) (- 1).
Definition corner_reversed : Surfaces R := set_idx [0; 2; 1]%nat corner.

(** A particle store for the examples: a collection is the flat vector of
    its particles. *)
Definition store_new (v : list R) (_e : elem_t) (_m : move_t) : list R := v.
Definition store_add (v : list R) (c : list R) : list R := c ++ v.
Definition fresh_simulation : Simulation.Simulation R (list R) :=
  Simulation.Simulation_new (Simulation.mkDiffusion 1 1).
(** Collections that only count how often they have been finalized. *)
Definition counting_simulation : Simulation.Simulation R nat :=
  Simulation.set_bdry [0; 0]%nat
    (Simulation.set_vort [0]%nat
       (Simulation.Simulation_new (Simulation.mkDiffusion 1 1))).
Definition two_swarms : Simulation.Simulation R nat :=
  Simulation.set_vort [0; 0]%nat
    (Simulation.Simulation_new (Simulation.mkDiffusion 1 1)).
Definition fresh_world : Simulation.World R nat :=
  Simulation.mkWorld counting_simulation [] 0.
(** only two nodes, (0,0,0) and (1,0,0), for a triangle that names a third *)
Definition two_nodes_x : list R := [0; 0; 0; 1; 0; 0].
Definition one_value : list R := [0].
Definition one_particle : list R := [1; 2; 3; 4; 5; 6; 7].
End Example.

(** * Properties *)

Ltac to_R :=
  cbv [s_add s_sub s_mul s_div s_neg s_sqrt s_abs s_ltb s_gtb
       lit_0 lit_1 lit_3 lit_4 lit_6 lit_0_25 lit_0_5 lit_0_01 lit_100
       lit_pi lit_eps
       RScalar] in *.

Section KernelFacts.
Local Open Scope R_scope.

Lemma r2_nonneg (dx dy dz sr tr : R) :
  0 <= dx * dx + dy * dy + dz * dz + sr * sr + tr * tr.
Proof. nra. Qed.

Lemma inv_r3 (r2 c : R) :
  0 <= r2 -> 1 / (r2 * sqrt r2) * c = c / (sqrt r2 * sqrt r2 * sqrt r2).
Proof.
  intros Hr. rewrite (sqrt_sqrt r2 Hr). unfold Rdiv. ring.
Qed.

(** C1, counterexample: for a unit strength along y at the origin and a
    target at (1,0,0) with zero cores, [(x_t - x_s) × s / r³] is (0,0,1)
    while the kernel adds (0,0,-1). *)
Lemma kernel_0v_0b_not_separation_cross_strength :
  Kernels.kernel_0v_0b 0 0 0 0 0 1 0 1 0 0 0 (0, 0, 0)
  <> Vec.add (0, 0, 0)
       (KernelSpec.separation_cross_strength (0, 0, 0) (1, 0, 0) (0, 1, 0)
          (KernelSpec.reg_r2 (0, 0, 0) (1, 0, 0) 0 0)).
Proof.
  cbv [Kernels.kernel_0v_0b KernelSpec.separation_cross_strength
       KernelSpec.reg_r2 KernelSpec.r_cubed Vec.add Vec.divide Vec.cross
       Vec.sub Vec.norm2 Vec.dot v3_zip v3_map].
  to_R. intros Heq.
  revert Heq.
  replace ((1 - 0) * (1 - 0) + (0 - 0) * (0 - 0) + (0 - 0) * (0 - 0)
           + 0 * 0 + 0 * 0) with 1 by lra.
  rewrite sqrt_1. intros Heq.
  apply (f_equal snd) in Heq. simpl in Heq. lra.
Qed.

(** C1 (amended): one call of the thick-cored kernel adds exactly
    [s × (x_t - x_s) / r³] with [r² = |x_t - x_s|² + core_source² +
    core_target²] to the target velocity, and the singular-target variant
    adds the same vector with a zero target-core term. *)
Theorem kernel_0v_adds_strength_cross_separation
    (sx sy sz sr ssx ssy ssz tx ty tz tr : R) (acc : V3 R) :
  Kernels.kernel_0v_0b sx sy sz sr ssx ssy ssz tx ty tz tr acc
  = Vec.add acc
      (KernelSpec.strength_cross_separation (sx, sy, sz) (tx, ty, tz)
         (ssx, ssy, ssz)
         (KernelSpec.reg_r2 (sx, sy, sz) (tx, ty, tz) sr tr))
  /\
  Kernels.kernel_0v_0p sx sy sz sr ssx ssy ssz tx ty tz acc
  = Vec.add acc
      (KernelSpec.strength_cross_separation (sx, sy, sz) (tx, ty, tz)
         (ssx, ssy, ssz)
         (KernelSpec.reg_r2 (sx, sy, sz) (tx, ty, tz) sr 0)).
Proof.
  destruct acc as [[tu tv] tw].
  cbv [Kernels.kernel_0v_0b Kernels.kernel_0v_0p
       KernelSpec.strength_cross_separation
       KernelSpec.reg_r2 KernelSpec.r_cubed Vec.add Vec.divide Vec.cross
       Vec.sub Vec.norm2 Vec.dot v3_zip v3_map].
  to_R.
  set (dx := tx - sx). set (dy := ty - sy). set (dz := tz - sz).
  split.
  - pose proof (r2_nonneg dx dy dz sr tr) as Hr.
    rewrite !(inv_r3 _ _ Hr).
    f_equal; [f_equal|]; unfold Rdiv; ring.
  - replace (dx * dx + dy * dy + dz * dz + sr * sr + 0 * 0)
      with (dx * dx + dy * dy + dz * dz + sr * sr) by ring.
    assert (Hr : 0 <= dx * dx + dy * dy + dz * dz + sr * sr) by nra.
    rewrite !(inv_r3 _ _ Hr).
    f_equal; [f_equal|]; unfold Rdiv; ring.
Qed.

Lemma vadd_assoc (a b c : V3 R) :
  Vec.add (Vec.add a b) c = Vec.add a (Vec.add b c).
Proof.
  destruct a as [[? ?] ?], b as [[? ?] ?], c as [[? ?] ?].
  cbv [Vec.add v3_zip]. to_R. f_equal; [f_equal|]; ring.
Qed.

(** The singular-target kernel adds to its accumulators a vector that does
    not depend on them. *)
Lemma kernel_0v_0p_accumulates
    (sx sy sz sr ssx ssy ssz tx ty tz : R) (acc : V3 R) :
  Kernels.kernel_0v_0p sx sy sz sr ssx ssy ssz tx ty tz acc
  = Vec.add acc
      (Kernels.kernel_0v_0p sx sy sz sr ssx ssy ssz tx ty tz (0, 0, 0)).
Proof.
  destruct acc as [[tu tv] tw].
  cbv [Kernels.kernel_0v_0p Vec.add v3_zip]. to_R.
  f_equal; [f_equal|]; ring.
Qed.

(** C5: the panel-to-point influence is the sum of four point-kernel
    evaluations with zero source core, each with strength s/4, at the
    centroid (v0+v1+v2)/3 and at (4 v_i + v_j + v_k)/6 for each vertex i. *)
Theorem kernel_2_0p_is_four_point_quadrature
    (sx0 sy0 sz0 sx1 sy1 sz1 sx2 sy2 sz2 ssx ssy ssz tx ty tz : R)
    (acc : V3 R) :
  Kernels.kernel_2_0p sx0 sy0 sz0 sx1 sy1 sz1 sx2 sy2 sz2
    ssx ssy ssz tx ty tz acc
  = Vec.add acc
      (KernelSpec.quadrature_sum (sx0, sy0, sz0) (sx1, sy1, sz1)
         (sx2, sy2, sz2) (ssx, ssy, ssz) (tx, ty, tz)).
Proof.
  cbv [Kernels.kernel_2_0p KernelSpec.quadrature_sum].
  rewrite kernel_0v_0p_accumulates.
  rewrite (kernel_0v_0p_accumulates _ _ _ _ _ _ _ _ _ _
             (Kernels.kernel_0v_0p _ _ _ _ _ _ _ _ _ _ _)).
  rewrite (kernel_0v_0p_accumulates _ _ _ _ _ _ _ _ _ _
             (Kernels.kernel_0v_0p _ _ _ _ _ _ _ _ _ _ _)).
  rewrite (kernel_0v_0p_accumulates _ _ _ _ _ _ _ _ _ _ acc).
  rewrite !vadd_assoc. f_equal.
  rewrite <- !vadd_assoc.
  cbv [KernelSpec.point_influence KernelSpec.centroid KernelSpec.toward
       Vec.divide Vec.add Vec.scale v3_map v3_zip].
  to_R.
  repeat (f_equal; try lra).
Qed.
End KernelFacts.


(** ** Loops *)

Section LoopFacts.
Context {St : Type}.
Implicit Types (body : nat -> St -> St) (st : St).

Lemma for_loop_empty lo hi body st :
  hi <= lo -> for_loop lo hi body st = st.
Proof.
  intros Hle. unfold for_loop.
  replace (hi - lo) with 0 by lia. reflexivity.
Qed.

Lemma for_loop_snoc lo hi body st :
  lo <= hi ->
  for_loop lo (Datatypes.S hi) body st = body hi (for_loop lo hi body st).
Proof.
  intros Hle. unfold for_loop.
  replace (Datatypes.S hi - lo) with (Datatypes.S (hi - lo)) by lia.
  rewrite seq_S, fold_left_app. simpl.
  replace (lo + (hi - lo)) with hi by lia. reflexivity.
Qed.

(** The loop rule: an invariant that holds on entry and is kept by every
    iteration holds on exit. *)
Lemma for_loop_invariant (P : nat -> St -> Prop) lo hi body st :
  lo <= hi ->
  P lo st ->
  (forall i a, lo <= i < hi -> P i a -> P (Datatypes.S i) (body i a)) ->
  P hi (for_loop lo hi body st).
Proof.
  intros Hle H0 Hstep. induction hi as [|hi IH].
  - assert (lo = 0) by lia. subst. exact H0.
  - destruct (decide (lo = Datatypes.S hi)) as [->|Hne].
    + rewrite for_loop_empty by lia. exact H0.
    + rewrite for_loop_snoc by lia. apply Hstep; [lia|].
      apply IH; [lia|]. intros i a Hi. apply Hstep. lia.
Qed.

Lemma for_loop_id lo hi st :
  for_loop lo hi (fun _ a => a) st = st.
Proof.
  unfold for_loop. induction (seq lo (hi - lo)); simpl; auto.
Qed.
End LoopFacts.

Lemma to_Int_small (k : nat) :
  (Z.of_nat k < 4294967296)%Z -> to_Int k = k.
Proof.
  intros Hk. unfold to_Int.
  rewrite Z.mod_small by lia. apply Nat2Z.id.
Qed.

(** ** Surfaces: augmentation *)

Section SurfacesGeneric.
Context {S : Type} `{Scalar S}.

(** C8: for every panel-collection state, whatever its element category,
    body pointer and volume, [is_augmented] returns false. *)
Theorem is_augmented_always_false (this : Surfaces S) :
  Surfaces.is_augmented this = false.
Proof. reflexivity. Qed.
(** C10: [add_rot_strengths] leaves the vortex-sheet strengths, the absolute
    panel strengths and the boundary-condition table as they were; all it
    may change is the optional source-strength array, and it does so only
    for a body that is attached, is not the ground, and whose summed
    absolute rotation rates do not exceed machine epsilon: the array is then
    resized to the panel count, or created zero-filled with that size. *)
Theorem add_rot_strengths_frame (_constfac _rotfactor : S)
    (this this' : Surfaces S) :
  Surfaces.add_rot_strengths _constfac _rotfactor this = Ok this' ->
  vs this' = vs this /\ ps this' = ps this /\ bc this' = bc this /\
  this' = set_ss (ss this') this /\
  (ss this' = ss this \/
   exists body,
     B (base this) = Some body /\
     String.eqb "ground" (get_name body) = false /\
     s_gtb (s_abs (v3_get 0 (get_rotvel_vec body))
            +! s_abs (v3_get 1 (get_rotvel_vec body))
            +! s_abs (v3_get 2 (get_rotvel_vec body))) lit_eps = false /\
     ss this' = Some (match ss this with
                      | Some v => resize (np this) lit_0 v
                      | None => replicate (np this) lit_0
                      end)).
Proof.
  assert (Hsame : forall t : Surfaces S,
    vs t = vs t /\ ps t = ps t /\ bc t = bc t /\ t = set_ss (ss t) t).
  { intros []. repeat split. }
  unfold Surfaces.add_rot_strengths.
  destruct (B (base this)) as [body|] eqn:HB.
  2:{ intros [= <-]. destruct (Hsame this) as (?&?&?&?). auto 6. }
  destruct (String.eqb "ground" (get_name body)) eqn:Hname.
  { intros [= <-]. destruct (Hsame this) as (?&?&?&?). auto 6. }
  destruct (get_rotvel_vec body) as [[r0 r1] r2] eqn:Hrot.
  destruct (s_gtb (s_abs r0 +! s_abs r1 +! s_abs r2) lit_eps) eqn:Hspin.
  { intros [= <-]. destruct (Hsame this) as (?&?&?&?). auto 6. }
  destruct (s_gtb (vol this) lit_0); [|discriminate].
  cbn [assert mbind result_bind].
  set (this1 := match ss this with
                | Some v => set_ss (Some (resize _ lit_0 v)) this
                | None => set_ss (Some (replicate _ lit_0)) this
                end).
  destruct (length (v3_get 0 (ps this1)) =? Surfaces.get_npanels this1);
    [|discriminate].
  cbn [assert mbind result_bind].
  destruct (default empty3 (ux (base this1))) as [[ux0 ux1] ux2].
  destruct (utc this1) as [[utc0 utc1] utc2].
  intros [= <-].
  change (for_loop 0 (Surfaces.get_npanels this1) _ this1)
    with (for_loop 0 (Surfaces.get_npanels this1) (fun _ a => a) this1).
  rewrite for_loop_id.
  assert (Hss : ss this1 = Some (match ss this with
                                 | Some v => resize (np this) lit_0 v
                                 | None => replicate (np this) lit_0
                                 end) /\ this1 = set_ss (ss this1) this).
  { subst this1. destruct this as [? ? ? ? ? ? ? ? [v|] ? ? ? ? ? ?];
      split; reflexivity. }
  destruct Hss as [Hss Heta].
  assert (Hfields : vs this1 = vs this /\ ps this1 = ps this
                    /\ bc this1 = bc this).
  { rewrite Heta. destruct this. repeat split. }
  destruct Hfields as (?&?&?).
  repeat split; auto.
  right. exists body. rewrite Hrot. cbn [v3_get]. auto.
Qed.
End SurfacesGeneric.

Section ArrayLoops.
Context {A : Type}.

Lemma nth_insert_eq (l : list A) (i : nat) (a d : A) :
  i < length l -> nth i (<[i := a]> l) d = a.
Proof.
  intros Hi. rewrite nth_lookup, list_lookup_insert_eq by exact Hi.
  reflexivity.
Qed.

Lemma nth_insert_ne (l : list A) (i j : nat) (a d : A) :
  i <> j -> nth j (<[i := a]> l) d = nth j l d.
Proof.
  intros Hij. rewrite !nth_lookup, list_lookup_insert_ne by exact Hij.
  reflexivity.
Qed.

(** A loop that rewrites [l[i]] from its old value, for [i] below [m]. *)
Lemma for_loop_pointwise (d : A) (f : nat -> A -> A) (m : nat) (l : list A) :
  m <= length l ->
  let l' := for_loop 0 m (fun i v => <[i := f i (nth i v d)]> v) l in
  length l' = length l /\
  forall i, nth i l' d = if i <? m then f i (nth i l d) else nth i l d.
Proof.
  intros Hm.
  apply (for_loop_invariant
    (fun k v => length v = length l /\
       forall i, nth i v d = if i <? k then f i (nth i l d) else nth i l d)).
  - lia.
  - split; [reflexivity|]. intros i. reflexivity.
  - intros k v Hk [Hlen Hnth]. split.
    + rewrite length_insert. exact Hlen.
    + intros i. destruct (decide (i = k)) as [->|Hne].
      * rewrite nth_insert_eq by lia.
        replace (k <? Datatypes.S k) with true
          by (symmetry; apply Nat.ltb_lt; lia).
        rewrite Hnth. replace (k <? k) with false
          by (symmetry; apply Nat.ltb_ge; lia).
        reflexivity.
      * rewrite nth_insert_ne by congruence. rewrite Hnth.
        destruct (Nat.ltb_spec i k), (Nat.ltb_spec i (Datatypes.S k));
          try reflexivity; lia.
Qed.
End ArrayLoops.

Lemma v3_get_zip {A B C} (f : A -> B -> C) (v : V3 A) (w : V3 B) (d : nat) :
  v3_get d (v3_zip f v w) = f (v3_get d v) (v3_get d w).
Proof.
  destruct v as [[? ?] ?], w as [[? ?] ?].
  destruct d as [|[|d]]; reflexivity.
Qed.

(** ** Surfaces over the reals *)

Section SurfacesReal.
Local Open Scope R_scope.

Variable ElementBase_finalize_vels : V3 R -> ElementBase R -> ElementBase R.

Lemma pu_finalize_vels (F : V3 R) (this : Surfaces R) (d i : nat) :
  (np this <= length (v3_get d (pu this)))%nat ->
  rd (v3_get d (pu (Surfaces.finalize_vels ElementBase_finalize_vels F this)))
     i
  = if (i <? np this)%nat
    then v3_get d F + rd (v3_get d (pu this)) i * (/ 4 / PI)
    else rd (v3_get d (pu this)) i.
Proof.
  intros Hlen. unfold Surfaces.finalize_vels.
  cbn [pu set_base set_pu]. rewrite v3_get_zip.
  unfold Surfaces.get_npanels, rd.
  pose proof (for_loop_pointwise 0
    (fun _ a => v3_get d F + a * (/ 4 / PI)) (np this)
    (v3_get d (pu this)) Hlen) as [_ Hnth].
  to_R. apply Hnth.
Qed.

(** C6: each finalized panel velocity is the freestream plus the
    accumulated velocity scaled once by 1/(4 pi), so finalizing with
    [F1 + F2] gives the per-panel velocities of finalizing with [F1] with
    [F2] added component-wise. *)
Theorem finalize_vels_linear_in_freestream (F1 F2 : V3 R)
    (this : Surfaces R) (d i : nat) :
  (i < np this)%nat ->
  (np this <= length (v3_get d (pu this)))%nat ->
  let finalized F :=
    rd (v3_get d
          (pu (Surfaces.finalize_vels ElementBase_finalize_vels F this))) i in
  finalized F1 = v3_get d F1 + rd (v3_get d (pu this)) i * (1 / (4 * PI))
  /\ finalized (Vec.add F1 F2) = finalized F1 + v3_get d F2.
Proof.
  intros Hi Hlen finalized. subst finalized. cbv beta.
  rewrite !pu_finalize_vels by exact Hlen.
  replace (i <? np this)%nat with true by (symmetry; apply Nat.ltb_lt; lia).
  unfold Vec.add. rewrite v3_get_zip. to_R.
  pose proof PI_neq0 as Hpi.
  split; [field; exact Hpi | ring].
Qed.
End SurfacesReal.

Section BlockLoops.
Context {A : Type}.

Lemma block_index_lt (k n i j : nat) : i < n -> j < k -> k * i + j < k * n.
Proof. intros Hi Hj. nia. Qed.

Lemma block_index_inj (k i j i' j' : nat) :
  j < k -> j' < k -> k * i + j = k * i' + j' -> i = i' /\ j = j'.
Proof.
  intros Hj Hj' Heq.
  assert (i = i') by nia. subst. split; [reflexivity|lia].
Qed.

(** A loop over [n] blocks of [k] entries that rewrites every entry of
    block [i] from its old value. *)
Lemma for_loop_blocks (k n : nat) (g : nat -> nat -> A -> A) (d : A)
    (v0 : list A) :
  length v0 = k * n ->
  let v' :=
    for_loop 0 n (fun i v =>
      for_loop 0 k (fun j v =>
        <[k * i + j := g i j (nth (k * i + j) v d)]> v) v) v0 in
  length v' = k * n /\
  forall i j, i < n -> j < k ->
    nth (k * i + j) v' d = g i j (nth (k * i + j) v0 d).
Proof.
  intros Hlen.
  set (P := fun (m : nat) (v : list A) =>
    length v = k * n /\
    (forall i j, i < m -> i < n -> j < k ->
       nth (k * i + j) v d = g i j (nth (k * i + j) v0 d)) /\
    (forall i j, m <= i -> i < n -> j < k ->
       nth (k * i + j) v d = nth (k * i + j) v0 d)).
  assert (HP : P n (for_loop 0 n (fun i v =>
      for_loop 0 k (fun j v =>
        <[k * i + j := g i j (nth (k * i + j) v d)]> v) v) v0)).
  { apply for_loop_invariant; [lia| |].
    - split; [exact Hlen|split]; [intros; lia|reflexivity].
    - intros m v Hm (Hl & Hdone & Htodo).
      set (Q := fun (c : nat) (w : list A) =>
        length w = k * n /\
        (forall i j, i < m \/ (i = m /\ j < c) -> i < n -> j < k ->
           nth (k * i + j) w d = g i j (nth (k * i + j) v0 d)) /\
        (forall i j, m < i \/ (i = m /\ c <= j) -> i < n -> j < k ->
           nth (k * i + j) w d = nth (k * i + j) v0 d)).
      assert (HQ : Q k (for_loop 0 k (fun j w =>
          <[k * m + j := g m j (nth (k * m + j) w d)]> w) v)).
      { apply for_loop_invariant; [lia| |].
        - split; [exact Hl|split].
          + intros i j [Hi|[_ Hj]] ? ?; [apply Hdone; lia|lia].
          + intros i j Hij ? ?. apply Htodo; lia.
        - intros c w Hc (Hwl & Hwdone & Hwtodo). split; [|split].
          + rewrite length_insert. exact Hwl.
          + intros i j Hij Hi Hj.
            destruct (decide (i = m /\ j = c)) as [[-> ->]|Hne].
            * rewrite nth_insert_eq
                by (rewrite Hwl; apply block_index_lt; lia).
              rewrite Hwtodo by lia. reflexivity.
            * rewrite nth_insert_ne.
              -- apply Hwdone; lia.
              -- intros Heq. apply block_index_inj in Heq; lia.
          + intros i j Hij Hi Hj.
            rewrite nth_insert_ne.
            * apply Hwtodo; lia.
            * intros Heq. apply block_index_inj in Heq; lia. }
      destruct HQ as (Hql & Hqdone & Hqtodo). split; [|split].
      + exact Hql.
      + intros i j ? ? ?. apply Hqdone; lia.
      + intros i j ? ? ?. apply Hqtodo; lia. }
  destruct HP as (Hl & Hdone & _). split; [exact Hl|].
  intros i j Hi Hj. apply Hdone; lia.
Qed.
End BlockLoops.

(** ** Surfaces: construction *)

Section SurfacesConstruction.
Context {S : Type} `{Scalar S}.

Lemma index_check_flag {Ix : Type} (nnodes : nat) (_idx : list nat)
    (wr : nat -> Ix -> Ix) (m : nat) (ix0 : Ix) :
  (exists i, i < m /\ nnodes <= nth i _idx 0) ->
  fst (for_loop 0 m (fun i '(good, ix) =>
         let good := if nnodes <=? nth i _idx 0 then false else good in
         (good, wr i ix)) (true, ix0)) = false.
Proof.
  intros (i & Hi & Hbad). revert i Hi Hbad.
  apply (for_loop_invariant
    (fun k (st : bool * Ix) =>
       forall i, i < k -> nnodes <= nth i _idx 0 -> fst st = false)).
  - lia.
  - intros i Hi. lia.
  - intros k [good ix] Hk IH i Hi Hbad. cbn.
    destruct (Nat.leb_spec nnodes (nth k _idx 0)) as [Hle|Hgt]; [reflexivity|].
    apply (IH i); [|exact Hbad].
    destruct (decide (i = k)) as [->|]; lia.
Qed.

(** C3: with at least one panel, construction stops with a shape error,
    and so yields no collection, whenever the index array length is not a
    multiple of 3, the value array length is not a multiple of the panel
    count, the position array length is not a multiple of 3, or some panel
    index is greater than or equal to the number of nodes supplied.  (An
    index array whose length is not a multiple of 3 is rejected whatever
    the panel count.) *)
Theorem ctor_rejects_malformed_input (_x : list S) (_idx : list nat) (_val : list S)
    (_e : elem_t) (_m : move_t) (_bp : option (Body S))
    (junk : Indeterminate S) :
  length _idx mod 3 <> 0 \/
  (1 <= length _idx / 3 /\
   (length _val mod (length _idx / 3) <> 0 \/
    length _x mod 3 <> 0 \/
    exists i, i < length _idx /\ length _x / 3 <= nth i _idx 0)) ->
  exists msg,
    Surfaces.ctor _x _idx _val _e _m _bp junk = AssertFail msg /\
    In msg shape_errors.
Proof.
  intros Hbad. unfold Surfaces.ctor, Dimensions.
  destruct (Nat.eqb_spec (length _idx mod 3) 0) as [Hidx|Hidx].
  2:{ eexists; split; [reflexivity|]. cbn; auto. }
  destruct Hbad as [Hbad|[Hns Hbad]]; [contradiction|].
  cbn [assert mbind result_bind].
  destruct (Nat.eqb_spec (length _idx / 3) 0) as [Hz|_]; [lia|].
  destruct (Nat.eqb_spec (length _val mod (length _idx / 3)) 0) as [Hval|Hval].
  2:{ eexists; split; [reflexivity|]. cbn; auto. }
  cbn [assert mbind result_bind].
  destruct (Nat.eqb_spec (length _x mod 3) 0) as [Hx|Hx].
  2:{ eexists; split; [reflexivity|]. cbn; auto. }
  cbn [assert mbind result_bind].
  destruct Hbad as [?|[?|Hbad]]; [contradiction|contradiction|].
  cbn [x base ElementBase_new empty3 idx set_base set_x set_ux].
  set (loop := for_loop 0 (3 * _) _ (true, _)).
  assert (Hflag : fst loop = false).
  { apply index_check_flag. destruct Hbad as (i & Hi & Hge).
    exists i. split; [|exact Hge].
    pose proof (Nat.div_mod_eq (length _idx) 3). lia. }
  destruct loop as [good ix]. cbn in Hflag. subst good.
  eexists; split; [reflexivity|]. cbn; auto.
Qed.
End SurfacesConstruction.

(** ** RHS assembly *)

Section RHSFacts.
Context {S : Type} `{Scalar S}.

Lemma nth_to_lookup (l : list S) (i : nat) (d a : S) :
  i < length l -> nth i l d = a -> l !! i = Some a.
Proof.
  intros Hi <-. rewrite nth_lookup.
  destruct (lookup_lt_is_Some_2 l i Hi) as [y ->]. reflexivity.
Qed.

(** C4: for a reactive panel collection with n panels and k = 1, 2 or 3
    boundary-condition components per panel, RHS assembly returns a vector
    of length k*n whose entries for panel i are
    k=1: -v_i.n_i - b_i[0];
    k=2: -v_i.t1_i - b_i[0], -v_i.t2_i - b_i[1];
    k=3: -v_i.t1_i - b_i[0], -v_i.t2_i - b_i[1], -v_i.n_i - b_i[2]. *)
Theorem vels_to_rhs_panels_entries (targ : Surfaces S) :
  let k := length (bc targ) in
  let n := np targ in
  k = 1 \/ k = 2 \/ k = 3 ->
  RHSSpec.arrays_sized targ ->
  exists rhs,
    RHS.vels_to_rhs_panels targ = Ok rhs /\
    length rhs = k * n /\
    forall i j, i < n -> j < k ->
      rhs !! (k * i + j) = Some (RHSSpec.rhs_entry k targ i j).
Proof.
  intros k n Hk Hsized.
  unfold RHS.vels_to_rhs_panels, RHSSpec.rhs_entry, RHSSpec.projections,
    RHSSpec.arrays_sized, Surfaces.get_x1, Surfaces.get_x2,
    Surfaces.get_norm, Surfaces.get_vel, Surfaces.get_bcs,
    Surfaces.get_npanels in *.
  fold k n in Hsized |- *.
  destruct (b targ) as [[[[x1_0 x1_1] x1_2] [[x2_0 x2_1] x2_2]]
                        [[norm0 norm1] norm2]].
  destruct (pu targ) as [[tu0 tu1] tu2].
  cbn [v3_get rd3 v3_map Vec.dot].
  apply Forall_app in Hsized as [Hfix Hbc].
  repeat (apply Forall_cons in Hfix as [? Hfix]).
  assert (Hbc0 : length (nth 0 (bc targ) []) = n).
  { destruct (bc targ) as [|l0 tb]; [cbn in k; lia|].
    apply Forall_cons in Hbc as [? _]. assumption. }
  repeat match goal with
         | Hl : length ?l = n |- context [length ?l] => rewrite Hl
         end.
  rewrite Nat.eqb_refl.
  replace (0 <? k) with true by (symmetry; apply Nat.ltb_lt; lia).
  cbn [assert mbind result_bind].
  eexists. split; [reflexivity|].
  set (rhs0 := resize (k * n) lit_0 []).
  assert (Hrhs0 : length rhs0 = k * n) by apply length_resize.
  set (A1 := fun i => -! (rd tu0 i *! rd x1_0 i +! rd tu1 i *! rd x1_1 i
                          +! rd tu2 i *! rd x1_2 i)).
  set (A2 := fun i => -! (rd tu0 i *! rd x2_0 i +! rd tu1 i *! rd x2_1 i
                          +! rd tu2 i *! rd x2_2 i)).
  set (A3 := fun i => -! (rd tu0 i *! rd norm0 i +! rd tu1 i *! rd norm1 i
                          +! rd tu2 i *! rd norm2 i)).
  set (proj := fun i : nat =>
                 match k with
                 | 1 => [A3 i]
                 | 2 => [A1 i; A2 i]
                 | 3 => [A1 i; A2 i; A3 i]
                 | _ => []
                 end).
  set (rhs1 := if k =? 1 then _ else _).
  assert (Hproj : length rhs1 = k * n /\
            forall i j, i < n -> j < k ->
              nth (k * i + j) rhs1 lit_0 = nth j (proj i) lit_0).
  { subst rhs1 proj. clearbody k.
    destruct Hk as [-> | [-> | ->]]; cbn [Nat.eqb].
    - destruct (for_loop_pointwise lit_0 (fun i _ => A3 i) n rhs0)
        as [Hl Hn]; [lia|].
      split; [exact (eq_trans Hl Hrhs0)|].
      intros i j Hi Hj. replace (1 * i + j) with i by lia.
      assert (j = 0) as -> by lia.
      generalize (Hn i). replace (i <? n) with true
        by (symmetry; apply Nat.ltb_lt; lia).
      intros Hni. exact Hni.
    - destruct (for_loop_blocks 2 n
        (fun i j _ => nth j [A1 i; A2 i] lit_0) lit_0 rhs0 Hrhs0)
        as [Hl Hn].
      split; [exact Hl|]. intros i j Hi Hj. exact (Hn i j Hi Hj).
    - destruct (for_loop_blocks 3 n
        (fun i j _ => nth j [A1 i; A2 i; A3 i] lit_0) lit_0 rhs0 Hrhs0)
        as [Hl Hn].
      split; [exact Hl|]. intros i j Hi Hj. exact (Hn i j Hi Hj). }
  clearbody rhs1. destruct Hproj as [Hl1 Hn1].
  destruct (for_loop_blocks k n
    (fun i j a => a -! rd (nth j (bc targ) []) i) lit_0 rhs1 Hl1)
    as [Hl2 Hn2].
  split; [exact Hl2|].
  intros i j Hi Hj. apply (nth_to_lookup _ _ lit_0).
  - change (for_loop 0 n _ rhs1) with
      (for_loop 0 n (fun i v => for_loop 0 k (fun j v =>
         <[k * i + j := nth (k * i + j) v lit_0
                        -! rd (nth j (bc targ) []) i]> v) v) rhs1).
    rewrite Hl2. apply block_index_lt; assumption.
  - etransitivity; [exact (Hn2 i j Hi Hj)|]. cbv beta.
    f_equal. exact (Hn1 i j Hi Hj).
Qed.
End RHSFacts.

(** ** Simulation: particle ingestion *)

Section StrideLoops.
Context {A : Type}.

Lemma radius_loop_lookup (a : A) (hi fuel i : nat) (v : list A) (j : nat) :
  length v = hi -> hi - i <= fuel ->
  for_loop_by_fuel fuel i hi 7 (fun i v => <[i := a]> v) v !! j
  = if decide (i <= j /\ (j - i) mod 7 = 0)
    then (fun _ => a) <$> v !! j
    else v !! j.
Proof.
  revert i v. induction fuel as [|fuel IH]; intros i v Hlen Hfuel.
  - cbn. destruct (decide _) as [[Hij _]|]; [|reflexivity].
    rewrite lookup_ge_None_2 by lia. reflexivity.
  - change (for_loop_by_fuel (Datatypes.S fuel) i hi 7
              (fun i v => <[i := a]> v) v)
      with (if i <? hi
            then for_loop_by_fuel fuel (i + 7) hi 7
                   (fun i v => <[i := a]> v) (<[i := a]> v)
            else v).
    destruct (Nat.ltb_spec i hi) as [Hi|Hi].
    + rewrite IH by (rewrite ?length_insert; lia).
      destruct (decide (j = i)) as [->|Hne].
      * rewrite list_lookup_insert_eq by lia.
        destruct (decide (i + 7 <= i /\ _)) as [[? _]|_]; [lia|].
        destruct (decide (i <= i /\ _)) as [_|Hn].
        -- destruct (lookup_lt_is_Some_2 v i) as [y ->]; [lia|].
           reflexivity.
        -- exfalso. apply Hn. split; [lia|].
           replace (i - i) with 0 by lia. reflexivity.
      * rewrite list_lookup_insert_ne by congruence.
        destruct (decide (i + 7 <= j /\ _)) as [[? Hm]|Hn1],
                 (decide (i <= j /\ _)) as [[? Hm']|Hn2];
          try reflexivity; exfalso.
        -- apply Hn2. split; [lia|].
           replace (j - i) with ((j - (i + 7)) + 1 * 7) by lia.
           rewrite Nat.Div0.mod_add. exact Hm.
        -- apply Hn1. assert (7 <= j - i).
           { destruct (decide (j - i < 7)); [|lia].
             rewrite Nat.mod_small in Hm' by lia. lia. }
           split; [lia|].
           replace (j - i) with ((j - (i + 7)) + 1 * 7) in Hm' by lia.
           rewrite Nat.Div0.mod_add in Hm'. exact Hm'.
    + destruct (decide _) as [[Hij _]|]; [|reflexivity].
      rewrite lookup_ge_None_2 by lia. reflexivity.
Qed.

Lemma radius_loop_closed_form (a : A) (v : list A) :
  for_loop_by 6 (length v) 7 (fun i v => <[i := a]> v) v = with_radius a v.
Proof.
  apply list_eq. intros j. unfold for_loop_by, with_radius.
  rewrite radius_loop_lookup by lia.
  rewrite list_lookup_imap.
  destruct (decide (6 <= j /\ (j - 6) mod 7 = 0)) as [[Hj Hm]|Hn];
    destruct (Nat.eqb_spec (j mod 7) 6) as [He|He];
    try (destruct (v !! j); reflexivity); exfalso.
  - apply He. replace j with (6 + (j - 6)) by lia.
    rewrite Nat.Div0.add_mod, Hm. reflexivity.
  - apply Hn. pose proof (Nat.div_mod_eq j 7).
    split; [lia|].
    replace (j - 6) with (j / 7 * 7) by lia.
    apply Nat.Div0.mod_mul.
Qed.
End StrideLoops.

Section ParticleIngestion.
Context {S : Type} `{Scalar S} {Collection : Type}.
Variable Points_ctor : list S -> elem_t -> move_t -> Collection.
Variable add_new : list S -> Collection -> Collection.

Lemma add_particles_nonempty (_invec : list S)
    (m : Simulation.Simulation S Collection) :
  length _invec <> 0 -> length _invec mod 7 = 0 ->
  let ingested := with_radius (Simulation.get_vdelta m) _invec in
  Simulation.add_particles Points_ctor add_new _invec m
  = Ok (Simulation.set_vort
          (if length (Simulation.vort m) =? 0
           then Simulation.vort m ++ [Points_ctor ingested active lagrangian]
           else alter (add_new ingested) (length (Simulation.vort m) - 1)
                  (Simulation.vort m)) m).
Proof.
  intros Hne Hmod ingested. unfold Simulation.add_particles.
  destruct (Nat.eqb_spec (length _invec) 0) as [?|_]; [contradiction|].
  rewrite Hmod. cbn [Nat.eqb assert mbind result_bind].
  rewrite radius_loop_closed_form. fold ingested.
  destruct (length (Simulation.vort m) =? 0); reflexivity.
Qed.

Lemma with_radius_ignores_radii (vd : S) (v v' : list S) :
  length v = length v' ->
  (forall j, j mod 7 <> 6 -> v !! j = v' !! j) ->
  with_radius vd v = with_radius vd v'.
Proof.
  intros Hlen Hsame. apply list_eq. intros j. unfold with_radius.
  rewrite !list_lookup_imap.
  destruct (Nat.eqb_spec (j mod 7) 6) as [He|He].
  - destruct (decide (j < length v)) as [Hlt|Hge].
    + destruct (lookup_lt_is_Some_2 v j Hlt) as [y ->].
      destruct (lookup_lt_is_Some_2 v' j) as [y' ->]; [lia|].
      cbn. destruct (Nat.eqb_spec (j mod 7) 6); [reflexivity|contradiction].
    + rewrite !lookup_ge_None_2 by lia. reflexivity.
  - rewrite (Hsame j He). reflexivity.
Qed.

(** C9: for an input whose length is a nonzero multiple of 7,
    [add_particles] hands on the input with the seventh component of every
    particle replaced by the current [get_vdelta] value, so the radii the
    caller supplied are never used; an empty input leaves the simulation
    as it was. *)
Theorem add_particles_overwrites_radius
    (m : Simulation.Simulation S Collection) :
  Simulation.add_particles Points_ctor add_new [] m = Ok m /\
  (forall _invec : list S,
     length _invec <> 0 -> length _invec mod 7 = 0 ->
     let ingested := with_radius (Simulation.get_vdelta m) _invec in
     length ingested = length _invec /\
     (forall j a, _invec !! j = Some a ->
        ingested !! j
        = Some (if j mod 7 =? 6 then Simulation.get_vdelta m else a)) /\
     Simulation.add_particles Points_ctor add_new _invec m
     = Ok (Simulation.set_vort
             (if length (Simulation.vort m) =? 0
              then Simulation.vort m
                   ++ [Points_ctor ingested active lagrangian]
              else alter (add_new ingested) (length (Simulation.vort m) - 1)
                     (Simulation.vort m)) m)) /\
  (forall _invec _invec' : list S,
     length _invec = length _invec' ->
     (forall j, j mod 7 <> 6 -> _invec !! j = _invec' !! j) ->
     Simulation.add_particles Points_ctor add_new _invec m
     = Simulation.add_particles Points_ctor add_new _invec' m).
Proof.
  split; [reflexivity|]. split.
  - intros _invec Hne Hmod ingested. split; [|split].
    + apply length_imap.
    + intros j a Hj. unfold ingested, with_radius.
      rewrite list_lookup_imap, Hj. reflexivity.
    + apply add_particles_nonempty; assumption.
  - intros v v' Hlen Hsame.
    destruct (decide (length v = 0)) as [Hz|Hnz].
    { assert (v = []) as -> by (destruct v; [reflexivity|discriminate]).
      assert (v' = []) as ->
        by (destruct v'; [reflexivity|cbn in Hlen; discriminate]).
      reflexivity. }
    destruct (decide (length v mod 7 = 0)) as [Hmod|Hmod].
    + rewrite !add_particles_nonempty by (rewrite <- ?Hlen; assumption).
      cbv zeta.
      rewrite (with_radius_ignores_radii _ v v' Hlen Hsame). reflexivity.
    + unfold Simulation.add_particles. rewrite <- Hlen.
      destruct (Nat.eqb_spec (length v) 0) as [?|_]; [contradiction|].
      destruct (Nat.eqb_spec (length v mod 7) 0) as [?|_]; [contradiction|].
      reflexivity.
Qed.
End ParticleIngestion.

(** ** Simulation: the asynchronous stepper *)

Lemma for_loop_preserves {St : Type} (Q : St -> Prop) (lo hi : nat)
    (body : nat -> St -> St) (st : St) :
  (forall i a, Q a -> Q (body i a)) -> Q st -> Q (for_loop lo hi body st).
Proof.
  intros Hbody Hst. unfold for_loop.
  revert st Hst. induction (seq lo (hi - lo)) as [|i l IH]; intros st Hst.
  - exact Hst.
  - cbn. apply IH, Hbody, Hst.
Qed.

Section Stepper.
Context {S : Type} `{Scalar S} {Collection : Type}.
Variable zero_vels : Collection -> Collection.
Variable influence : Collection -> Collection -> Collection.
Variable finalize_vels : V3 S -> Collection -> Collection.
Variable move : S -> Collection -> Collection.

Lemma same_control_set_vort (m m' : Simulation.Simulation S Collection)
    (v : list Collection) :
  same_control m m' -> same_control m (Simulation.set_vort v m').
Proof. intros Hc. exact Hc. Qed.

Lemma same_control_set_bdry (m m' : Simulation.Simulation S Collection)
    (v : list Collection) :
  same_control m m' -> same_control m (Simulation.set_bdry v m').
Proof. intros Hc. exact Hc. Qed.

Lemma same_control_set_fldpt (m m' : Simulation.Simulation S Collection)
    (v : list Collection) :
  same_control m m' -> same_control m (Simulation.set_fldpt v m').
Proof. intros Hc. exact Hc. Qed.

Lemma step_control (m : Simulation.Simulation S Collection) :
  let m' := Simulation.step zero_vels influence finalize_vels move m in
  Simulation.step_has_started m' = Simulation.step_has_started m /\
  Simulation.step_is_finished m' = Simulation.step_is_finished m /\
  Simulation.stepfuture m' = Simulation.stepfuture m /\
  Simulation.time m' = Simulation.time m +! Simulation.dt m.
Proof.
  unfold Simulation.step.
  set (m4 := for_loop 0 _ _ (for_loop 0 _ _ (for_loop 0 _ _
               (for_loop 0 _ _ m)))).
  assert (Hc : same_control m m4).
  { subst m4.
    repeat (apply for_loop_preserves;
            [intros; cbv beta;
             repeat first [ apply same_control_set_vort
                          | apply same_control_set_bdry
                          | apply same_control_set_fldpt
                          | apply for_loop_preserves; [intros; cbv beta|] ];
             assumption|]).
    repeat split. }
  destruct Hc as (H1 & H2 & H3 & H4 & H5).
  cbn. rewrite H1, H2, H3, H4, H5. repeat split.
Qed.
(** [async_step] has no guard: whatever the state, it starts a new
    background task and makes [stepfuture] refer to it. *)
Lemma async_step_always_launches (w : Simulation.World S Collection) :
  let w' := Simulation.async_step zero_vels influence finalize_vels move w in
  Simulation.launched w' = Datatypes.S (Simulation.launched w) /\
  Simulation.stepfuture (Simulation.sim w') = Some (Simulation.launched w) /\
  Simulation.step_has_started (Simulation.sim w') = true.
Proof.
  unfold Simulation.async_step.
  destruct w as [m run cnt]. cbn [Simulation.sim Simulation.launched
    Simulation.running Simulation.set_step_has_started
    Simulation.stepfuture].
  destruct (Simulation.stepfuture m) as [old|]; cbn [Simulation.wait].
  - unfold Simulation.run_task.
    destruct (Simulation.is_running old _);
      cbn [Simulation.sim Simulation.launched Simulation.running
           Simulation.set_stepfuture Simulation.stepfuture
           Simulation.step_has_started];
      repeat split.
    destruct (step_control (Simulation.set_step_has_started true m))
      as [-> _].
    reflexivity.
  - cbn. repeat split.
Qed.

(** C2, the code at the failing input: from a fresh simulation,
    [async_step] is called twice before any poll returns ready.  After the
    first call the step is in flight (the poll says not ready).  The second
    call is not a no-op: it starts a second task and [stepfuture] now refers
    to that one; when it has run, the poll returns ready on a simulation
    whose time has advanced by two steps, not by the first step alone. *)
Theorem async_step_twice_runs_two_steps (d : Simulation.Diffusion S) :
  let async_step :=
    Simulation.async_step zero_vels influence finalize_vels move in
  let run_task :=
    Simulation.run_task zero_vels influence finalize_vels move in
  let w0 : Simulation.World S Collection :=
    Simulation.mkWorld (Simulation.Simulation_new d) [] 0 in
  let w1 := async_step w0 in
  let w2 := async_step w1 in
  let polled := Simulation.test_for_new_results (run_task 1 w2) in
  fst (Simulation.test_for_new_results w1) = false /\
  w2 <> w1 /\
  Simulation.launched w1 = 1 /\
  Simulation.launched w2 = 2 /\
  Simulation.stepfuture (Simulation.sim w1) = Some 0 /\
  Simulation.stepfuture (Simulation.sim w2) = Some 1 /\
  fst polled = true /\
  Simulation.time (Simulation.sim (snd polled))
  = lit_0 +! lit_0_01 +! lit_0_01.
Proof.
  cbv zeta. repeat split.
  intros Heq. apply (f_equal Simulation.launched) in Heq.
  cbn in Heq. discriminate.
Qed.
End Stepper.

(** ** Surfaces: transform and the panel bases *)

Section TransformGeneric.
Context {S : Type} `{Scalar S}.
Variable ElementBase_transform : S -> ElementBase S -> ElementBase S.

(** [compute_bases] only fills in panels beyond those that already have a
    basis: called with the current panel count it changes nothing. *)
Lemma compute_bases_no_new_panels (this this' : Surfaces S) :
  (Z.of_nat (np this) < 4294967296)%Z ->
  BasisSpec.bases_sized this ->
  Surfaces.compute_bases (to_Int (np this)) this = Ok this' ->
  this' = this.
Proof.
  intros Hsmall Hsized. unfold Surfaces.compute_bases, BasisSpec.bases_sized in *.
  destruct (to_Int (3 * to_Int (np this)) =? length (idx this));
    [|discriminate].
  cbn [assert mbind result_bind].
  destruct this as [bs k ix ar [[[[b00 b01] b02] [[b10 b11] b12]]
                                [[b20 b21] b22]] ? ? ? ? ? ? ? ? ? ?].
  cbn [np b area idx base v3_get v3_map x] in *.
  rewrite (to_Int_small k) by exact Hsmall.
  repeat (apply Forall_cons in Hsized as [? Hsized]).
  repeat match goal with
         | Hl : length ?l = k |- _ =>
             rewrite ?(resize_all_alt l k) by (symmetry; exact Hl);
             try rewrite Hl; clear Hl
         end.
  rewrite (to_Int_small k) by exact Hsmall.
  rewrite for_loop_empty by lia.
  intros [= <-]. reflexivity.
Qed.

(** Whatever the base class does to the nodes, [transform] hands back the
    basis vectors and areas it found. *)
Lemma transform_keeps_bases (_time : S) (this this' : Surfaces S) :
  (Z.of_nat (np this) < 4294967296)%Z ->
  BasisSpec.bases_sized this ->
  Surfaces.transform ElementBase_transform _time this = Ok this' ->
  b this' = b this /\ area this' = area this.
Proof.
  intros Hsmall Hsized. unfold Surfaces.transform.
  set (this1 := set_base _ this).
  assert (Hsized1 : BasisSpec.bases_sized this1).
  { subst this1. destruct this. exact Hsized. }
  assert (Hsame : b this1 = b this /\ area this1 = area this
                  /\ np this1 = np this).
  { subst this1. destruct this. repeat split. }
  destruct Hsame as (Hb & Ha & Hn). rewrite <- Hb, <- Ha.
  destruct (Surfaces.compute_bases (to_Int (np this1)) this1)
    as [this2|msg] eqn:Hcb; [|discriminate].
  apply compute_bases_no_new_panels in Hcb;
    [|rewrite Hn; exact Hsmall|exact Hsized1]. subst this2.
  cbn [mbind result_bind].
  destruct (B (base this1)) as [body|]; [destruct (M (base this1))|];
    intros [= <-]; destruct this1; split; reflexivity.
Qed.
End TransformGeneric.

Ltac r_eval :=
  cbv -[Rplus Rminus Rmult Rdiv Rinv Ropp sqrt Rabs IZR PI Rlt_dec].

Ltac sqrt_ones :=
  repeat match goal with
         | |- context [sqrt ?e] =>
             lazymatch e with
             | IZR 1 => fail
             | _ => replace e with 1%R by lra
             end
         | |- context [sqrt 1] => rewrite sqrt_1
         end.


Section TransformFacts.
Local Open Scope R_scope.

(** C7, the code at the failing input: the one-triangle body-bound
    collection is constructed (its bases then match its geometry) and
    transformed by a quarter turn about z.  The node positions are the
    turned ones, the basis vectors and areas are the old ones, and they no
    longer satisfy the Gram-Schmidt construction on the current nodes. *)
Theorem transform_leaves_bases_stale :
  exists t0 t1 : Surfaces R,
    Example.panels = Ok t0 /\
    Surfaces.transform (ElementBase_transform Example.turn_wing) 1 t0 = Ok t1 /\
    BasisSpec.bases_match_geometry t0 /\
    x (base t1) = ([- 0; - 0; - 1], [0; 1; 0], [0; 0; 0]) /\
    b t1 = b t0 /\ area t1 = area t0 /\
    ~ BasisSpec.bases_match_geometry t1.
Proof.
  eexists. eexists.
  split; [r_eval; reflexivity|].
  split; [r_eval; reflexivity|].
  split.
  { intros i Hi. assert (i = 0%nat) as -> by (cbn in Hi; lia).
    r_eval. sqrt_ones.
    repeat split; repeat f_equal; lra. }
  split; [reflexivity|].
  split; [reflexivity|].
  split; [reflexivity|].
  intros Hm. destruct (Hm 0%nat) as [Ht1 _]; [cbn; lia|].
  revert Ht1. r_eval. sqrt_ones. intros Ht1.
  apply (f_equal (fun v : V3 R => fst (fst v))) in Ht1. cbn in Ht1. lra.
Qed.
End TransformFacts.

(** ** The properties at concrete inputs *)

Section ConcreteInputs.
Local Open Scope R_scope.

(** The two-panel collection, traced by hand: the panel-center velocities
    are (1,3,5) and (2,4,6), tangent-1 is x, tangent-2 is y, and the
    boundary-condition values are (10,30) and (20,40). *)
Example vels_to_rhs_two_panels :
  exists rhs,
    RHS.vels_to_rhs_panels Example.two_panels = Ok rhs /\
    rhs = [-11; -33; -22; -44].
Proof.
  eexists. split; [r_eval; reflexivity|].
  repeat f_equal; lra.
Qed.

(** One particle: only the seventh value is replaced. *)
Example with_radius_one_particle :
  with_radius 9 Example.one_particle = [1; 2; 3; 4; 5; 6; 9].
Proof. reflexivity. Qed.

(** Two particles pass through the stride-7 loop of [add_particles]. *)
Example radius_loop_two_particles :
  for_loop_by 6 14 7 (fun i v => <[i := 0%nat]> v)
    [1; 2; 3; 4; 5; 6; 7; 8; 9; 10; 11; 12; 13; 14]%nat
  = [1; 2; 3; 4; 5; 6; 0; 8; 9; 10; 11; 12; 13; 0]%nat.
Proof. reflexivity. Qed.

(** A well-formed input is accepted by the constructor. *)
Example ctor_accepts_triangle :
  exists t, Example.panels = Ok t /\ np t = 1%nat /\ n (base t) = 3%nat.
Proof.
  eexists. split; [r_eval; reflexivity|]. split; reflexivity.
Qed.

(** C3 at a concrete input: one triangle naming node 2 when only two nodes
    are supplied. *)
Lemma ctor_rejects_malformed_input_witness :
  (length Example.tri_idx mod 3 <> 0 \/
   (1 <= length Example.tri_idx / 3 /\
    (length Example.one_value mod (length Example.tri_idx / 3) <> 0 \/
     length Example.two_nodes_x mod 3 <> 0 \/
     exists i, i < length Example.tri_idx /\
       length Example.two_nodes_x / 3 <= nth i Example.tri_idx 0)))%nat /\
  exists msg,
    Surfaces.ctor Example.two_nodes_x Example.tri_idx Example.one_value
      reactive fixed None Example.junk0 = AssertFail msg /\
    In msg shape_errors.
Proof.
  assert (Hbad : (length Example.tri_idx mod 3 <> 0 \/
   (1 <= length Example.tri_idx / 3 /\
    (length Example.one_value mod (length Example.tri_idx / 3) <> 0 \/
     length Example.two_nodes_x mod 3 <> 0 \/
     exists i, i < length Example.tri_idx /\
       length Example.two_nodes_x / 3 <= nth i Example.tri_idx 0)))%nat).
  { right. split; [simpl; lia|]. right. right. exists 2%nat.
    split; simpl; lia. }
  split; [exact Hbad|].
  exact (ctor_rejects_malformed_input _ _ _ _ _ _ _ Hbad).
Defined.

(** C4 at a concrete input: the two-panel collection with two
    boundary-condition components per panel. *)
Lemma vels_to_rhs_panels_entries_witness :
  (length (bc Example.two_panels) = 1 \/
   length (bc Example.two_panels) = 2 \/
   length (bc Example.two_panels) = 3)%nat /\
  RHSSpec.arrays_sized Example.two_panels /\
  exists rhs,
    RHS.vels_to_rhs_panels Example.two_panels = Ok rhs /\
    length rhs = (2 * 2)%nat /\
    forall i j, (i < 2)%nat -> (j < 2)%nat ->
      rhs !! (2 * i + j)%nat
      = Some (RHSSpec.rhs_entry 2 Example.two_panels i j).
Proof.
  assert (Hk : (length (bc Example.two_panels) = 1 \/
                length (bc Example.two_panels) = 2 \/
                length (bc Example.two_panels) = 3)%nat).
  { right. left. reflexivity. }
  assert (Hsized : RHSSpec.arrays_sized Example.two_panels).
  { unfold RHSSpec.arrays_sized. simpl. repeat constructor. }
  split; [exact Hk|]. split; [exact Hsized|].
  exact (vels_to_rhs_panels_entries Example.two_panels Hk Hsized).
Defined.

(** C6 at a concrete input: the x velocity of the second of two panels,
    for the freestreams (1,0,0) and (0,2,0). *)
Lemma finalize_vels_linear_in_freestream_witness :
  (1 < np Example.two_panels)%nat /\
  (np Example.two_panels <= length (v3_get 0 (pu Example.two_panels)))%nat /\
  (let finalized F :=
     rd (v3_get 0 (pu (Surfaces.finalize_vels (fun _ e => e) F
                         Example.two_panels))) 1 in
   finalized (1, 0, 0)
   = v3_get 0 (1, 0, 0) + rd (v3_get 0 (pu Example.two_panels)) 1
                          * (1 / (4 * PI))
   /\ finalized (Vec.add (1, 0, 0) (0, 2, 0))
      = finalized (1, 0, 0) + v3_get 0 (0, 2, 0)).
Proof.
  assert (Hi : (1 < np Example.two_panels)%nat) by (simpl; lia).
  assert (Hlen : (np Example.two_panels
                  <= length (v3_get 0 (pu Example.two_panels)))%nat)
    by (simpl; lia).
  split; [exact Hi|]. split; [exact Hlen|].
  exact (finalize_vels_linear_in_freestream (fun _ e => e)
           (1, 0, 0) (0, 2, 0) Example.two_panels 0 1 Hi Hlen).
Defined.
(** C9 at a concrete input: one particle added to a fresh simulation. *)
Lemma add_particles_overwrites_radius_witness :
  (length Example.one_particle <> 0 /\
   length Example.one_particle mod 7 = 0)%nat /\
  (let vd := Simulation.get_vdelta Example.fresh_simulation in
   let ingested := with_radius vd Example.one_particle in
   length ingested = length Example.one_particle /\
   (forall j a, Example.one_particle !! j = Some a ->
      ingested !! j = Some (if (j mod 7 =? 6)%nat then vd else a)) /\
   Simulation.add_particles Example.store_new Example.store_add
     Example.one_particle Example.fresh_simulation
   = Ok (Simulation.set_vort
           (if (length (Simulation.vort Example.fresh_simulation) =? 0)%nat
            then Simulation.vort Example.fresh_simulation
                 ++ [Example.store_new ingested active lagrangian]
            else alter (Example.store_add ingested)
                   (length (Simulation.vort Example.fresh_simulation) - 1)%nat
                   (Simulation.vort Example.fresh_simulation))
           Example.fresh_simulation)).
Proof.
  assert (Hne : length Example.one_particle <> 0%nat) by (simpl; lia).
  assert (Hmod : (length Example.one_particle mod 7 = 0)%nat)
    by reflexivity.
  split; [split; assumption|].
  exact (proj1 (proj2 (add_particles_overwrites_radius Example.store_new
                         Example.store_add Example.fresh_simulation))
           Example.one_particle Hne Hmod).
Defined.

(** C10 at a concrete input: the wing does not rotate, so the call gets
    past its guards and creates the source-strength array. *)
Lemma add_rot_strengths_frame_witness :
  Surfaces.add_rot_strengths 0 0 Example.two_panels
  = Ok (set_ss (Some [0; 0]) Example.two_panels) /\
  (vs (set_ss (Some [0; 0]) Example.two_panels) = vs Example.two_panels /\
   ps (set_ss (Some [0; 0]) Example.two_panels) = ps Example.two_panels /\
   bc (set_ss (Some [0; 0]) Example.two_panels) = bc Example.two_panels /\
   set_ss (Some [0; 0]) Example.two_panels
   = set_ss (ss (set_ss (Some [0; 0]) Example.two_panels))
       Example.two_panels /\
   (ss (set_ss (Some [0; 0]) Example.two_panels) = ss Example.two_panels \/
    exists body,
      B (base Example.two_panels) = Some body /\
      String.eqb "ground" (get_name body) = false /\
      s_gtb (s_abs (v3_get 0 (get_rotvel_vec body))
             +! s_abs (v3_get 1 (get_rotvel_vec body))
             +! s_abs (v3_get 2 (get_rotvel_vec body))) lit_eps = false /\
      ss (set_ss (Some [0; 0]) Example.two_panels)
      = Some (match ss Example.two_panels with
              | Some v => resize (np Example.two_panels) lit_0 v
              | None => replicate (np Example.two_panels) lit_0
              end))).
Proof.
  assert (Hrun : Surfaces.add_rot_strengths 0 0 Example.two_panels
                 = Ok (set_ss (Some [0; 0]) Example.two_panels)).
  { unfold Surfaces.add_rot_strengths.
    simpl. rewrite Rabs_R0.
    destruct (Rlt_dec (/ 4503599627370496) (0 + 0 + 0)) as [Hlt|_]; [lra|].
    destruct (Rlt_dec 0 1) as [_|Hn]; [|lra].
    reflexivity. }
  split; [exact Hrun|].
  exact (add_rot_strengths_frame 0 0 Example.two_panels _ Hrun).
Defined.
End ConcreteInputs.

(** * Further properties of the code *)

(** ** Kernels *)

Section KernelGradGeneric.
Context {S : Type} `{Scalar S}.

Lemma kernel_0v_0bg_fst (sx sy sz sr ssx ssy ssz tx ty tz tr : S)
    (acc : V3 S) (grad : Kernels.Grad) :
  fst (Kernels.kernel_0v_0bg sx sy sz sr ssx ssy ssz tx ty tz tr acc grad)
  = Kernels.kernel_0v_0b sx sy sz sr ssx ssy ssz tx ty tz tr acc.
Proof.
  destruct acc as [[tu tv] tw].
  destruct grad as [[[[? ?] ?] [[? ?] ?]] [[? ?] ?]]. reflexivity.
Qed.

Lemma kernel_0v_0pg_fst (sx sy sz sr ssx ssy ssz tx ty tz : S)
    (acc : V3 S) (grad : Kernels.Grad) :
  fst (Kernels.kernel_0v_0pg sx sy sz sr ssx ssy ssz tx ty tz acc grad)
  = Kernels.kernel_0v_0p sx sy sz sr ssx ssy ssz tx ty tz acc.
Proof.
  destruct acc as [[tu tv] tw].
  destruct grad as [[[[? ?] ?] [[? ?] ?]] [[? ?] ?]]. reflexivity.
Qed.

(** X1: the kernels that also return gradients add the same velocity as
    their velocity-only counterparts, for point and for panel sources. *)
Theorem gradient_kernels_same_velocity
    (sx0 sy0 sz0 sx1 sy1 sz1 sx2 sy2 sz2 sr ssx ssy ssz tx ty tz tr : S)
    (acc : V3 S) (grad : Kernels.Grad) :
  fst (Kernels.kernel_0v_0bg sx0 sy0 sz0 sr ssx ssy ssz tx ty tz tr acc grad)
  = Kernels.kernel_0v_0b sx0 sy0 sz0 sr ssx ssy ssz tx ty tz tr acc /\
  fst (Kernels.kernel_0v_0pg sx0 sy0 sz0 sr ssx ssy ssz tx ty tz acc grad)
  = Kernels.kernel_0v_0p sx0 sy0 sz0 sr ssx ssy ssz tx ty tz acc /\
  fst (Kernels.kernel_2_0bg sx0 sy0 sz0 sx1 sy1 sz1 sx2 sy2 sz2
         ssx ssy ssz tx ty tz tr acc grad)
  = Kernels.kernel_2_0b sx0 sy0 sz0 sx1 sy1 sz1 sx2 sy2 sz2
      ssx ssy ssz tx ty tz tr acc /\
  fst (Kernels.kernel_2_0pg sx0 sy0 sz0 sx1 sy1 sz1 sx2 sy2 sz2
         ssx ssy ssz tx ty tz acc grad)
  = Kernels.kernel_2_0p sx0 sy0 sz0 sx1 sy1 sz1 sx2 sy2 sz2
      ssx ssy ssz tx ty tz acc.
Proof.
  split; [apply kernel_0v_0bg_fst|]. split; [apply kernel_0v_0pg_fst|].
  split.
  - unfold Kernels.kernel_2_0bg, Kernels.kernel_2_0b.
    repeat match goal with
    | |- context [Kernels.kernel_0v_0bg ?a ?b ?c ?d ?e ?f ?g ?h ?i ?j ?k ?l ?m] =>
        let Hq := fresh "Hq" in
        pose proof (kernel_0v_0bg_fst a b c d e f g h i j k l m) as Hq;
        destruct (Kernels.kernel_0v_0bg a b c d e f g h i j k l m) as [? ?];
        cbn [fst] in Hq; subst
    end.
    reflexivity.
  - unfold Kernels.kernel_2_0pg, Kernels.kernel_2_0p.
    repeat match goal with
    | |- context [Kernels.kernel_0v_0pg ?a ?b ?c ?d ?e ?f ?g ?h ?i ?j ?l ?m] =>
        let Hq := fresh "Hq" in
        pose proof (kernel_0v_0pg_fst a b c d e f g h i j l m) as Hq;
        destruct (Kernels.kernel_0v_0pg a b c d e f g h i j l m) as [? ?];
        cbn [fst] in Hq; subst
    end.
    reflexivity.
Qed.
End KernelGradGeneric.

Section KernelFactsMore.
Local Open Scope R_scope.

Ltac kernel_unfold :=
  cbv [Kernels.kernel_0v_0b Kernels.kernel_0v_0p Kernels.kernel_0s_0p
       Kernels.kernel_0v_0bg Kernels.kernel_0v_0pg
       KernelSpec.strength_cross_separation KernelSpec.separation_times_strength
       KernelSpec.trace
       KernelSpec.reg_r2 KernelSpec.r_cubed Vec.add Vec.divide Vec.cross
       Vec.scale Vec.sub Vec.norm2 Vec.dot v3_zip v3_map v3_get fst snd].

(** X2: the source kernel adds [(x_t - x_s) * strength / r³] with
    [r² = |x_t - x_s|² + core_source²] to the target velocity. *)
Theorem kernel_0s_0p_adds_separation_times_strength
    (sx sy sz sr ss tx ty tz : R) (acc : V3 R) :
  Kernels.kernel_0s_0p sx sy sz sr ss tx ty tz acc
  = Vec.add acc
      (KernelSpec.separation_times_strength (sx, sy, sz) (tx, ty, tz) ss
         (KernelSpec.reg_r2 (sx, sy, sz) (tx, ty, tz) sr 0)).
Proof.
  destruct acc as [[tu tv] tw]. kernel_unfold. to_R.
  set (dx := tx - sx). set (dy := ty - sy). set (dz := tz - sz).
  replace (dx * dx + dy * dy + dz * dz + sr * sr + 0 * 0)
    with (dx * dx + dy * dy + dz * dz + sr * sr) by ring.
  assert (Hr : 0 <= dx * dx + dy * dy + dz * dz + sr * sr) by nra.
  rewrite <- (sqrt_sqrt _ Hr) at 1 3 5.
  f_equal; [f_equal|]; unfold Rdiv; ring.
Qed.

(** X3: the gradient a vortex kernel adds has no trace: the induced
    velocity field is divergence-free, whatever the cores. *)
Theorem gradient_kernels_trace_free
    (sx sy sz sr ssx ssy ssz tx ty tz tr : R) (acc : V3 R)
    (grad : Kernels.Grad) :
  KernelSpec.trace (snd (Kernels.kernel_0v_0bg sx sy sz sr ssx ssy ssz tx ty tz tr
                   acc grad)) = KernelSpec.trace grad /\
  KernelSpec.trace (snd (Kernels.kernel_0v_0pg sx sy sz sr ssx ssy ssz tx ty tz
                   acc grad)) = KernelSpec.trace grad.
Proof.
  destruct acc as [[tu tv] tw].
  destruct grad as [[[[tux tvx] twx] [[tuy tvy] twy]] [[tuz tvz] twz]].
  kernel_unfold. to_R. split; ring.
Qed.

(** X4: the kernel is additive in the source strength, and a source of
    zero strength adds nothing. *)
Theorem kernel_0v_0b_superposition
    (sx sy sz sr s1x s1y s1z s2x s2y s2z tx ty tz tr : R) (acc : V3 R) :
  Kernels.kernel_0v_0b sx sy sz sr (s1x + s2x) (s1y + s2y) (s1z + s2z)
    tx ty tz tr acc
  = Kernels.kernel_0v_0b sx sy sz sr s2x s2y s2z tx ty tz tr
      (Kernels.kernel_0v_0b sx sy sz sr s1x s1y s1z tx ty tz tr acc)
  /\ Kernels.kernel_0v_0b sx sy sz sr 0 0 0 tx ty tz tr acc = acc.
Proof.
  destruct acc as [[tu tv] tw]. kernel_unfold. to_R.
  split; (f_equal; [f_equal|]); ring.
Qed.

(** X5: what a vortex at A induces at B and what a vortex of the same
    strength at B induces at A are opposite vectors. *)
Theorem kernel_0v_0b_reciprocal
    (ax ay az ar bx by_ bz br ssx ssy ssz : R) :
  Vec.add
    (Kernels.kernel_0v_0b ax ay az ar ssx ssy ssz bx by_ bz br (0, 0, 0))
    (Kernels.kernel_0v_0b bx by_ bz br ssx ssy ssz ax ay az ar (0, 0, 0))
  = (0, 0, 0).
Proof.
  kernel_unfold. to_R.
  replace ((ax - bx) * (ax - bx) + (ay - by_) * (ay - by_)
           + (az - bz) * (az - bz) + br * br + ar * ar)
    with ((bx - ax) * (bx - ax) + (by_ - ay) * (by_ - ay)
          + (bz - az) * (bz - az) + ar * ar + br * br) by ring.
  f_equal; [f_equal|]; ring.
Qed.

(** X6: with a zero target radius the thick-cored-target kernels are the
    singular-target kernels. *)
Theorem thick_target_kernels_at_zero_radius
    (sx0 sy0 sz0 sx1 sy1 sz1 sx2 sy2 sz2 sr ssx ssy ssz tx ty tz : R)
    (acc : V3 R) (grad : Kernels.Grad) :
  Kernels.kernel_0v_0b sx0 sy0 sz0 sr ssx ssy ssz tx ty tz 0 acc
  = Kernels.kernel_0v_0p sx0 sy0 sz0 sr ssx ssy ssz tx ty tz acc /\
  Kernels.kernel_0v_0bg sx0 sy0 sz0 sr ssx ssy ssz tx ty tz 0 acc grad
  = Kernels.kernel_0v_0pg sx0 sy0 sz0 sr ssx ssy ssz tx ty tz acc grad /\
  Kernels.kernel_2_0b sx0 sy0 sz0 sx1 sy1 sz1 sx2 sy2 sz2 ssx ssy ssz
    tx ty tz 0 acc
  = Kernels.kernel_2_0p sx0 sy0 sz0 sx1 sy1 sz1 sx2 sy2 sz2 ssx ssy ssz
      tx ty tz acc /\
  Kernels.kernel_2_0bg sx0 sy0 sz0 sx1 sy1 sz1 sx2 sy2 sz2 ssx ssy ssz
    tx ty tz 0 acc grad
  = Kernels.kernel_2_0pg sx0 sy0 sz0 sx1 sy1 sz1 sx2 sy2 sz2 ssx ssy ssz
      tx ty tz acc grad.
Proof.
  assert (Hb : forall sx sy sz sr ssx ssy ssz tx ty tz acc,
    Kernels.kernel_0v_0b (S:=R) sx sy sz sr ssx ssy ssz tx ty tz 0 acc
    = Kernels.kernel_0v_0p sx sy sz sr ssx ssy ssz tx ty tz acc).
  { intros. destruct acc0 as [[tu tv] tw].
    cbv [Kernels.kernel_0v_0b Kernels.kernel_0v_0p]. to_R.
    replace (0 * 0) with 0 by ring. rewrite !Rplus_0_r. reflexivity. }
  assert (Hbg : forall sx sy sz sr ssx ssy ssz tx ty tz acc grad,
    Kernels.kernel_0v_0bg (S:=R) sx sy sz sr ssx ssy ssz tx ty tz 0 acc grad
    = Kernels.kernel_0v_0pg sx sy sz sr ssx ssy ssz tx ty tz acc grad).
  { intros. destruct acc0 as [[tu tv] tw].
    destruct grad0 as [[[[? ?] ?] [[? ?] ?]] [[? ?] ?]].
    cbv [Kernels.kernel_0v_0bg Kernels.kernel_0v_0pg]. to_R.
    replace (0 * 0) with 0 by ring. rewrite !Rplus_0_r. reflexivity. }
  split; [apply Hb|]. split; [apply Hbg|]. split.
  - unfold Kernels.kernel_2_0b, Kernels.kernel_2_0p. rewrite !Hb.
    reflexivity.
  - unfold Kernels.kernel_2_0bg, Kernels.kernel_2_0pg.
    do 3 (rewrite Hbg;
          destruct (Kernels.kernel_0v_0pg _ _ _ _ _ _ _ _ _ _ _ _)
            as [? ?]).
    apply Hbg.
Qed.
End KernelFactsMore.

Section PanelSymmetry.
Local Open Scope R_scope.

(** X7: the influence of a panel does not depend on the order in which
    its three vertices are given. *)
Theorem kernel_2_0p_vertex_order
    (sx0 sy0 sz0 sx1 sy1 sz1 sx2 sy2 sz2 ssx ssy ssz tx ty tz : R)
    (acc : V3 R) :
  Kernels.kernel_2_0p sx1 sy1 sz1 sx2 sy2 sz2 sx0 sy0 sz0
    ssx ssy ssz tx ty tz acc
  = Kernels.kernel_2_0p sx0 sy0 sz0 sx1 sy1 sz1 sx2 sy2 sz2
      ssx ssy ssz tx ty tz acc /\
  Kernels.kernel_2_0p sx1 sy1 sz1 sx0 sy0 sz0 sx2 sy2 sz2
    ssx ssy ssz tx ty tz acc
  = Kernels.kernel_2_0p sx0 sy0 sz0 sx1 sy1 sz1 sx2 sy2 sz2
      ssx ssy ssz tx ty tz acc.
Proof.
  cbv [Kernels.kernel_2_0p]. to_R.
  set (k := fun px py pz =>
    Kernels.kernel_0v_0p (S:=R) px py pz 0 (/ 4 * ssx) (/ 4 * ssy)
      (/ 4 * ssz) tx ty tz (0, 0, 0)).
  assert (Hacc : forall px py pz a,
    Kernels.kernel_0v_0p (S:=R) px py pz 0 (/ 4 * ssx) (/ 4 * ssy)
      (/ 4 * ssz) tx ty tz a = Vec.add a (k px py pz)).
  { intros. apply kernel_0v_0p_accumulates. }
  rewrite !Hacc.
  assert (Hk : forall a b c a' b' c', a = a' -> b = b' -> c = c' ->
            k a b c = k a' b' c').
  { intros; subst; reflexivity. }
  split.
  - rewrite (Hk ((sx1 + sx2 + sx0) / 3) _ _ ((sx0 + sx1 + sx2) / 3)
               ((sy0 + sy1 + sy2) / 3) ((sz0 + sz1 + sz2) / 3))
      by lra.
    rewrite (Hk ((sx1 + 4 * sx2 + sx0) / 6) _ _
               ((sx0 + sx1 + 4 * sx2) / 6) ((sy0 + sy1 + 4 * sy2) / 6)
               ((sz0 + sz1 + 4 * sz2) / 6)) by lra.
    rewrite (Hk ((4 * sx1 + sx2 + sx0) / 6) _ _
               ((sx0 + 4 * sx1 + sx2) / 6) ((sy0 + 4 * sy1 + sy2) / 6)
               ((sz0 + 4 * sz1 + sz2) / 6)) by lra.
    rewrite (Hk ((sx1 + sx2 + 4 * sx0) / 6) _ _
               ((4 * sx0 + sx1 + sx2) / 6) ((4 * sy0 + sy1 + sy2) / 6)
               ((4 * sz0 + sz1 + sz2) / 6)) by lra.
    clear Hacc Hk.
    repeat match goal with
           | |- context [k ?a ?b ?c] =>
               generalize (k a b c); intros [[? ?] ?]
           end.
    destruct acc as [[? ?] ?]. cbv [Vec.add v3_zip]. to_R.
    f_equal; [f_equal|]; ring.
  - rewrite (Hk ((sx1 + sx0 + sx2) / 3) _ _ ((sx0 + sx1 + sx2) / 3)
               ((sy0 + sy1 + sy2) / 3) ((sz0 + sz1 + sz2) / 3))
      by lra.
    rewrite (Hk ((4 * sx1 + sx0 + sx2) / 6) _ _
               ((sx0 + 4 * sx1 + sx2) / 6) ((sy0 + 4 * sy1 + sy2) / 6)
               ((sz0 + 4 * sz1 + sz2) / 6)) by lra.
    rewrite (Hk ((sx1 + 4 * sx0 + sx2) / 6) _ _
               ((4 * sx0 + sx1 + sx2) / 6) ((4 * sy0 + sy1 + sy2) / 6)
               ((4 * sz0 + sz1 + sz2) / 6)) by lra.
    rewrite (Hk ((sx1 + sx0 + 4 * sx2) / 6) _ _
               ((sx0 + sx1 + 4 * sx2) / 6) ((sy0 + sy1 + 4 * sy2) / 6)
               ((sz0 + sz1 + 4 * sz2) / 6)) by lra.
    clear Hacc Hk.
    repeat match goal with
           | |- context [k ?a ?b ?c] =>
               generalize (k a b c); intros [[? ?] ?]
           end.
    destruct acc as [[? ?] ?]. cbv [Vec.add v3_zip]. to_R.
    f_equal; [f_equal|]; ring.
Qed.
End PanelSymmetry.

(** ** More loops over arrays *)

Section MoreLoops.

Lemma for_loop_ext {St} (lo hi : nat) (f g : nat -> St -> St) (st : St) :
  (forall i a, f i a = g i a) ->
  for_loop lo hi f st = for_loop lo hi g st.
Proof.
  intros Hfg. unfold for_loop. revert st.
  induction (seq lo (hi - lo)) as [|i l IH]; intros st; [reflexivity|].
  cbn. rewrite Hfg. apply IH.
Qed.

(** A loop on a pair whose halves evolve independently. *)
Lemma for_loop_pair {A B} (lo hi : nat) (f : nat -> A -> A)
    (g : nat -> B -> B) (a : A) (b : B) :
  for_loop lo hi (fun i '(x, y) => (f i x, g i y)) (a, b)
  = (for_loop lo hi f a, for_loop lo hi g b).
Proof.
  unfold for_loop. revert a b.
  induction (seq lo (hi - lo)) as [|i l IH]; intros a b; [reflexivity|].
  cbn. apply IH.
Qed.

Lemma for_loop_triple {A} (lo hi : nat) (f g h : nat -> A -> A)
    (v : V3 A) :
  for_loop lo hi (fun i '(x, y, z) => (f i x, g i y, h i z)) v
  = (for_loop lo hi f (v3_get 0 v), for_loop lo hi g (v3_get 1 v),
     for_loop lo hi h (v3_get 2 v)).
Proof.
  destruct v as [[a b] c]. unfold for_loop. cbn [v3_get]. revert a b c.
  induction (seq lo (hi - lo)) as [|i l IH]; intros a b c; [reflexivity|].
  cbn. apply IH.
Qed.

(** A loop that writes a value of its own into [l[i]] at iteration [i]. *)
Lemma for_loop_write_range {A} (d : A) (F : nat -> A -> A) (lo hi : nat)
    (l : list A) :
  hi <= length l ->
  let l' := for_loop lo hi (fun i v => <[i := F i (nth i v d)]> v) l in
  length l' = length l /\
  forall j, nth j l' d
            = if (lo <=? j) && (j <? hi) then F j (nth j l d) else nth j l d.
Proof.
  intros Hhi. destruct (decide (lo <= hi)) as [Hle|Hgt].
  2:{ cbv zeta. rewrite for_loop_empty by lia. split; [reflexivity|].
      intros j. destruct (Nat.leb_spec lo j), (Nat.ltb_spec j hi);
        try reflexivity; lia. }
  apply (for_loop_invariant
    (fun k v => length v = length l /\
       forall j, nth j v d
                 = if (lo <=? j) && (j <? k) then F j (nth j l d)
                   else nth j l d)); [exact Hle| |].
  - split; [reflexivity|]. intros j.
    destruct (Nat.leb_spec lo j), (Nat.ltb_spec j lo);
      try reflexivity; lia.
  - intros k v Hk [Hlen Hnth]. split.
    + rewrite length_insert. exact Hlen.
    + intros j. destruct (decide (j = k)) as [->|Hne].
      * rewrite nth_insert_eq by lia. rewrite Hnth.
        destruct (Nat.leb_spec lo k), (Nat.ltb_spec k k),
          (Nat.ltb_spec k (Datatypes.S k)); cbn; try reflexivity; lia.
      * rewrite nth_insert_ne by congruence. rewrite Hnth.
        destruct (Nat.leb_spec lo j), (Nat.ltb_spec j k),
          (Nat.ltb_spec j (Datatypes.S k)); cbn; try reflexivity; lia.
Qed.

Lemma nth_resize_lt {A} (d : A) (l : list A) (m j : nat) :
  j < m -> nth j (resize m d l) d = nth j l d.
Proof.
  intros Hj. rewrite !nth_lookup.
  destruct (decide (j < length l)) as [Hlt|Hge].
  - rewrite lookup_resize by lia. reflexivity.
  - rewrite lookup_resize_new by lia.
    rewrite (lookup_ge_None_2 l j) by lia. reflexivity.
Qed.

Lemma nth_replicate_default {A} (d : A) (m j : nat) :
  nth j (replicate m d) d = d.
Proof.
  rewrite nth_lookup. destruct (decide (j < m)).
  - rewrite lookup_replicate_2 by lia. reflexivity.
  - rewrite lookup_ge_None_2 by (rewrite length_replicate; lia).
    reflexivity.
Qed.
End MoreLoops.

(** ** Surfaces: panel strengths *)

Section SurfacesStrengths.
Context {S : Type} `{Scalar S}.

Lemma wr3_loop (F : nat -> V3 S) (num : nat) (p : Arr3 S) :
  for_loop 0 num (fun i q => wr3 q i (F i)) p
  = (for_loop 0 num (fun i l => <[i := v3_get 0 (F i)]> l) (v3_get 0 p),
     for_loop 0 num (fun i l => <[i := v3_get 1 (F i)]> l) (v3_get 1 p),
     for_loop 0 num (fun i l => <[i := v3_get 2 (F i)]> l) (v3_get 2 p)).
Proof.
  rewrite <- for_loop_triple. apply for_loop_ext.
  intros i [[q0 q1] q2]. unfold wr3, v3_zip.
  destruct (F i) as [[f0 f1] f2]. reflexivity.
Qed.

Lemma vortex_sheet_to_panel_strength_spec (num : nat)
    (t t' : Surfaces S) :
  Surfaces.vortex_sheet_to_panel_strength num t = Ok t' ->
  length (fst (vs t)) = num /\
  length (v3_get 0 (v3_get 0 (b t))) = num /\
  t' = set_ps (ps t') t /\
  (forall d, length (v3_get d (ps t')) = num) /\
  (forall i, i < num -> rd3 (ps t') i = PanelStrength.sheet_strength t i).
Proof.
  unfold Surfaces.vortex_sheet_to_panel_strength.
  destruct (Nat.eqb_spec (length (fst (vs t))) num) as [Hvs|]; [|discriminate].
  cbn [assert mbind result_bind].
  destruct (Nat.eqb_spec (length (fst (vs t)))
              (length (v3_get 0 (v3_get 0 (b t))))) as [Hb|]; [|discriminate].
  cbn [assert mbind result_bind].
  intros [= <-].
  split; [exact Hvs|]. split; [congruence|].
  split; [destruct t; reflexivity|].
  assert (Hloop : ps (set_ps (for_loop 0 num (fun i p =>
      wr3 p i (v3_zip (fun x1d x2d =>
        (rd (fst (vs t)) i *! rd x1d i +! rd (snd (vs t)) i *! rd x2d i)
          *! rd (area t) i) (v3_get 0 (b t)) (v3_get 1 (b t))))
      (v3_map (resize num lit_0) (ps t))) t)
    = for_loop 0 num (fun i p => wr3 p i (PanelStrength.sheet_strength t i))
        (v3_map (resize num lit_0) (ps t))).
  { cbn [ps set_ps]. apply for_loop_ext. intros i p.
    f_equal. unfold PanelStrength.sheet_strength, rd3.
    destruct (v3_get 0 (b t)) as [[? ?] ?], (v3_get 1 (b t)) as [[? ?] ?].
    reflexivity. }
  rewrite Hloop, wr3_loop. clear Hloop.
  assert (Hcomp : forall d,
    let l' := for_loop 0 num
                (fun i l => <[i := v3_get d (PanelStrength.sheet_strength t i)]> l)
                (v3_get d (v3_map (resize num lit_0) (ps t))) in
    length l' = num /\
    forall i, i < num -> nth i l' lit_0 = v3_get d (PanelStrength.sheet_strength t i)).
  { intros d.
    assert (Hlen : length (v3_get d (v3_map (resize num lit_0) (ps t))) = num).
    { destruct (ps t) as [[? ?] ?]. destruct d as [|[|d]]; cbn;
        apply length_resize. }
    destruct (for_loop_write_range lit_0
                (fun i _ => v3_get d (PanelStrength.sheet_strength t i)) 0 num
                (v3_get d (v3_map (resize num lit_0) (ps t))))
      as [Hl Hn]; [lia|].
    cbv zeta. split; [rewrite Hl; exact Hlen|].
    intros i Hi. rewrite Hn.
    replace (i <? num) with true by (symmetry; apply Nat.ltb_lt; lia).
    reflexivity. }
  split.
  - intros d. destruct d as [|[|d]]; cbn [v3_get].
    + apply (Hcomp 0).
    + apply (Hcomp 1).
    + apply (Hcomp 2).
  - intros i Hi. unfold rd3, rd. cbn [v3_map].
    rewrite (proj2 (Hcomp 0) i Hi), (proj2 (Hcomp 1) i Hi),
      (proj2 (Hcomp 2) i Hi).
    destruct (PanelStrength.sheet_strength t i) as [[? ?] ?]. reflexivity.
Qed.
End SurfacesStrengths.

(** ** Surfaces: panel bases *)

Section ComputeBases.
Context {S : Type} `{Scalar S}.

Lemma wr3_loop_from (F : nat -> V3 S) (lo hi : nat) (p : Arr3 S) :
  for_loop lo hi (fun i q => wr3 q i (F i)) p
  = (for_loop lo hi (fun i l => <[i := v3_get 0 (F i)]> l) (v3_get 0 p),
     for_loop lo hi (fun i l => <[i := v3_get 1 (F i)]> l) (v3_get 1 p),
     for_loop lo hi (fun i l => <[i := v3_get 2 (F i)]> l) (v3_get 2 p)).
Proof.
  rewrite <- for_loop_triple. apply for_loop_ext.
  intros i [[q0 q1] q2]. unfold wr3, v3_zip.
  destruct (F i) as [[f0 f1] f2]. reflexivity.
Qed.

(** One array written at [i] with [F i] for [lo <= i < hi], after a
    resize to [hi]. *)
Lemma resized_write_range (F : nat -> S) (lo hi : nat) (l : list S) :
  let l' := for_loop lo hi (fun i v => <[i := F i]> v)
              (resize hi lit_0 l) in
  length l' = hi /\
  (forall j, lo <= j < hi -> nth j l' lit_0 = F j) /\
  (forall j, j < lo -> j < hi -> nth j l' lit_0 = nth j l lit_0).
Proof.
  destruct (for_loop_write_range lit_0 (fun i _ => F i) lo hi
              (resize hi lit_0 l)) as [Hl Hn];
    [rewrite length_resize; lia|].
  cbv zeta in *. split; [rewrite Hl; apply length_resize|]. split.
  - intros j Hj. rewrite Hn.
    destruct (Nat.leb_spec lo j), (Nat.ltb_spec j hi);
      cbn; try reflexivity; lia.
  - intros j Hj Hj'. rewrite Hn.
    destruct (Nat.leb_spec lo j); cbn; [lia|].
    apply nth_resize_lt. exact Hj'.
Qed.

Lemma compute_bases_spec (nnew : nat) (t t' : Surfaces S) :
  Surfaces.compute_bases nnew t = Ok t' ->
  let norig := to_Int (length (v3_get 0 (v3_get 0 (b t)))) in
  to_Int (3 * nnew) = length (idx t) /\
  t' = set_area (area t') (set_b (b t') t) /\
  PanelFrame.frames_length nnew t' /\
  (forall i, norig <= i < nnew ->
     PanelFrame.stored_frame t' i = PanelFrame.loop_frame (x (base t)) (idx t) i) /\
  (forall i, i < norig -> i < nnew ->
     PanelFrame.stored_frame t' i = PanelFrame.stored_frame t i).
Proof.
  unfold Surfaces.compute_bases.
  destruct (Nat.eqb_spec (to_Int (3 * nnew)) (length (idx t))) as [Hidx|];
    [|discriminate].
  cbn [assert mbind result_bind].
  set (norig := to_Int _).
  set (fr := PanelFrame.loop_frame (x (base t)) (idx t)).
  rewrite (for_loop_ext norig nnew _
    (fun i '(bb, ar) =>
       ((fun i '(bx1, bx2, bnorm) =>
           (wr3 bx1 i (PanelFrame.frame_t1 (fr i)), wr3 bx2 i (PanelFrame.frame_t2 (fr i)),
            wr3 bnorm i (PanelFrame.frame_n (fr i)))) i bb,
        (fun i ar => <[i := PanelFrame.frame_area (fr i)]> ar) i ar))).
  2:{ intros i [[[bx1 bx2] bnorm] ar]. reflexivity. }
  rewrite for_loop_pair.
  rewrite (for_loop_triple norig nnew
             (fun i q => wr3 q i (PanelFrame.frame_t1 (fr i)))
             (fun i q => wr3 q i (PanelFrame.frame_t2 (fr i)))
             (fun i q => wr3 q i (PanelFrame.frame_n (fr i)))).
  rewrite !wr3_loop_from.
  clearbody fr.
  destruct (b t) as [[[[b00 b01] b02] [[b10 b11] b12]] [[b20 b21] b22]]
    eqn:Hb.
  cbn [v3_get v3_map] in *.
  match goal with
  | |- Ok (set_area ?A (set_b ?Bv t)) = Ok t' -> _ =>
      set (A' := A); set (B' := Bv); intros Heq
  end.
  assert (Ht' : t' = set_area A' (set_b B' t)) by congruence.
  assert (Hb' : b t' = B') by (rewrite Ht'; reflexivity).
  assert (Ha' : area t' = A') by (rewrite Ht'; reflexivity).
  clear Heq. cbv zeta.
  split; [exact Hidx|].
  split; [rewrite Hb', Ha'; exact Ht'|].
  pose proof (fun F l => resized_write_range F norig nnew l) as W.
  unfold PanelFrame.frames_length, PanelFrame.stored_frame.
  rewrite Hb', Ha', Hb. subst A' B'. cbn [v3_get].
  split; [|split].
  - split; [|apply W].
    intros k d. destruct k as [|[|k]], d as [|[|d]]; cbn [v3_get];
      apply W.
  - intros i Hi. unfold rd3, rd. cbn [v3_get v3_map].
    repeat match goal with
    | |- context [nth i (for_loop norig nnew
                           (fun i0 v => <[i0 := @?F i0]> v)
                           (resize nnew lit_0 ?l)) lit_0] =>
        rewrite (proj1 (proj2 (W F l)) i Hi)
    end.
    unfold PanelFrame.frame_t1, PanelFrame.frame_t2, PanelFrame.frame_n, PanelFrame.frame_area.
    destruct (fr i) as [[[[[? ?] ?] [[? ?] ?]] [[? ?] ?]] ?]. reflexivity.
  - intros i Hi Hi'. unfold rd3, rd. cbn [v3_get v3_map].
    repeat match goal with
    | |- context [nth i (for_loop norig nnew
                           (fun i0 v => <[i0 := @?F i0]> v)
                           (resize nnew lit_0 ?l)) lit_0] =>
        rewrite (proj2 (proj2 (W F l)) i Hi Hi')
    end.
    reflexivity.
Qed.
End ComputeBases.

Section SetStr.
Context {S : Type} `{Scalar S}.

Lemma vortex_sheet_to_panel_strength_ok (num : nat) (t : Surfaces S) :
  length (fst (vs t)) = num ->
  length (v3_get 0 (v3_get 0 (b t))) = num ->
  exists t', Surfaces.vortex_sheet_to_panel_strength num t = Ok t'.
Proof.
  intros Hvs Hb. unfold Surfaces.vortex_sheet_to_panel_strength.
  rewrite Hvs, Hb, Nat.eqb_refl. cbn [assert mbind result_bind].
  eexists. reflexivity.
Qed.

(** X8: [set_str] with offset 0 and a buffer of two values per panel
    succeeds on a collection whose sheet-strength and basis arrays hold one
    entry per panel: panel [i] receives the sheet strengths [_in[2i]] and
    [_in[2i+1]], the absolute strengths are recomputed from them, and
    nothing else changes; the count argument plays no part.  A nonzero
    offset is never accepted. *)
Theorem set_str_installs_strengths (icnt : nat) (_in : list S)
    (t : Surfaces S) :
  length (fst (vs t)) = np t ->
  length (snd (vs t)) = np t ->
  length (v3_get 0 (v3_get 0 (b t))) = np t ->
  length _in = 2 * np t ->
  (exists t',
     Surfaces.set_str 0 icnt _in t = Ok t' /\
     (forall i, i < np t ->
        rd (fst (vs t')) i = rd _in (2 * i) /\
        rd (snd (vs t')) i = rd _in (2 * i + 1)) /\
     PanelStrength.strengths_current t' /\
     t' = set_ps (ps t') (set_vs (vs t') t)) /\
  (forall ioffset, ioffset <> 0 ->
     exists msg, Surfaces.set_str ioffset icnt _in t = AssertFail msg).
Proof.
  intros Hvs0 Hvs1 Hb Hin. split.
  2:{ intros ioffset Hoff. unfold Surfaces.set_str.
      cbn [Nat.eqb assert mbind result_bind].
      destruct (length _in =? length (fst (vs t)) * 2);
        cbn [assert mbind result_bind]; [|eexists; reflexivity].
      destruct (Nat.eqb_spec ioffset 0) as [|_]; [contradiction|].
      eexists. reflexivity. }
  unfold Surfaces.set_str, Surfaces.get_npanels.
  cbn [Nat.eqb assert mbind result_bind].
  replace (length _in =? length (fst (vs t)) * 2) with true
    by (symmetry; apply Nat.eqb_eq; lia).
  cbn [assert mbind result_bind].
  destruct (vs t) as [vs0 vs1] eqn:Hvst. cbn [fst snd] in *.
  rewrite (for_loop_pair 0 (np t)
             (fun i a => <[i := rd _in (2 * i + 0)]> a)
             (fun i c => <[i := rd _in (2 * i + 1)]> c)).
  set (w0 := for_loop 0 (np t) _ vs0). set (w1 := for_loop 0 (np t) _ vs1).
  assert (Hw0len : length w0 = length vs0).
  { subst w0. apply for_loop_preserves; [|reflexivity].
    intros i a Ha. rewrite length_insert. exact Ha. }
  destruct (vortex_sheet_to_panel_strength_ok (np t) (set_vs (w0, w1) t))
    as [t' Hrun]; [cbn [vs set_vs fst]; lia|cbn [b set_vs]; exact Hb|].
  exists t'. split; [exact Hrun|].
  apply vortex_sheet_to_panel_strength_spec in Hrun
    as (_ & _ & Heta & _ & Hps).
  destruct (for_loop_write_range lit_0 (fun i _ => rd _in (2 * i + 0)) 0
              (np t) vs0) as [_ Hn0]; [lia|].
  destruct (for_loop_write_range lit_0 (fun i _ => rd _in (2 * i + 1)) 0
              (np t) vs1) as [_ Hn1]; [lia|].
  fold w0 in Hn0. fold w1 in Hn1.
  assert (Hvs' : vs t' = (w0, w1)).
  { rewrite Heta. reflexivity. }
  split; [|split].
  - intros i Hi. rewrite Hvs'. cbn [fst snd]. unfold rd at 1 3.
    rewrite Hn0, Hn1.
    replace (i <? np t) with true by (symmetry; apply Nat.ltb_lt; lia).
    replace (2 * i + 0) with (2 * i) by lia. split; reflexivity.
  - intros i Hi.
    assert (Hnp' : np t' = np t) by (rewrite Heta; reflexivity).
    rewrite Hnp' in Hi. rewrite (Hps i Hi).
    rewrite Heta. reflexivity.
  - rewrite Hvs'. rewrite Heta at 1. destruct t; reflexivity.
Qed.
End SetStr.

(** ** Surfaces: the computed frames over the reals *)

Section ComputeBasesOk.
Context {S : Type} `{Scalar S}.

Lemma compute_bases_ok (nnew : nat) (t : Surfaces S) :
  to_Int (3 * nnew) = length (idx t) ->
  exists t', Surfaces.compute_bases nnew t = Ok t'.
Proof.
  intros Hidx. unfold Surfaces.compute_bases.
  rewrite Hidx, Nat.eqb_refl. cbn [assert mbind result_bind].
  destruct (for_loop _ _ _ _) as [b1 area1].
  eexists. reflexivity.
Qed.
End ComputeBasesOk.

Section ComputeBasesReal.
Local Open Scope R_scope.

Lemma loop_frame_is_spec_frame (t : Surfaces R) (i : nat) :
  PanelFrame.loop_frame (x (base t)) (idx t) i = PanelFrame.spec_frame t i.
Proof.
  unfold PanelFrame.loop_frame, PanelFrame.spec_frame, BasisSpec.node,
    BasisSpec.tangent1, BasisSpec.tangent2, BasisSpec.normal,
    BasisSpec.panel_area, BasisSpec.edge2_perp, BasisSpec.normalize,
    BasisSpec.norm, Vec.norm2, Vec.divide, Vec.sub, Vec.scale,
    MathHelper.length, MathHelper.dot_product, MathHelper.cross_product.
  replace (3 * i + 0)%nat with (3 * i)%nat by lia.
  destruct (rd3 (x (base t)) (nth (3 * i) (idx t) 0%nat)) as [[p0x p0y] p0z].
  destruct (rd3 (x (base t)) (nth (3 * i + 1) (idx t) 0%nat))
    as [[p1x p1y] p1z].
  destruct (rd3 (x (base t)) (nth (3 * i + 2) (idx t) 0%nat))
    as [[p2x p2y] p2z].
  cbn [v3_zip v3_map Vec.dot Vec.cross]. to_R.
  assert (Hdiv : forall c k : R, c * (1 / k) = c / k)
    by (intros; unfold Rdiv; ring).
  rewrite !Hdiv. reflexivity.
Qed.
End ComputeBasesReal.

Section ComputeBasesReal2.
Local Open Scope R_scope.

Lemma unit_after_normalize (a b c : R) :
  0 < a * a + b * b + c * c ->
  let k := sqrt (a * a + b * b + c * c) in
  a / k * (a / k) + b / k * (b / k) + c / k * (c / k) = 1.
Proof.
  intros Hpos k.
  assert (Hk : k * k = a * a + b * b + c * c)
    by (apply sqrt_sqrt; lra).
  assert (Hk0 : k <> 0).
  { intros E. rewrite E in Hk. lra. }
  replace (a / k * (a / k) + b / k * (b / k) + c / k * (c / k))
    with ((a * a + b * b + c * c) / (k * k)) by (field; exact Hk0).
  rewrite <- Hk. field. exact Hk0.
Qed.

Lemma spec_frame_orthonormal (p0 p1 p2 : V3 R) :
  0 < Vec.norm2 (Vec.sub p1 p0) ->
  0 < Vec.norm2 (BasisSpec.edge2_perp p0 p1 p2) ->
  PanelFrame.orthonormal
    (BasisSpec.tangent1 p0 p1, BasisSpec.tangent2 p0 p1 p2,
     BasisSpec.normal p0 p1 p2, BasisSpec.panel_area p0 p1 p2).
Proof.
  unfold BasisSpec.normal, BasisSpec.tangent2, BasisSpec.normalize,
    BasisSpec.norm, BasisSpec.panel_area.
  unfold BasisSpec.edge2_perp.
  set (t1 := BasisSpec.tangent1 p0 p1).
  assert (Ht1 : 0 < Vec.norm2 (Vec.sub p1 p0) -> Vec.dot t1 t1 = 1).
  { subst t1. unfold BasisSpec.tangent1, BasisSpec.normalize, BasisSpec.norm,
      Vec.norm2, Vec.divide.
    destruct (Vec.sub p1 p0) as [[a b] c]. cbn [Vec.dot v3_map]. to_R.
    apply unit_after_normalize. }
  intros H1 H2. specialize (Ht1 H1). clear H1.
  set (e2 := Vec.sub p2 p0) in *. clearbody e2 t1.
  set (w := Vec.sub e2 (Vec.scale (Vec.dot e2 t1) t1)) in *.
  assert (Hperp : Vec.dot t1 w = 0).
  { subst w. destruct t1 as [[a b] c], e2 as [[u v] z].
    cbn [Vec.dot Vec.sub Vec.scale v3_map v3_zip] in *. to_R.
    replace (a * (u - (u * a + v * b + z * c) * a)
             + b * (v - (u * a + v * b + z * c) * b)
             + c * (z - (u * a + v * b + z * c) * c))
      with ((u * a + v * b + z * c) * (1 - (a * a + b * b + c * c)))
      by ring.
    rewrite Ht1. ring. }
  clearbody w.
  assert (Ht2 : let k := sqrt (Vec.norm2 w) in
                Vec.dot (Vec.divide w k) (Vec.divide w k) = 1).
  { unfold Vec.norm2, Vec.divide in *. destruct w as [[a b] c].
    cbn [Vec.dot v3_map] in *. to_R. apply unit_after_normalize. exact H2. }
  assert (Hk0 : sqrt (Vec.norm2 w) <> 0).
  { intros E. apply sqrt_eq_0 in E; lra. }
  cbv zeta in Ht2. to_R. set (k := sqrt (Vec.norm2 w)) in *. clearbody k.
  assert (H12 : Vec.dot t1 (Vec.divide w k) = 0).
  { unfold Vec.divide. destruct t1 as [[a b] c], w as [[u v] z].
    cbn [Vec.dot v3_map] in *. to_R.
    replace (a * (u / k) + b * (v / k) + c * (z / k))
      with ((a * u + b * v + c * z) / k) by (field; exact Hk0).
    rewrite Hperp. field. exact Hk0. }
  set (t2 := Vec.divide w k) in *. clearbody t2.
  unfold PanelFrame.orthonormal, PanelFrame.frame_t1, PanelFrame.frame_t2,
    PanelFrame.frame_n. cbn [fst snd].
  destruct t1 as [[a b] c], t2 as [[u v] z].
  cbn [Vec.dot Vec.cross] in *. to_R.
  repeat split; try assumption.
  - replace ((b * z - c * v) * (b * z - c * v)
             + (c * u - a * z) * (c * u - a * z)
             + (a * v - b * u) * (a * v - b * u))
      with ((a * a + b * b + c * c) * (u * u + v * v + z * z)
            - (a * u + b * v + c * z) * (a * u + b * v + c * z)) by ring.
    rewrite Ht1, Ht2, H12. ring.
  - ring.
  - ring.
Qed.
End ComputeBasesReal2.

Section ComputeBasesReal3.
Local Open Scope R_scope.

(** Lagrange's identity for the two edges of a panel, the second one made
    perpendicular to the first. *)
Lemma edges_lagrange (p0 p1 p2 : V3 R) :
  0 < Vec.norm2 (Vec.sub p1 p0) ->
  Vec.norm2 (Vec.sub p1 p0) * Vec.norm2 (BasisSpec.edge2_perp p0 p1 p2)
  = Vec.norm2 (Vec.cross (Vec.sub p1 p0) (Vec.sub p2 p0)).
Proof.
  unfold BasisSpec.edge2_perp, BasisSpec.tangent1, BasisSpec.normalize,
    BasisSpec.norm.
  set (e1 := Vec.sub p1 p0). set (e2 := Vec.sub p2 p0). clearbody e1 e2.
  destruct e1 as [[a b] c], e2 as [[u v] z].
  unfold Vec.norm2, Vec.divide, Vec.sub, Vec.scale.
  cbn [Vec.dot Vec.cross v3_map v3_zip]. to_R.
  set (q := a * a + b * b + c * c).
  set (k := sqrt q).
  intros Hq.
  assert (Hk : k * k = q) by (apply sqrt_sqrt; lra).
  assert (Hk0 : k <> 0) by (intros E; rewrite E in Hk; lra).
  set (d := u * (a / k) + v * (b / k) + z * (c / k)).
  assert (Hw2 : (u - d * (a / k)) * (u - d * (a / k))
                + (v - d * (b / k)) * (v - d * (b / k))
                + (z - d * (c / k)) * (z - d * (c / k))
                = (u * u + v * v + z * z) - d * d).
  { replace ((u - d * (a / k)) * (u - d * (a / k))
             + (v - d * (b / k)) * (v - d * (b / k))
             + (z - d * (c / k)) * (z - d * (c / k)))
      with ((u * u + v * v + z * z) - 2 * d * d
            + d * d * (q / (k * k)))
      by (subst d q; field; exact Hk0).
    rewrite Hk. field. lra. }
  assert (Hd : k * d = u * a + v * b + z * c)
    by (subst d; field; exact Hk0).
  rewrite Hw2.
  replace (q * (u * u + v * v + z * z - d * d))
    with (q * (u * u + v * v + z * z) - (k * d) * (k * d))
    by (rewrite <- Hk; ring).
  rewrite Hd. subst q. ring.
Qed.

(** Three nodes that are not collinear give two edges of positive length,
    the second one also after it is made perpendicular to the first. *)
Lemma edges_nondegenerate (p0 p1 p2 : V3 R) :
  0 < Vec.norm2 (Vec.cross (Vec.sub p1 p0) (Vec.sub p2 p0)) ->
  0 < Vec.norm2 (Vec.sub p1 p0) /\
  0 < Vec.norm2 (BasisSpec.edge2_perp p0 p1 p2).
Proof.
  intros Hx.
  assert (Hq : 0 < Vec.norm2 (Vec.sub p1 p0)).
  { revert Hx. destruct (Vec.sub p1 p0) as [[a b] c],
      (Vec.sub p2 p0) as [[u v] z].
    unfold Vec.norm2. cbn [Vec.dot Vec.cross]. to_R. intros Hx.
    destruct (Rle_lt_dec (a * a + b * b + c * c) 0) as [Hle|Hlt];
      [|exact Hlt].
    assert (a = 0) by nra. assert (b = 0) by nra. assert (c = 0) by nra.
    subst. lra. }
  split; [exact Hq|].
  pose proof (edges_lagrange p0 p1 p2 Hq) as HL.
  rewrite <- HL in Hx.
  destruct (Rle_lt_dec (Vec.norm2 (BasisSpec.edge2_perp p0 p1 p2)) 0)
    as [Hle|Hlt]; [|exact Hlt].
  exfalso. nra.
Qed.

Lemma spec_frame_area_normal (p0 p1 p2 : V3 R) :
  0 < Vec.norm2 (Vec.sub p1 p0) ->
  0 < Vec.norm2 (BasisSpec.edge2_perp p0 p1 p2) ->
  let e1xe2 := Vec.cross (Vec.sub p1 p0) (Vec.sub p2 p0) in
  0 < BasisSpec.panel_area p0 p1 p2 /\
  2 * BasisSpec.panel_area p0 p1 p2 = sqrt (Vec.norm2 e1xe2) /\
  Vec.scale (2 * BasisSpec.panel_area p0 p1 p2) (BasisSpec.normal p0 p1 p2)
  = e1xe2.
Proof.
  intros Hq Hw. pose proof (edges_lagrange p0 p1 p2 Hq) as HL.
  cbv zeta. rewrite <- HL. clear HL. revert Hq Hw.
  unfold BasisSpec.normal, BasisSpec.tangent2, BasisSpec.normalize,
    BasisSpec.norm, BasisSpec.panel_area.
  set (wv := BasisSpec.edge2_perp p0 p1 p2).
  assert (Hwv : wv = BasisSpec.edge2_perp p0 p1 p2) by reflexivity.
  clearbody wv. revert Hwv.
  unfold BasisSpec.edge2_perp, BasisSpec.tangent1, BasisSpec.normalize,
    BasisSpec.norm.
  set (e1 := Vec.sub p1 p0). set (e2 := Vec.sub p2 p0). clearbody e1 e2.
  to_R. set (k := sqrt (Vec.norm2 e1)). set (h := sqrt (Vec.norm2 wv)).
  intros Hwv Hq Hw.
  assert (Hkpos : 0 < k) by (apply sqrt_lt_R0; exact Hq).
  assert (Hhpos : 0 < h) by (apply sqrt_lt_R0; exact Hw).
  split; [|split].
  - apply Rmult_lt_0_compat; [apply Rmult_lt_0_compat|]; lra.
  - rewrite sqrt_mult by lra. fold k h. field.
  - clearbody k h. subst wv.
    destruct e1 as [[a b] c], e2 as [[u v] z].
    unfold Vec.divide, Vec.sub, Vec.scale.
    cbn [Vec.dot Vec.cross v3_map v3_zip]. to_R.
    f_equal; [f_equal|]; field; split; lra.
Qed.
End ComputeBasesReal3.

Section ComputeBasesTheorems.
Local Open Scope R_scope.

(** X9: [compute_bases] succeeds when the index table holds three entries
    per panel.  It resizes the nine basis arrays and the area array to the
    new panel count and computes only the panels beyond the old size of the
    basis arrays: each of these gets the two-edge Gram-Schmidt frame and
    area of its current nodes, every panel below the old size keeps what
    was stored, and nothing but the basis and the areas changes. *)
Theorem compute_bases_extends_frames (nnew : nat) (t : Surfaces R) :
  to_Int (3 * nnew) = length (idx t) ->
  let norig := to_Int (length (v3_get 0 (v3_get 0 (b t)))) in
  exists t',
    Surfaces.compute_bases nnew t = Ok t' /\
    t' = set_area (area t') (set_b (b t') t) /\
    PanelFrame.frames_length nnew t' /\
    (forall i, (norig <= i < nnew)%nat ->
       PanelFrame.stored_frame t' i = PanelFrame.spec_frame t' i) /\
    (forall i, (i < norig)%nat -> (i < nnew)%nat ->
       PanelFrame.stored_frame t' i = PanelFrame.stored_frame t i).
Proof.
  intros Hidx norig.
  destruct (compute_bases_ok nnew t Hidx) as [t' Hrun].
  exists t'. split; [exact Hrun|].
  apply compute_bases_spec in Hrun as (_ & Heta & Hlen & Hnew & Hold).
  split; [exact Heta|]. split; [exact Hlen|]. split; [|exact Hold].
  intros i Hi. rewrite (Hnew i Hi), loop_frame_is_spec_frame.
  rewrite Heta. reflexivity.
Qed.

(** X10: for a panel that [compute_bases] computes and whose three nodes are
    not collinear, the stored tangents and normal are of unit length and
    mutually perpendicular, the stored area is positive and half the length
    of the cross product of the two edges from node 0, and the normal
    points along that cross product. *)
Theorem compute_bases_frames_orthonormal (nnew : nat) (t : Surfaces R)
    (i : nat) :
  to_Int (3 * nnew) = length (idx t) ->
  (to_Int (length (v3_get 0 (v3_get 0 (b t)))) <= i < nnew)%nat ->
  let e1 := Vec.sub (BasisSpec.node t i 1) (BasisSpec.node t i 0) in
  let e2 := Vec.sub (BasisSpec.node t i 2) (BasisSpec.node t i 0) in
  0 < Vec.norm2 (Vec.cross e1 e2) ->
  exists t',
    Surfaces.compute_bases nnew t = Ok t' /\
    let f := PanelFrame.stored_frame t' i in
    PanelFrame.orthonormal f /\
    0 < PanelFrame.frame_area f /\
    2 * PanelFrame.frame_area f = sqrt (Vec.norm2 (Vec.cross e1 e2)) /\
    Vec.scale (2 * PanelFrame.frame_area f) (PanelFrame.frame_n f)
    = Vec.cross e1 e2.
Proof.
  intros Hidx Hi e1 e2 Hx.
  destruct (compute_bases_ok nnew t Hidx) as [t' Hrun].
  exists t'. split; [exact Hrun|].
  apply compute_bases_spec in Hrun as (_ & _ & _ & Hnew & _).
  cbv zeta. rewrite (Hnew i Hi), loop_frame_is_spec_frame.
  unfold PanelFrame.spec_frame.
  destruct (edges_nondegenerate _ _ _ Hx) as [Hq Hw].
  split; [apply spec_frame_orthonormal; assumption|].
  unfold PanelFrame.frame_area, PanelFrame.frame_n. cbn [fst snd].
  apply spec_frame_area_normal; assumption.
Qed.
End ComputeBasesTheorems.

Section ComputeBasesWitnesses.
Local Open Scope R_scope.

(** X9 at a concrete input: both panels of the bare two-panel collection
    are computed. *)
Lemma compute_bases_extends_frames_witness :
  to_Int (3 * 2) = length (idx Example.two_panels_bare) /\
  exists t',
    Surfaces.compute_bases 2 Example.two_panels_bare = Ok t' /\
    PanelFrame.frames_length 2 t' /\
    (forall i, (0 <= i < 2)%nat ->
       PanelFrame.stored_frame t' i = PanelFrame.spec_frame t' i).
Proof.
  assert (Hidx : to_Int (3 * 2) = length (idx Example.two_panels_bare))
    by reflexivity.
  split; [exact Hidx|].
  destruct (compute_bases_extends_frames 2 Example.two_panels_bare Hidx)
    as (t' & Hrun & _ & Hlen & Hnew & _).
  exists t'. split; [exact Hrun|]. split; [exact Hlen|]. exact Hnew.
Defined.

(** X10 at a concrete input: the first panel of the bare two-panel
    collection, on the nodes (0,0,0), (1,0,0), (1,1,0). *)
Lemma compute_bases_frames_orthonormal_witness :
  to_Int (3 * 2) = length (idx Example.two_panels_bare) /\
  (to_Int (length (v3_get 0 (v3_get 0 (b Example.two_panels_bare)))) <= 0
   < 2)%nat /\
  0 < Vec.norm2
        (Vec.cross
           (Vec.sub (BasisSpec.node Example.two_panels_bare 0 1)
              (BasisSpec.node Example.two_panels_bare 0 0))
           (Vec.sub (BasisSpec.node Example.two_panels_bare 0 2)
              (BasisSpec.node Example.two_panels_bare 0 0))) /\
  exists t',
    Surfaces.compute_bases 2 Example.two_panels_bare = Ok t' /\
    PanelFrame.orthonormal (PanelFrame.stored_frame t' 0).
Proof.
  assert (Hidx : to_Int (3 * 2) = length (idx Example.two_panels_bare))
    by reflexivity.
  assert (Hi : (to_Int (length (v3_get 0 (v3_get 0
                   (b Example.two_panels_bare)))) <= 0 < 2)%nat)
    by (vm_compute; lia).
  assert (Hx : 0 < Vec.norm2
        (Vec.cross
           (Vec.sub (BasisSpec.node Example.two_panels_bare 0 1)
              (BasisSpec.node Example.two_panels_bare 0 0))
           (Vec.sub (BasisSpec.node Example.two_panels_bare 0 2)
              (BasisSpec.node Example.two_panels_bare 0 0)))).
  { r_eval. lra. }
  split; [exact Hidx|]. split; [exact Hi|]. split; [exact Hx|].
  destruct (compute_bases_frames_orthonormal 2 Example.two_panels_bare 0
              Hidx Hi Hx) as (t' & Hrun & Horth & _).
  exists t'. split; [exact Hrun|exact Horth].
Defined.
End ComputeBasesWitnesses.

(** ** Surfaces: the particle representation *)

Section BlockWriters.
Context {A : Type}.

(** A loop whose pass [i] rewrites block [i] of [k] entries and nothing
    else. *)
Lemma for_loop_block_writer (d : A) (k n : nat)
    (body : nat -> list A -> list A) (v : nat -> nat -> A) (l0 : list A) :
  length l0 = k * n ->
  (forall i l, i < n -> length l = k * n ->
     length (body i l) = k * n /\
     (forall j, j < k -> nth (k * i + j) (body i l) d = v i j) /\
     (forall m, m < k * i -> nth m (body i l) d = nth m l d)) ->
  let l' := for_loop 0 n body l0 in
  length l' = k * n /\
  forall i j, i < n -> j < k -> nth (k * i + j) l' d = v i j.
Proof.
  intros Hlen Hbody.
  assert (Hinv : length (for_loop 0 n body l0) = k * n /\
                 forall i j, i < n -> j < k ->
                   nth (k * i + j) (for_loop 0 n body l0) d = v i j).
  { apply (for_loop_invariant
      (fun m l => length l = k * n /\
         forall i j, i < m -> j < k -> nth (k * i + j) l d = v i j));
      [lia| |].
    - split; [exact Hlen|]. intros i j Hi. lia.
    - intros m l Hm [Hl Hv].
      destruct (Hbody m l ltac:(lia) Hl) as (Hl' & Hnew & Hold).
      split; [exact Hl'|].
      intros i j Hi Hj. destruct (decide (i = m)) as [->|Hne].
      + apply Hnew. exact Hj.
      + rewrite Hold by nia. apply Hv; lia. }
  exact Hinv.
Qed.
End BlockWriters.

Section RepresentAsParticles.
Context {S : Type} `{Scalar S}.

Lemma for_loop_0_3 {St} (f : nat -> St -> St) (st : St) :
  for_loop 0 3 f st = f 2 (f 1 (f 0 st)).
Proof. reflexivity. Qed.

Lemma nth_insert_same {A} (l : list A) (i j : nat) (a d : A) :
  i = j -> j < length l -> nth j (<[i := a]> l) d = a.
Proof. intros -> Hj. apply nth_insert_eq. exact Hj. Qed.

Ltac insert_nth :=
  repeat first
    [ rewrite nth_insert_same by (rewrite ?length_insert; lia)
    | rewrite nth_insert_ne by lia ].

Lemma represent_as_particles_spec (_offset _vdelta : S) (t : Surfaces S) :
  length (fst (vs t)) = np t ->
  length (v3_get 0 (v3_get 0 (b t))) = np t ->
  (Z.of_nat (7 * np t) < 4294967296)%Z ->
  exists px t',
    Surfaces.represent_as_particles _offset _vdelta t = Ok (px, t') /\
    Surfaces.vortex_sheet_to_panel_strength (np t) t = Ok t' /\
    length px = 7 * np t /\
    (forall i, i < np t ->
       PanelParticles.particle px i
       = PanelParticles.of_panel _offset _vdelta t' i).
Proof.
  intros Hvs Hb Hsmall.
  destruct (vortex_sheet_to_panel_strength_ok (np t) t Hvs Hb) as [t' Hrun].
  unfold Surfaces.represent_as_particles, Surfaces.get_npanels.
  rewrite Hrun. cbn [mbind result_bind].
  eexists _, t'. split; [reflexivity|]. split; [reflexivity|].
  apply vortex_sheet_to_panel_strength_spec in Hrun
    as (_ & _ & Heta & _ & _).
  pose proof (for_loop_block_writer lit_0 7 (np t)
    (fun i px =>
       <[to_Int (7 * i) + 6 := _vdelta]>
         (for_loop 0 3 (fun j px =>
            <[to_Int (7 * i) + 3 + j := rd (v3_get j (ps t')) i]> px)
          (for_loop 0 3 (fun j px =>
             <[to_Int (7 * i) + j
               := rd px (to_Int (7 * i) + j)
                  +! _offset *! _vdelta *! rd (v3_get j (v3_get 2 (b t'))) i]>
               px)
           (for_loop 0 3 (fun j px =>
              <[to_Int (7 * i) + j
                := (lit_1 /! lit_3)
                   *! (rd (v3_get j (x (base t'))) (nth (3 * i) (idx t') 0)
                       +! rd (v3_get j (x (base t')))
                            (nth (3 * i + 1) (idx t') 0)
                       +! rd (v3_get j (x (base t')))
                            (nth (3 * i + 2) (idx t') 0))]> px) px))))
    (fun i j =>
       let '(pos, str, r) := PanelParticles.of_panel _offset _vdelta t' i in
       match j with
       | 0 | 1 | 2 => v3_get j pos
       | 3 | 4 | 5 => v3_get (j - 3) str
       | _ => r
       end)
    (replicate (np t * 7) lit_0)) as W.
  cbv zeta in W.
  destruct W as [Wlen Wnth].
  { rewrite length_replicate. lia. }
  { intros i l Hi Hl.
    rewrite (to_Int_small (7 * i)) by lia.
    rewrite !for_loop_0_3. unfold rd.
    split; [rewrite !length_insert; exact Hl|]. split.
    - intros j Hj. unfold PanelParticles.of_panel, PanelParticles.center,
        rd3, rd.
      destruct (x (base t')) as [[x0 x1] x2],
        (v3_get 2 (b t')) as [[n0 n1] n2], (ps t') as [[p0 p1] p2].
      cbn [v3_get v3_map v3_zip].
      destruct j as [|[|[|[|[|[|[|j]]]]]]]; [| | | | | | |lia];
        cbn [v3_get Nat.sub]; insert_nth; reflexivity.
    - intros m Hm. insert_nth. reflexivity. }
  split; [exact Wlen|].
  intros i Hi. unfold PanelParticles.particle, rd.
  replace (7 * i) with (7 * i + 0) at 1 by lia.
  rewrite !Wnth by lia.
  destruct (PanelParticles.of_panel _offset _vdelta t' i)
    as [[[[? ?] ?] [[? ?] ?]] ?].
  reflexivity.
Qed.
End RepresentAsParticles.

Section RangeLoops.
Context {St : Type}.

Lemma for_loop_ext_range (lo hi : nat) (f g : nat -> St -> St) (st : St) :
  (forall i a, lo <= i < hi -> f i a = g i a) ->
  for_loop lo hi f st = for_loop lo hi g st.
Proof.
  intros Hfg. destruct (decide (lo <= hi)) as [Hle|Hgt].
  2:{ rewrite !for_loop_empty by lia. reflexivity. }
  induction hi as [|hi IH].
  - rewrite !for_loop_empty by lia. reflexivity.
  - destruct (decide (lo = Datatypes.S hi)) as [->|Hne].
    + rewrite !for_loop_empty by lia. reflexivity.
    + rewrite !for_loop_snoc by lia.
      rewrite IH; [|intros; apply Hfg; lia|lia].
      apply Hfg. lia.
Qed.
End RangeLoops.

Section ParticleTheorems.
Context {S : Type} `{Scalar S}.

(** X11: on a collection whose sheet-strength and basis arrays hold one
    entry per panel, [represent_as_particles] first refreshes the absolute
    panel strengths and then returns seven values per panel: the panel
    center pushed along the stored normal by [_offset * _vdelta], the
    refreshed absolute strength, and [_vdelta] as radius.  The collection
    changes in its absolute strengths only. *)
Theorem represent_as_particles_layout (_offset _vdelta : S)
    (t : Surfaces S) :
  length (fst (vs t)) = np t ->
  length (v3_get 0 (v3_get 0 (b t))) = np t ->
  (Z.of_nat (7 * np t) < 4294967296)%Z ->
  exists px t',
    Surfaces.represent_as_particles _offset _vdelta t = Ok (px, t') /\
    length px = 7 * np t /\
    (forall i, i < np t ->
       PanelParticles.particle px i
       = PanelParticles.of_panel _offset _vdelta t' i) /\
    PanelStrength.strengths_current t' /\
    t' = set_ps (ps t') t.
Proof.
  intros Hvs Hb Hsmall.
  destruct (represent_as_particles_spec _offset _vdelta t Hvs Hb Hsmall)
    as (px & t' & Hrun & Hstr & Hlen & Hpart).
  exists px, t'. split; [exact Hrun|]. split; [exact Hlen|].
  split; [exact Hpart|].
  apply vortex_sheet_to_panel_strength_spec in Hstr
    as (_ & _ & Heta & _ & Hps).
  split; [|exact Heta].
  intros i Hi.
  assert (Hnp : np t' = np t) by (rewrite Heta; reflexivity).
  rewrite Hnp in Hi. rewrite (Hps i Hi). rewrite Heta. reflexivity.
Qed.

(** X12: the total circulation of a collection that is not inert is the
    sum over the panels of the absolute strengths derived from the sheet
    strengths, [(vs0 * x1 + vs1 * x2) * area]: the stored absolute
    strengths are refreshed on the way and the time argument plays no
    part.  An inert collection reports zero and is left as it is. *)
Theorem get_total_circ_sums_sheet_strengths (_time : S) (t : Surfaces S) :
  length (fst (vs t)) = np t ->
  length (v3_get 0 (v3_get 0 (b t))) = np t ->
  (Z.of_nat (7 * np t) < 4294967296)%Z ->
  match E (base t) with
  | inert =>
      Surfaces.get_total_circ _time t = Ok ((lit_0, lit_0, lit_0), t)
  | _ =>
      exists t',
        Surfaces.get_total_circ _time t
        = Ok (PanelParticles.total (np t) (PanelStrength.sheet_strength t),
              t') /\
        PanelStrength.strengths_current t' /\
        t' = set_ps (ps t') t
  end.
Proof.
  intros Hvs Hb Hsmall.
  destruct (represent_as_particles_spec lit_0 lit_1 t Hvs Hb Hsmall)
    as (px & t' & Hrun & Hstr & Hlen & Hpart).
  apply vortex_sheet_to_panel_strength_spec in Hstr
    as (_ & _ & Heta & _ & Hps).
  assert (Hnp : np t' = np t) by (rewrite Heta; reflexivity).
  assert (Hcur : PanelStrength.strengths_current t').
  { intros i Hi. rewrite Hnp in Hi. rewrite (Hps i Hi), Heta. reflexivity. }
  assert (Hsum :
    for_loop 0 (np t') (fun i '(c0, c1, c2) =>
      (c0 +! rd px (7 * i + 3 + 0), c1 +! rd px (7 * i + 3 + 1),
       c2 +! rd px (7 * i + 3 + 2))) (lit_0, lit_0, lit_0)
    = PanelParticles.total (np t) (PanelStrength.sheet_strength t)).
  { rewrite Hnp. unfold PanelParticles.total. apply for_loop_ext_range.
    intros i [[c0 c1] c2] Hi.
    rewrite <- (Hps i ltac:(lia)).
    pose proof (Hpart i ltac:(lia)) as Hp.
    unfold PanelParticles.particle, PanelParticles.of_panel in Hp.
    injection Hp as _ Hs _.
    replace (7 * i + 3 + 0) with (7 * i + 3) by lia.
    replace (7 * i + 3 + 1) with (7 * i + 4) by lia.
    replace (7 * i + 3 + 2) with (7 * i + 5) by lia.
    rewrite <- Hs. reflexivity. }
  unfold Surfaces.get_total_circ, Surfaces.get_npanels.
  destruct (E (base t)).
  - rewrite Hrun. cbn [mbind result_bind]. rewrite Hsum.
    exists t'. split; [reflexivity|]. split; [exact Hcur|exact Heta].
  - rewrite Hrun. cbn [mbind result_bind]. rewrite Hsum.
    exists t'. split; [reflexivity|]. split; [exact Hcur|exact Heta].
  - reflexivity.
Qed.
End ParticleTheorems.

Section ImpulseReal.
Local Open Scope R_scope.

(** X13: over the reals, the total impulse of a collection that is not
    inert is the sum over the panels of (absolute strength) x (panel
    center), the strength being the one derived from the sheet strengths
    and the center a third of the sum of the panel's nodes.  An inert
    collection reports zero and is left as it is. *)
Theorem get_total_impulse_is_strength_cross_center (t : Surfaces R) :
  length (fst (vs t)) = np t ->
  length (v3_get 0 (v3_get 0 (b t))) = np t ->
  (Z.of_nat (7 * np t) < 4294967296)%Z ->
  match E (base t) with
  | inert =>
      Surfaces.get_total_impulse t = Ok ((0, 0, 0), t)
  | _ =>
      exists t',
        Surfaces.get_total_impulse t
        = Ok (PanelParticles.total (np t)
                (fun i => Vec.cross (PanelStrength.sheet_strength t i)
                            (PanelParticles.center t i)),
              t') /\
        t' = set_ps (ps t') t
  end.
Proof.
  intros Hvs Hb Hsmall.
  destruct (represent_as_particles_spec lit_0 lit_1 t Hvs Hb Hsmall)
    as (px & t' & Hrun & Hstr & Hlen & Hpart).
  apply vortex_sheet_to_panel_strength_spec in Hstr
    as (_ & _ & Heta & _ & Hps).
  assert (Hnp : np t' = np t) by (rewrite Heta; reflexivity).
  assert (Hsum :
    for_loop 0 (np t') (fun i '(i0, i1, i2) =>
      (i0 +! (rd px (7 * i + 3 + 1) *! rd px (7 * i + 2)
              -! rd px (7 * i + 3 + 2) *! rd px (7 * i + 1)),
       i1 +! (rd px (7 * i + 3 + 2) *! rd px (7 * i + 0)
              -! rd px (7 * i + 3 + 0) *! rd px (7 * i + 2)),
       i2 +! (rd px (7 * i + 3 + 0) *! rd px (7 * i + 1)
              -! rd px (7 * i + 3 + 1) *! rd px (7 * i + 0))))
      (lit_0, lit_0, lit_0)
    = PanelParticles.total (np t)
        (fun i => Vec.cross (PanelStrength.sheet_strength t i)
                    (PanelParticles.center t i))).
  { rewrite Hnp. unfold PanelParticles.total. apply for_loop_ext_range.
    intros i [[c0 c1] c2] Hi.
    rewrite <- (Hps i ltac:(lia)).
    pose proof (Hpart i ltac:(lia)) as Hp.
    unfold PanelParticles.particle, PanelParticles.of_panel in Hp.
    pose proof (f_equal (fun p => fst (fst p)) Hp) as Hpos.
    pose proof (f_equal (fun p => snd (fst p)) Hp) as Hs.
    cbv beta iota delta [fst snd] in Hpos, Hs. clear Hp.
    assert (Hc : PanelParticles.center t' i = PanelParticles.center t i)
      by (rewrite Heta; reflexivity).
    rewrite Hc in Hpos.
    replace (7 * i + 3 + 0)%nat with (7 * i + 3)%nat by lia.
    replace (7 * i + 3 + 1)%nat with (7 * i + 4)%nat by lia.
    replace (7 * i + 3 + 2)%nat with (7 * i + 5)%nat by lia.
    replace (7 * i + 0)%nat with (7 * i)%nat by lia.
    destruct (rd3 (ps t') i) as [[s0 s1] s2].
    destruct (PanelParticles.center t i) as [[cx cy] cz].
    destruct (rd3 (v3_get 2 (b t')) i) as [[n0 n1] n2].
    unfold v3_zip in Hpos.
    pose proof (f_equal (v3_get 0) Hpos) as H0.
    pose proof (f_equal (v3_get 1) Hpos) as H1.
    pose proof (f_equal (v3_get 2) Hpos) as H2.
    pose proof (f_equal (v3_get 0) Hs) as Hs0.
    pose proof (f_equal (v3_get 1) Hs) as Hs1.
    pose proof (f_equal (v3_get 2) Hs) as Hs2.
    cbv beta iota delta [v3_get] in H0, H1, H2, Hs0, Hs1, Hs2.
    rewrite H0, H1, H2, Hs0, Hs1, Hs2.
    cbn [Vec.add Vec.cross v3_zip]. unfold Vec.add. cbn [v3_zip]. to_R.
    f_equal; [f_equal|]; ring. }
  unfold Surfaces.get_total_impulse, Surfaces.get_npanels.
  destruct (E (base t)).
  - rewrite Hrun. cbn [mbind result_bind]. rewrite Hsum.
    exists t'. split; [reflexivity|exact Heta].
  - rewrite Hrun. cbn [mbind result_bind]. rewrite Hsum.
    exists t'. split; [reflexivity|exact Heta].
  - reflexivity.
Qed.
End ImpulseReal.

Section ParticleWitnesses.
Local Open Scope R_scope.

(** X8 at a concrete input: four sheet strengths for the two panels. *)
Lemma set_str_installs_strengths_witness :
  (length (fst (vs Example.two_panels)) = np Example.two_panels /\
   length (snd (vs Example.two_panels)) = np Example.two_panels /\
   length (v3_get 0 (v3_get 0 (b Example.two_panels)))
   = np Example.two_panels /\
   length Example.four_values = 2 * np Example.two_panels)%nat /\
  exists t',
    Surfaces.set_str 0 0 Example.four_values Example.two_panels = Ok t' /\
    PanelStrength.strengths_current t'.
Proof.
  assert (H0 : length (fst (vs Example.two_panels))
               = np Example.two_panels) by reflexivity.
  assert (H1 : length (snd (vs Example.two_panels))
               = np Example.two_panels) by reflexivity.
  assert (H2 : length (v3_get 0 (v3_get 0 (b Example.two_panels)))
               = np Example.two_panels) by reflexivity.
  assert (H3 : length Example.four_values
               = (2 * np Example.two_panels)%nat) by reflexivity.
  split; [repeat split; assumption|].
  destruct (set_str_installs_strengths 0 Example.four_values
              Example.two_panels H0 H1 H2 H3)
    as [(t' & Hrun & _ & Hcur & _) _].
  exists t'. split; [exact Hrun|exact Hcur].
Defined.

(** X11 at a concrete input: the two-panel collection. *)
Lemma represent_as_particles_layout_witness :
  (length (fst (vs Example.two_panels)) = np Example.two_panels /\
   length (v3_get 0 (v3_get 0 (b Example.two_panels)))
   = np Example.two_panels)%nat /\
  (Z.of_nat (7 * np Example.two_panels) < 4294967296)%Z /\
  exists px t',
    Surfaces.represent_as_particles 1 2 Example.two_panels = Ok (px, t') /\
    length px = (7 * np Example.two_panels)%nat.
Proof.
  assert (H0 : length (fst (vs Example.two_panels))
               = np Example.two_panels) by reflexivity.
  assert (H2 : length (v3_get 0 (v3_get 0 (b Example.two_panels)))
               = np Example.two_panels) by reflexivity.
  assert (H3 : (Z.of_nat (7 * np Example.two_panels) < 4294967296)%Z)
    by reflexivity.
  split; [split; assumption|]. split; [exact H3|].
  destruct (represent_as_particles_layout 1 2 Example.two_panels H0 H2 H3)
    as (px & t' & Hrun & Hlen & _).
  exists px, t'. split; [exact Hrun|exact Hlen].
Defined.

(** X12 at a concrete input: the two-panel collection is reactive. *)
Lemma get_total_circ_sums_sheet_strengths_witness :
  (length (fst (vs Example.two_panels)) = np Example.two_panels /\
   length (v3_get 0 (v3_get 0 (b Example.two_panels)))
   = np Example.two_panels)%nat /\
  (Z.of_nat (7 * np Example.two_panels) < 4294967296)%Z /\
  exists t',
    Surfaces.get_total_circ 0 Example.two_panels
    = Ok (PanelParticles.total (np Example.two_panels)
            (PanelStrength.sheet_strength Example.two_panels), t').
Proof.
  assert (H0 : length (fst (vs Example.two_panels))
               = np Example.two_panels) by reflexivity.
  assert (H2 : length (v3_get 0 (v3_get 0 (b Example.two_panels)))
               = np Example.two_panels) by reflexivity.
  assert (H3 : (Z.of_nat (7 * np Example.two_panels) < 4294967296)%Z)
    by reflexivity.
  split; [split; assumption|]. split; [exact H3|].
  destruct (get_total_circ_sums_sheet_strengths 0 Example.two_panels
              H0 H2 H3) as (t' & Hrun & _).
  exists t'. exact Hrun.
Defined.

(** X13 at a concrete input: the two-panel collection is reactive. *)
Lemma get_total_impulse_is_strength_cross_center_witness :
  (length (fst (vs Example.two_panels)) = np Example.two_panels /\
   length (v3_get 0 (v3_get 0 (b Example.two_panels)))
   = np Example.two_panels)%nat /\
  (Z.of_nat (7 * np Example.two_panels) < 4294967296)%Z /\
  exists t',
    Surfaces.get_total_impulse Example.two_panels
    = Ok (PanelParticles.total (np Example.two_panels)
            (fun i => Vec.cross
                        (PanelStrength.sheet_strength Example.two_panels i)
                        (PanelParticles.center Example.two_panels i)), t').
Proof.
  assert (H0 : length (fst (vs Example.two_panels))
               = np Example.two_panels) by reflexivity.
  assert (H2 : length (v3_get 0 (v3_get 0 (b Example.two_panels)))
               = np Example.two_panels) by reflexivity.
  assert (H3 : (Z.of_nat (7 * np Example.two_panels) < 4294967296)%Z)
    by reflexivity.
  split; [split; assumption|]. split; [exact H3|].
  destruct (get_total_impulse_is_strength_cross_center Example.two_panels
              H0 H2 H3) as (t' & Hrun & _).
  exists t'. exact Hrun.
Defined.
End ParticleWitnesses.

(** ** Surfaces: panel velocities *)

Section VelocityReal.
Local Open Scope R_scope.
Variable ElementBase_zero_vels : ElementBase R -> ElementBase R.
Variable ElementBase_finalize_vels : V3 R -> ElementBase R -> ElementBase R.
Variable Body_get_vel : Body R -> R -> V3 R.
Variable Body_get_rotvel_vec : Body R -> R -> V3 R.

(** X14: over the reals, [zero_vels] followed by [finalize_vels] leaves
    every panel with exactly the freestream as its panel-center velocity,
    whatever the velocities were before. *)
Theorem zero_then_finalize_gives_freestream (F : V3 R) (t : Surfaces R)
    (d i : nat) :
  (i < np t)%nat ->
  (np t <= length (v3_get d (pu t)))%nat ->
  rd (v3_get d
        (pu (Surfaces.finalize_vels ElementBase_finalize_vels F
               (Surfaces.zero_vels ElementBase_zero_vels t)))) i
  = v3_get d F.
Proof.
  intros Hi Hlen.
  set (t0 := Surfaces.zero_vels ElementBase_zero_vels t).
  assert (Hnp : np t0 = np t) by reflexivity.
  assert (Hpu : v3_get d (pu t0)
                = replicate (length (v3_get d (pu t))) 0).
  { subst t0. unfold Surfaces.zero_vels. cbn [pu set_pu set_base].
    destruct (pu t) as [[p0 p1] p2]. destruct d as [|[|d]]; reflexivity. }
  rewrite pu_finalize_vels
    by (rewrite Hnp, Hpu, length_replicate; exact Hlen).
  rewrite Hnp. replace (i <? np t)%nat with true
    by (symmetry; apply Nat.ltb_lt; exact Hi).
  rewrite Hpu. unfold rd.
  change (@lit_0 R RScalar) with 0.
  rewrite (nth_replicate_default 0). lra.
Qed.

Lemma insert_twice (l : list R) (i : nat) (h g : R -> R) :
  <[i := g (nth i (<[i := h (nth i l 0)]> l) 0)]> (<[i := h (nth i l 0)]> l)
  = <[i := g (h (nth i l 0))]> l.
Proof.
  destruct (decide (i < length l)%nat) as [Hlt|Hge].
  - rewrite nth_insert_eq by exact Hlt. apply list_insert_insert_eq.
  - rewrite !list_insert_ge by (rewrite ?length_insert; lia). reflexivity.
Qed.

Lemma add_body_motion_pu (_factor _time : R) (t : Surfaces R)
    (body : Body R) :
  B (base t) = Some body ->
  String.eqb "ground" (get_name body) = false ->
  0 < vol t ->
  (forall d, (np t <= length (v3_get d (pu t)))%nat) ->
  exists t1,
    Surfaces.add_body_motion Body_get_vel Body_get_rotvel_vec _factor _time t
    = Ok t1 /\
    t1 = set_pu (pu t1) t /\
    (forall d, length (v3_get d (pu t1)) = length (v3_get d (pu t))) /\
    (forall d j,
       rd (v3_get d (pu t1)) j
       = if (j <? np t)%nat
         then rd (v3_get d (pu t)) j
              + _factor
                * v3_get d (rigid_velocity (Body_get_vel body _time)
                              (Body_get_rotvel_vec body _time) t j)
         else rd (v3_get d (pu t)) j).
Proof.
  intros HB Hground Hvol Hlen.
  unfold Surfaces.add_body_motion, Surfaces.get_npanels.
  rewrite HB, Hground. unfold s_gtb. to_R.
  destruct (Rlt_dec 0 (vol t)) as [_|Hn]; [|contradiction].
  cbn [assert mbind result_bind].
  unfold rigid_velocity, PanelParticles.center.
  destruct (Body_get_vel body _time) as [[v0 v1] v2].
  destruct (Body_get_rotvel_vec body _time) as [[r0 r1] r2].
  destruct (x (base t)) as [[x0 x1] x2].
  destruct (tc t) as [[c0 c1] c2].
  cbn [v3_map Vec.sub Vec.cross Vec.add v3_zip]. unfold Vec.add, Vec.sub.
  cbn [v3_zip Vec.cross]. to_R.
  set (id0 := fun i => nth (3 * i) (idx t) 0%nat).
  set (id1 := fun i => nth (3 * i + 1) (idx t) 0%nat).
  set (id2 := fun i => nth (3 * i + 2) (idx t) 0%nat).
  set (xc := fun i => (rd x0 (id0 i) + rd x0 (id1 i) + rd x0 (id2 i)) / 3
                      - c0).
  set (yc := fun i => (rd x1 (id0 i) + rd x1 (id1 i) + rd x1 (id2 i)) / 3
                      - c1).
  set (zc := fun i => (rd x2 (id0 i) + rd x2 (id1 i) + rd x2 (id2 i)) / 3
                      - c2).
  set (F0 := fun (i : nat) (a : R) =>
               a + _factor * v0 + _factor * (r1 * zc i - r2 * yc i)).
  set (F1 := fun (i : nat) (a : R) =>
               a + _factor * v1 + _factor * (r2 * xc i - r0 * zc i)).
  set (F2 := fun (i : nat) (a : R) =>
               a + _factor * v2 + _factor * (r0 * yc i - r1 * xc i)).
  eexists. split; [reflexivity|].
  match goal with
  | |- context [set_pu ?L t] =>
      assert (Hloop : L
        = (for_loop 0 (np t) (fun i l => <[i := F0 i (nth i l 0)]> l)
             (v3_get 0 (pu t)),
           for_loop 0 (np t) (fun i l => <[i := F1 i (nth i l 0)]> l)
             (v3_get 1 (pu t)),
           for_loop 0 (np t) (fun i l => <[i := F2 i (nth i l 0)]> l)
             (v3_get 2 (pu t))))
  end.
  { rewrite <- for_loop_triple. apply for_loop_ext.
    intros i [[p0 p1] p2]. cbv zeta. cbn [v3_zip]. unfold rd.
    f_equal; [f_equal|].
    - exact (insert_twice p0 i (fun a => a + _factor * v0)
               (fun a => a + _factor * (r1 * zc i - r2 * yc i))).
    - exact (insert_twice p1 i (fun a => a + _factor * v1)
               (fun a => a + _factor * (r2 * xc i - r0 * zc i))).
    - exact (insert_twice p2 i (fun a => a + _factor * v2)
               (fun a => a + _factor * (r0 * yc i - r1 * xc i))). }
  rewrite Hloop. clear Hloop. cbn [pu set_pu].
  destruct (for_loop_write_range 0 F0 0 (np t) (v3_get 0 (pu t)) (Hlen 0%nat))
    as [L0 N0].
  destruct (for_loop_write_range 0 F1 0 (np t) (v3_get 1 (pu t)) (Hlen 1%nat))
    as [L1 N1].
  destruct (for_loop_write_range 0 F2 0 (np t) (v3_get 2 (pu t)) (Hlen 2%nat))
    as [L2 N2].
  split; [destruct t; reflexivity|]. split.
  - intros d. destruct d as [|[|d]]; cbn [v3_get]; assumption.
  - intros d j. unfold rd.
    destruct d as [|[|d]];
      [| |replace (v3_get (Datatypes.S (Datatypes.S d)) (pu t))
            with (v3_get 2 (pu t))
            by (destruct (pu t) as [[? ?] ?]; reflexivity)];
      cbn [v3_get];
      [rewrite N0|rewrite N1|rewrite N2]; cbn [Nat.leb andb];
      destruct (j <? np t)%nat; try reflexivity;
      subst F0 F1 F2 xc yc zc id0 id1 id2; cbv beta; unfold rd; to_R; field.
Qed.
End VelocityReal.

Section BodyMotionReal.
Local Open Scope R_scope.
Variable Body_get_vel : Body R -> R -> V3 R.
Variable Body_get_rotvel_vec : Body R -> R -> V3 R.

(** X15: over the reals, for a collection bound to a body other than the
    ground, with positive volume and panel velocities sized to the panel
    count, [add_body_motion] adds to the velocity of every panel [_factor]
    times the rigid-body velocity of the body at the panel center,
    [vel + rotvel x (center - tc)], and changes nothing else. *)
Theorem add_body_motion_adds_rigid_velocity (_factor _time : R)
    (t : Surfaces R) (body : Body R) :
  B (base t) = Some body ->
  String.eqb "ground" (get_name body) = false ->
  0 < vol t ->
  (forall d, (np t <= length (v3_get d (pu t)))%nat) ->
  exists t1,
    Surfaces.add_body_motion Body_get_vel Body_get_rotvel_vec _factor _time t
    = Ok t1 /\
    t1 = set_pu (pu t1) t /\
    (forall i, (i < np t)%nat ->
       rd3 (pu t1) i
       = Vec.add (rd3 (pu t) i)
           (Vec.scale _factor
              (rigid_velocity (Body_get_vel body _time)
                 (Body_get_rotvel_vec body _time) t i))) /\
    (forall i, (np t <= i)%nat -> rd3 (pu t1) i = rd3 (pu t) i).
Proof.
  intros HB Hground Hvol Hlen.
  destruct (add_body_motion_pu Body_get_vel Body_get_rotvel_vec _factor _time
              t body HB Hground Hvol Hlen) as (t1 & Hrun & Heta & _ & Hpu).
  exists t1. split; [exact Hrun|]. split; [exact Heta|].
  assert (H3 : forall i,
    rd3 (pu t1) i
    = (rd (v3_get 0 (pu t1)) i, rd (v3_get 1 (pu t1)) i,
       rd (v3_get 2 (pu t1)) i)).
  { intros i. unfold rd3. destruct (pu t1) as [[? ?] ?]. reflexivity. }
  split.
  - intros i Hi. rewrite H3, !Hpu.
    replace (i <? np t)%nat with true
      by (symmetry; apply Nat.ltb_lt; exact Hi).
    unfold rd3. destruct (pu t) as [[p0 p1] p2].
    destruct (rigid_velocity _ _ t i) as [[w0 w1] w2].
    reflexivity.
  - intros i Hi. rewrite H3, !Hpu.
    replace (i <? np t)%nat with false
      by (symmetry; apply Nat.ltb_ge; exact Hi).
    unfold rd3. destruct (pu t) as [[p0 p1] p2]. reflexivity.
Qed.

(** X16: [add_body_motion] does nothing to a collection without a body or
    bound to the ground.  Otherwise, over the reals, adding the body motion
    with a factor and then with the opposite factor gives back the
    collection exactly. *)
Theorem add_body_motion_undone (_factor _time : R) (t : Surfaces R) :
  (B (base t) = None \/
   (exists ground, B (base t) = Some ground /\
                   String.eqb "ground" (get_name ground) = true) ->
   Surfaces.add_body_motion Body_get_vel Body_get_rotvel_vec _factor _time t
   = Ok t) /\
  (forall body,
     B (base t) = Some body ->
     String.eqb "ground" (get_name body) = false ->
     0 < vol t ->
     (forall d, (np t <= length (v3_get d (pu t)))%nat) ->
     exists t1,
       Surfaces.add_body_motion Body_get_vel Body_get_rotvel_vec
         _factor _time t = Ok t1 /\
       Surfaces.add_body_motion Body_get_vel Body_get_rotvel_vec
         (- _factor) _time t1 = Ok t).
Proof.
  split.
  - intros [HB | (g & HB & Hg)]; unfold Surfaces.add_body_motion;
      rewrite HB; [reflexivity|]. rewrite Hg. reflexivity.
  - intros body HB Hground Hvol Hlen.
    destruct (add_body_motion_pu Body_get_vel Body_get_rotvel_vec _factor
                _time t body HB Hground Hvol Hlen)
      as (t1 & Hrun & Heta & Hl1 & Hpu1).
    exists t1. split; [exact Hrun|].
    assert (HB1 : B (base t1) = Some body) by (rewrite Heta; exact HB).
    assert (Hvol1 : 0 < vol t1) by (rewrite Heta; exact Hvol).
    assert (Hnp1 : np t1 = np t) by (rewrite Heta; reflexivity).
    assert (Hlen1 : forall d, (np t1 <= length (v3_get d (pu t1)))%nat).
    { intros d. rewrite Hnp1, Hl1. apply Hlen. }
    destruct (add_body_motion_pu Body_get_vel Body_get_rotvel_vec
                (- _factor) _time t1 body HB1 Hground Hvol1 Hlen1)
      as (t2 & Hrun2 & Heta2 & Hl2 & Hpu2).
    rewrite Hrun2. f_equal.
    assert (Hrv : forall j,
      rigid_velocity (Body_get_vel body _time)
        (Body_get_rotvel_vec body _time) t1 j
      = rigid_velocity (Body_get_vel body _time)
          (Body_get_rotvel_vec body _time) t j)
      by (intros j; rewrite Heta; reflexivity).
    assert (Hcomp : forall d, v3_get d (pu t2) = v3_get d (pu t)).
    { intros d. apply (nth_ext _ _ 0 0).
      - rewrite Hl2, Hl1. reflexivity.
      - intros j _. generalize (Hpu2 d j). unfold rd. to_R. intros ->.
        rewrite Hnp1, Hrv. generalize (Hpu1 d j). unfold rd. to_R.
        intros ->. destruct (j <? np t)%nat; [ring|reflexivity]. }
    assert (Hpu : pu t2 = pu t).
    { pose proof (Hcomp 0%nat) as H0. pose proof (Hcomp 1%nat) as H1.
      pose proof (Hcomp 2%nat) as H2.
      destruct (pu t2) as [[? ?] ?], (pu t) as [[? ?] ?].
      cbn [v3_get] in *. congruence. }
    rewrite Heta2, Hpu, Heta. destruct t; reflexivity.
Qed.
End BodyMotionReal.

Section VelocityWitnesses.
Local Open Scope R_scope.

(** X14 at a concrete input: the second panel of two, x component. *)
Lemma zero_then_finalize_gives_freestream_witness :
  (1 < np Example.two_panels)%nat /\
  (np Example.two_panels <= length (v3_get 0 (pu Example.two_panels)))%nat /\
  rd (v3_get 0
        (pu (Surfaces.finalize_vels (fun _ e => e) (3, 4, 5)
               (Surfaces.zero_vels (fun e => e) Example.two_panels)))) 1
  = v3_get 0 (3, 4, 5).
Proof.
  assert (Hi : (1 < np Example.two_panels)%nat) by (simpl; lia).
  assert (Hlen : (np Example.two_panels
                  <= length (v3_get 0 (pu Example.two_panels)))%nat)
    by (simpl; lia).
  split; [exact Hi|]. split; [exact Hlen|].
  exact (zero_then_finalize_gives_freestream (fun e => e) (fun _ e => e)
           (3, 4, 5) Example.two_panels 0 1 Hi Hlen).
Defined.

(** X15 at a concrete input: the two panels on the moving wing. *)
Lemma add_body_motion_adds_rigid_velocity_witness :
  B (base Example.two_panels) = Some Example.wing /\
  String.eqb "ground" (get_name Example.wing) = false /\
  0 < vol Example.two_panels /\
  (forall d, (np Example.two_panels
              <= length (v3_get d (pu Example.two_panels)))%nat) /\
  exists t1,
    Surfaces.add_body_motion Example.wing_vel Example.wing_rotvel 1 0
      Example.two_panels = Ok t1 /\
    t1 = set_pu (pu t1) Example.two_panels.
Proof.
  assert (HB : B (base Example.two_panels) = Some Example.wing)
    by reflexivity.
  assert (Hg : String.eqb "ground" (get_name Example.wing) = false)
    by reflexivity.
  assert (Hvol : 0 < vol Example.two_panels) by (simpl; lra).
  assert (Hlen : forall d, (np Example.two_panels
                   <= length (v3_get d (pu Example.two_panels)))%nat).
  { intros [|[|d]]; simpl; lia. }
  split; [exact HB|]. split; [exact Hg|]. split; [exact Hvol|].
  split; [exact Hlen|].
  destruct (add_body_motion_adds_rigid_velocity Example.wing_vel
              Example.wing_rotvel 1 0 Example.two_panels Example.wing
              HB Hg Hvol Hlen) as (t1 & Hrun & Heta & _).
  exists t1. split; [exact Hrun|exact Heta].
Defined.

(** X16 at a concrete input: the two panels on the moving wing. *)
Lemma add_body_motion_undone_witness :
  B (base Example.two_panels) = Some Example.wing /\
  String.eqb "ground" (get_name Example.wing) = false /\
  0 < vol Example.two_panels /\
  (forall d, (np Example.two_panels
              <= length (v3_get d (pu Example.two_panels)))%nat) /\
  exists t1,
    Surfaces.add_body_motion Example.wing_vel Example.wing_rotvel 1 0
      Example.two_panels = Ok t1 /\
    Surfaces.add_body_motion Example.wing_vel Example.wing_rotvel (- 1) 0
      t1 = Ok Example.two_panels.
Proof.
  assert (HB : B (base Example.two_panels) = Some Example.wing)
    by reflexivity.
  assert (Hg : String.eqb "ground" (get_name Example.wing) = false)
    by reflexivity.
  assert (Hvol : 0 < vol Example.two_panels) by (simpl; lra).
  assert (Hlen : forall d, (np Example.two_panels
                   <= length (v3_get d (pu Example.two_panels)))%nat).
  { intros [|[|d]]; simpl; lia. }
  split; [exact HB|]. split; [exact Hg|]. split; [exact Hvol|].
  split; [exact Hlen|].
  exact (proj2 (add_body_motion_undone Example.wing_vel Example.wing_rotvel
                  1 0 Example.two_panels)
           Example.wing HB Hg Hvol Hlen).
Defined.
End VelocityWitnesses.

(** ** RHS assembly: rows and edge cases *)

Section RHSMore.
Context {S : Type} `{Scalar S}.

Lemma arrays_sized_lengths (targ : Surfaces S) :
  RHSSpec.arrays_sized targ ->
  (forall k d, length (v3_get d (v3_get k (b targ))) = np targ) /\
  (forall d, length (v3_get d (pu targ)) = np targ) /\
  Forall (fun l : list S => length l = np targ) (bc targ).
Proof.
  unfold RHSSpec.arrays_sized.
  destruct (b targ) as [[[[b00 b01] b02] [[b10 b11] b12]] [[b20 b21] b22]].
  destruct (pu targ) as [[pu0 pu1] pu2].
  intros Hs. apply Forall_app in Hs as [Hfix Hbc].
  repeat (apply Forall_cons in Hfix as [? Hfix]).
  split; [|split; [|exact Hbc]].
  - intros k d. destruct k as [|[|k]], d as [|[|d]]; cbn [v3_get];
      assumption.
  - intros d. destruct d as [|[|d]]; cbn [v3_get]; assumption.
Qed.

(** X17: the right-hand side is assembled for one, two or three
    boundary-condition components only.  With none, [vels_to_rhs_panels]
    stops on its assertion; with more than three it still succeeds on a
    well-sized collection, but skips the projection of the velocity, so
    that entry [j] of panel [i] is just zero minus the boundary value
    [bc[j][i]]. *)
Theorem vels_to_rhs_panels_outside_one_to_three (targ : Surfaces S) :
  (bc targ = [] ->
   exists msg, RHS.vels_to_rhs_panels targ = AssertFail msg) /\
  (3 < length (bc targ) ->
   RHSSpec.arrays_sized targ ->
   exists rhs,
     RHS.vels_to_rhs_panels targ = Ok rhs /\
     length rhs = length (bc targ) * np targ /\
     forall i j, i < np targ -> j < length (bc targ) ->
       rd rhs (length (bc targ) * i + j)
       = lit_0 -! rd (nth j (bc targ) []) i).
Proof.
  split.
  - intros Hbc. unfold RHS.vels_to_rhs_panels, Surfaces.get_x1,
      Surfaces.get_x2, Surfaces.get_norm, Surfaces.get_vel, Surfaces.get_bcs.
    destruct (v3_get 0 (b targ)) as [[x1_0 x1_1] x1_2].
    destruct (v3_get 1 (b targ)) as [[x2_0 x2_1] x2_2].
    destruct (v3_get 2 (b targ)) as [[norm0 norm1] norm2].
    destruct (pu targ) as [[tu0 tu1] tu2].
    rewrite Hbc.
    destruct (length x1_0 =? length x2_0); cbn [assert mbind result_bind];
      [|eexists; reflexivity].
    destruct (length x1_0 =? length norm0); cbn [assert mbind result_bind];
      [|eexists; reflexivity].
    destruct (length x1_0 =? length tu0); cbn [assert mbind result_bind];
      [|eexists; reflexivity].
    eexists. reflexivity.
  - intros Hk Hsized.
    destruct (arrays_sized_lengths targ Hsized) as (Hb & Hpu & Hbc).
    assert (Hbc0 : length (nth 0 (bc targ) []) = np targ).
    { destruct (bc targ) as [|l0 tb]; [cbn in Hk; lia|].
      apply Forall_cons in Hbc as [? _]. assumption. }
    pose proof (Hb 0 0) as H00. pose proof (Hb 1 0) as H10.
    pose proof (Hb 2 0) as H20. pose proof (Hpu 0) as Hp0.
    unfold RHS.vels_to_rhs_panels, Surfaces.get_x1, Surfaces.get_x2,
      Surfaces.get_norm, Surfaces.get_vel, Surfaces.get_bcs,
      Surfaces.get_npanels.
    destruct (v3_get 0 (b targ)) as [[x1_0 x1_1] x1_2].
    destruct (v3_get 1 (b targ)) as [[x2_0 x2_1] x2_2].
    destruct (v3_get 2 (b targ)) as [[norm0 norm1] norm2].
    destruct (pu targ) as [[tu0 tu1] tu2].
    cbn [v3_get] in H00, H10, H20, Hp0.
    rewrite H00, H10, H20, Hp0, Hbc0, Nat.eqb_refl.
    replace (0 <? length (bc targ)) with true
      by (symmetry; apply Nat.ltb_lt; lia).
    cbn [assert mbind result_bind].
    set (k := length (bc targ)) in *.
    destruct (Nat.eqb_spec k 1) as [|_]; [lia|].
    destruct (Nat.eqb_spec k 2) as [|_]; [lia|].
    destruct (Nat.eqb_spec k 3) as [|_]; [lia|].
    eexists. split; [reflexivity|].
    assert (Hrhs0 : length (resize (k * np targ) lit_0 ([] : list S))
                    = k * np targ) by apply length_resize.
    destruct (for_loop_blocks k (np targ)
      (fun i j a => a -! rd (nth j (bc targ) []) i) lit_0 _ Hrhs0)
      as [Hl2 Hn2].
    split; [exact Hl2|].
    intros i j Hi Hj. unfold rd at 1.
    etransitivity; [exact (Hn2 i j Hi Hj)|]. cbv beta. f_equal.
    rewrite resize_nil. apply nth_replicate_default.
Qed.
End RHSMore.

Section RHSRows.
Context {S : Type} `{Scalar S}.

Lemma vels_to_rhs_panels_length (targ : Surfaces S) :
  0 < length (bc targ) ->
  RHSSpec.arrays_sized targ ->
  exists rhs,
    RHS.vels_to_rhs_panels targ = Ok rhs /\
    length rhs = length (bc targ) * np targ.
Proof.
  intros Hk Hsized.
  destruct (arrays_sized_lengths targ Hsized) as (Hb & Hpu & Hbc).
  assert (Hbc0 : length (nth 0 (bc targ) []) = np targ).
  { destruct (bc targ) as [|l0 tb]; [cbn in Hk; lia|].
    apply Forall_cons in Hbc as [? _]. assumption. }
  pose proof (Hb 0 0) as H00. pose proof (Hb 1 0) as H10.
  pose proof (Hb 2 0) as H20. pose proof (Hpu 0) as Hp0.
  unfold RHS.vels_to_rhs_panels, Surfaces.get_x1, Surfaces.get_x2,
    Surfaces.get_norm, Surfaces.get_vel, Surfaces.get_bcs,
    Surfaces.get_npanels.
  destruct (v3_get 0 (b targ)) as [[x1_0 x1_1] x1_2].
  destruct (v3_get 1 (b targ)) as [[x2_0 x2_1] x2_2].
  destruct (v3_get 2 (b targ)) as [[norm0 norm1] norm2].
  destruct (pu targ) as [[tu0 tu1] tu2].
  cbn [v3_get] in H00, H10, H20, Hp0.
  rewrite H00, H10, H20, Hp0, Hbc0, Nat.eqb_refl.
  replace (0 <? length (bc targ)) with true
    by (symmetry; apply Nat.ltb_lt; lia).
  cbn [assert mbind result_bind].
  eexists. split; [reflexivity|].
  assert (Hins : forall lo hi (g : nat -> list S -> list S) (l : list S),
            (forall i v, length (g i v) = length v) ->
            length (for_loop lo hi g l) = length l).
  { intros lo hi g l Hg.
    apply (for_loop_preserves (fun v => length v = length l)
             lo hi g l); [|reflexivity].
    intros i a Ha. rewrite Hg. exact Ha. }
  rewrite Hins.
  2:{ intros i v. apply Hins. intros j w. apply length_insert. }
  destruct (length (bc targ) =? 1);
    [rewrite Hins by (intros; apply length_insert); apply length_resize|].
  destruct (length (bc targ) =? 2);
    [rewrite Hins by (intros; rewrite !length_insert; reflexivity);
     apply length_resize|].
  destruct (length (bc targ) =? 3);
    [rewrite Hins by (intros; rewrite !length_insert; reflexivity);
     apply length_resize|].
  apply length_resize.
Qed.

(** X18: on a well-sized collection with at least one boundary-condition
    component, the number of rows that [get_num_rows] reports is the length
    of the right-hand side that [vels_to_rhs_panels] assembles, and
    [get_next_row] is the first row plus that length (no row is ever added
    for augmentation). *)
Theorem get_num_rows_is_rhs_length (targ : Surfaces S) :
  0 < length (bc targ) ->
  RHSSpec.arrays_sized targ ->
  (Z.of_nat (istart targ + length (bc targ) * np targ) < 4294967296)%Z ->
  exists rhs,
    RHS.vels_to_rhs_panels targ = Ok rhs /\
    Surfaces.get_num_rows targ = length rhs /\
    Surfaces.get_next_row targ = Surfaces.get_first_row targ + length rhs.
Proof.
  intros Hk Hsized Hsmall.
  destruct (vels_to_rhs_panels_length targ Hk Hsized) as (rhs & Hrun & Hlen).
  exists rhs. split; [exact Hrun|].
  destruct (arrays_sized_lengths targ Hsized) as (_ & _ & Hbc).
  assert (Hbc0 : length (nth 0 (bc targ) []) = np targ).
  { destruct (bc targ) as [|l0 tb]; [cbn in Hk; lia|].
    apply Forall_cons in Hbc as [? _]. assumption. }
  assert (Hrows : Surfaces.get_num_rows targ = length rhs).
  { unfold Surfaces.get_num_rows, Surfaces.is_augmented. cbv zeta.
    rewrite Hbc0, Nat.add_0_r, Hlen. apply to_Int_small. lia. }
  split; [exact Hrows|].
  unfold Surfaces.get_next_row, Surfaces.get_first_row.
  rewrite Hrows, Hlen. apply to_Int_small. exact Hsmall.
Qed.
End RHSRows.

Section RHSWitnesses.
Local Open Scope R_scope.

(** X17 at concrete inputs: the two-panel collection without and with
    four boundary-condition components. *)
Lemma vels_to_rhs_panels_outside_one_to_three_witness :
  (bc Example.no_bcs = [] /\
   exists msg, RHS.vels_to_rhs_panels Example.no_bcs = AssertFail msg) /\
  ((3 < length (bc Example.four_bcs))%nat /\
   RHSSpec.arrays_sized Example.four_bcs /\
   exists rhs,
     RHS.vels_to_rhs_panels Example.four_bcs = Ok rhs /\
     length rhs = (length (bc Example.four_bcs) * np Example.four_bcs)%nat).
Proof.
  assert (H0 : bc Example.no_bcs = []) by reflexivity.
  assert (Hk : (3 < length (bc Example.four_bcs))%nat) by (simpl; lia).
  assert (Hsized : RHSSpec.arrays_sized Example.four_bcs).
  { unfold RHSSpec.arrays_sized. simpl. repeat constructor. }
  split.
  - split; [exact H0|].
    exact (proj1 (vels_to_rhs_panels_outside_one_to_three Example.no_bcs)
             H0).
  - split; [exact Hk|]. split; [exact Hsized|].
    destruct (proj2 (vels_to_rhs_panels_outside_one_to_three
                       Example.four_bcs) Hk Hsized)
      as (rhs & Hrun & Hlen & _).
    exists rhs. split; [exact Hrun|exact Hlen].
Defined.

(** X18 at a concrete input: the two-panel collection with two
    boundary-condition components per panel. *)
Lemma get_num_rows_is_rhs_length_witness :
  (0 < length (bc Example.two_panels))%nat /\
  RHSSpec.arrays_sized Example.two_panels /\
  (Z.of_nat (istart Example.two_panels
             + length (bc Example.two_panels) * np Example.two_panels)
   < 4294967296)%Z /\
  exists rhs,
    RHS.vels_to_rhs_panels Example.two_panels = Ok rhs /\
    Surfaces.get_num_rows Example.two_panels = length rhs /\
    Surfaces.get_next_row Example.two_panels
    = (Surfaces.get_first_row Example.two_panels + length rhs)%nat.
Proof.
  assert (Hk : (0 < length (bc Example.two_panels))%nat) by (simpl; lia).
  assert (Hsized : RHSSpec.arrays_sized Example.two_panels).
  { unfold RHSSpec.arrays_sized. simpl. repeat constructor. }
  assert (Hsmall : (Z.of_nat (istart Example.two_panels
             + length (bc Example.two_panels) * np Example.two_panels)
           < 4294967296)%Z) by reflexivity.
  split; [exact Hk|]. split; [exact Hsized|]. split; [exact Hsmall|].
  exact (get_num_rows_is_rhs_length Example.two_panels Hk Hsized Hsmall).
Defined.
End RHSWitnesses.

(** ** Simulation: the step and the polling cycle *)

Section StepperMore.
Context {S : Type} `{Scalar S} {Collection : Type}.
Variable zero_vels : Collection -> Collection.
Variable influence : Collection -> Collection -> Collection.
Variable finalize_vels : V3 S -> Collection -> Collection.
Variable move : S -> Collection -> Collection.

Lemma same_shape_alter_vort (m m' : Simulation.Simulation S Collection)
    (f : Collection -> Collection) (i : nat) :
  same_shape m m' ->
  same_shape m (Simulation.set_vort (alter f i (Simulation.vort m')) m').
Proof.
  unfold same_shape. cbn. rewrite length_alter. intros Hs. exact Hs.
Qed.

Lemma same_shape_alter_bdry (m m' : Simulation.Simulation S Collection)
    (f : Collection -> Collection) (i : nat) :
  same_shape m m' ->
  same_shape m (Simulation.set_bdry (alter f i (Simulation.bdry m')) m').
Proof.
  unfold same_shape. cbn. rewrite length_alter. intros Hs. exact Hs.
Qed.

Lemma same_shape_alter_fldpt (m m' : Simulation.Simulation S Collection)
    (f : Collection -> Collection) (i : nat) :
  same_shape m m' ->
  same_shape m (Simulation.set_fldpt (alter f i (Simulation.fldpt m')) m').
Proof.
  unfold same_shape. cbn. rewrite length_alter. intros Hs. exact Hs.
Qed.

(** X19: a step changes neither the parameters of the simulation (Reynolds
    number, time step, freestream, diffusion settings, initialisation flag)
    nor the number of vorticity, boundary and field-point collections. *)
Theorem step_keeps_shape (m : Simulation.Simulation S Collection) :
  same_shape m (Simulation.step zero_vels influence finalize_vels move m).
Proof.
  unfold Simulation.step.
  set (m4 := for_loop 0 _ _ (for_loop 0 _ _ (for_loop 0 _ _
               (for_loop 0 _ _ m)))).
  assert (Hc : same_shape m m4).
  { subst m4.
    repeat (apply for_loop_preserves;
            [intros; cbv beta;
             repeat first [ apply same_shape_alter_vort
                          | apply same_shape_alter_bdry
                          | apply same_shape_alter_fldpt
                          | apply for_loop_preserves; [intros; cbv beta|] ];
             assumption|]).
    repeat split. }
  destruct Hc as (H1 & H2 & H3 & H4 & H5 & H6 & H7 & H8).
  unfold same_shape. cbn. rewrite !length_map. repeat split; assumption.
Qed.

Lemma boundaries_alter (P : Collection -> Prop)
    (m : Simulation.Simulation S Collection) (f : Collection -> Collection)
    (i : nat) :
  (forall c, P c -> P (f c)) ->
  Forall P (Simulation.bdry m) ->
  Forall P (Simulation.bdry
              (Simulation.set_bdry (alter f i (Simulation.bdry m)) m)).
Proof.
  intros Hf HP. cbn. apply Forall_alter; [exact HP|].
  intros c _ Hc. apply Hf. exact Hc.
Qed.

(** X20: a step never calls [finalize_vels] on a boundary collection: any
    property of collections that [zero_vels], [influence] (on its target)
    and [move] preserve still holds of every boundary collection after the
    step, whatever [finalize_vels] does. *)
Theorem step_never_finalizes_boundaries (P : Collection -> Prop)
    (m : Simulation.Simulation S Collection) :
  (forall c, P c -> P (zero_vels c)) ->
  (forall src c, P c -> P (influence src c)) ->
  (forall h c, P c -> P (move h c)) ->
  Forall P (Simulation.bdry m) ->
  Forall P (Simulation.bdry
              (Simulation.step zero_vels influence finalize_vels move m)).
Proof.
  intros Hz Hi Hm HP. unfold Simulation.step.
  set (m4 := for_loop 0 _ _ (for_loop 0 _ _ (for_loop 0 _ _
               (for_loop 0 _ _ m)))).
  assert (Hvisit : forall srcs k c,
            P c -> P (Simulation.visit_from influence srcs k c)).
  { intros srcs k c Hc. unfold Simulation.visit_from.
    destruct (srcs !! k); [apply Hi|]; exact Hc. }
  assert (Hc : Forall P (Simulation.bdry m4)).
  { subst m4.
    repeat (apply (for_loop_preserves
                     (fun m => Forall P (Simulation.bdry m)));
            [intros; cbv beta;
             repeat first
               [ apply boundaries_alter; [first [exact Hz|apply Hvisit]|]
               | apply (for_loop_preserves
                          (fun m => Forall P (Simulation.bdry m)));
                 [intros; cbv beta|]
               | progress cbn [Simulation.bdry Simulation.set_vort
                               Simulation.set_fldpt] ];
             assumption|]).
    exact HP. }
  cbn. induction Hc as [|c l Hc0 Hl IH]; cbn; constructor;
    [apply Hm; exact Hc0|exact IH].
Qed.
End StepperMore.

Section StepperCycle.
Context {S : Type} `{Scalar S} {Collection : Type}.
Variable zero_vels : Collection -> Collection.
Variable influence : Collection -> Collection -> Collection.
Variable finalize_vels : V3 S -> Collection -> Collection.
Variable move : S -> Collection -> Collection.

(** X21: the order of work in a step with two vorticity collections and
    nothing else.  The first collection is zeroed, receives the influence
    of itself (as zeroed) and then of the second collection as the previous
    step left it, and is finalized; the second one is then zeroed and
    receives first the influence of the first collection as already
    finalized, then its own.  Only then are both moved and the time
    advanced. *)
Theorem step_two_vorticity_collections
    (m : Simulation.Simulation S Collection) (c1 c2 : Collection) :
  Simulation.vort m = [c1; c2] ->
  Simulation.bdry m = [] ->
  Simulation.fldpt m = [] ->
  let z1 := zero_vels c1 in
  let f1 := finalize_vels (Simulation.fs m)
              (influence c2 (influence z1 z1)) in
  let z2 := zero_vels c2 in
  let a2 := influence f1 z2 in
  let f2 := finalize_vels (Simulation.fs m) (influence a2 a2) in
  Simulation.step zero_vels influence finalize_vels move m
  = Simulation.set_time (Simulation.time m +! Simulation.dt m)
      (Simulation.set_vort
         [move (Simulation.dt m) f1; move (Simulation.dt m) f2] m).
Proof.
  destruct m as [re dt fs vort bdry fldpt diff time ini started finished fut].
  cbn [Simulation.vort Simulation.bdry Simulation.fldpt]. intros -> -> ->.
  reflexivity.
Qed.

(** X22: polling is idempotent: a second [test_for_new_results] right
    after a first one returns the same answer and leaves the simulation as
    the first one left it.  A poll never touches the collections, the time
    or the set of running tasks. *)
Theorem test_for_new_results_idempotent (w : Simulation.World S Collection) :
  let polled := Simulation.test_for_new_results w in
  Simulation.test_for_new_results (snd polled) = polled /\
  Simulation.running (snd polled) = Simulation.running w /\
  Simulation.launched (snd polled) = Simulation.launched w /\
  Simulation.time (Simulation.sim (snd polled))
  = Simulation.time (Simulation.sim w) /\
  Simulation.vort (Simulation.sim (snd polled))
  = Simulation.vort (Simulation.sim w) /\
  Simulation.bdry (Simulation.sim (snd polled))
  = Simulation.bdry (Simulation.sim w) /\
  Simulation.fldpt (Simulation.sim (snd polled))
  = Simulation.fldpt (Simulation.sim w).
Proof.
  destruct w as [m run cnt]. unfold Simulation.test_for_new_results.
  cbn [Simulation.sim Simulation.running Simulation.launched].
  destruct (Simulation.step_has_started m) eqn:Hs; cbn [negb].
  - destruct (Simulation.is_future_ready (Simulation.stepfuture m) _)
      eqn:Hr; cbn [fst snd Simulation.sim Simulation.running
                   Simulation.launched].
    + cbn. repeat split.
    + rewrite Hs. cbn [negb]. rewrite Hr. repeat split.
  - cbn [fst snd Simulation.sim]. rewrite Hs. repeat split.
Qed.

Lemma not_running_after (id : nat) (run : list nat) :
  existsb (Nat.eqb id) (filter (fun j => negb (Nat.eqb id j)) run) = false.
Proof.
  induction run as [|j run IH]; [reflexivity|].
  rewrite filter_cons. destruct (decide _) as [Hj|Hj]; [|exact IH].
  cbn [existsb]. rewrite IH.
  destruct (Nat.eqb id j); [contradiction Hj|reflexivity].
Qed.

Lemma filter_not_running (id : nat) (run : list nat) :
  existsb (Nat.eqb id) run = false ->
  filter (fun j => negb (Nat.eqb id j)) run = run.
Proof.
  induction run as [|j run IH]; [reflexivity|].
  cbn [existsb]. intros Hex. apply orb_false_iff in Hex as [Hj Hrun].
  rewrite filter_cons. destruct (decide _) as [_|Hn].
  - f_equal. apply IH. exact Hrun.
  - rewrite Hj in Hn. contradiction Hn. exact I.
Qed.
End StepperCycle.

Section StepperCycle2.
Context {S : Type} `{Scalar S} {Collection : Type}.
Variable zero_vels : Collection -> Collection.
Variable influence : Collection -> Collection -> Collection.
Variable finalize_vels : V3 S -> Collection -> Collection.
Variable move : S -> Collection -> Collection.

Lemma fresh_not_running (cnt : nat) (run : list nat) :
  Forall (fun j => j < cnt) run -> existsb (Nat.eqb cnt) run = false.
Proof.
  induction 1 as [|j run Hj _ IH]; [reflexivity|].
  cbn [existsb]. rewrite IH.
  destruct (Nat.eqb_spec cnt j); [lia|reflexivity].
Qed.

Lemma running_after_launch (id : nat) (run : list nat) :
  existsb (Nat.eqb id) (run ++ [id]) = true.
Proof.
  rewrite existsb_app. cbn [existsb]. rewrite Nat.eqb_refl.
  destruct (existsb (Nat.eqb id) run); reflexivity.
Qed.

(** X23: the polling cycle.  From a simulation with no step started, no
    future held and every running task older than the launch counter,
    [async_step] puts one task in flight; until that task has run, the
    poll answers false and changes nothing; once it has run, the poll
    answers true, and the simulation has taken exactly one step (time
    advanced by [dt] once), holds no future, is marked finished and not
    started, and has the same tasks running as at the beginning, so that
    the cycle can start again. *)
Theorem async_step_poll_cycle (w : Simulation.World S Collection) :
  Simulation.stepfuture (Simulation.sim w) = None ->
  Forall (fun j => j < Simulation.launched w) (Simulation.running w) ->
  let step := Simulation.step zero_vels influence finalize_vels move in
  let w1 := Simulation.async_step zero_vels influence finalize_vels move w in
  let w2 := Simulation.run_task zero_vels influence finalize_vels move
              (Simulation.launched w) w1 in
  let polled := Simulation.test_for_new_results w2 in
  Simulation.test_for_new_results w1 = (false, w1) /\
  Simulation.sim w2 = step (Simulation.sim w1) /\
  fst polled = true /\
  Simulation.time (Simulation.sim (snd polled))
  = Simulation.time (Simulation.sim w) +! Simulation.dt (Simulation.sim w) /\
  Simulation.step_has_started (Simulation.sim (snd polled)) = false /\
  Simulation.step_is_finished (Simulation.sim (snd polled)) = true /\
  Simulation.stepfuture (Simulation.sim (snd polled)) = None /\
  Simulation.running (snd polled) = Simulation.running w /\
  Forall (fun j => j < Simulation.launched (snd polled))
    (Simulation.running (snd polled)).
Proof.
  destruct w as [m run cnt].
  cbn [Simulation.sim Simulation.running Simulation.launched].
  intros Hfut Hrun. cbv zeta.
  pose proof (fresh_not_running cnt run Hrun) as Hfresh.
  unfold Simulation.async_step.
  cbn [Simulation.sim Simulation.running Simulation.launched
       Simulation.set_step_has_started Simulation.stepfuture].
  rewrite Hfut. cbn [Simulation.wait Simulation.sim Simulation.running
                     Simulation.launched].
  set (m1 := Simulation.set_stepfuture (Some cnt)
               (Simulation.set_step_has_started true m)).
  assert (Hpoll1 :
    Simulation.test_for_new_results
      (Simulation.mkWorld m1 (run ++ [cnt]) (Datatypes.S cnt))
    = (false, Simulation.mkWorld m1 (run ++ [cnt]) (Datatypes.S cnt))).
  { unfold Simulation.test_for_new_results, Simulation.is_future_ready,
      Simulation.is_running.
    cbn [Simulation.sim Simulation.running Simulation.step_has_started
         Simulation.stepfuture m1 Simulation.set_stepfuture
         Simulation.set_step_has_started negb].
    rewrite running_after_launch. reflexivity. }
  split; [exact Hpoll1|].
  unfold Simulation.run_task, Simulation.is_running.
  cbn [Simulation.running Simulation.sim Simulation.launched].
  rewrite running_after_launch.
  cbn [Simulation.sim].
  split; [reflexivity|].
  destruct (step_control zero_vels influence finalize_vels move m1)
    as (Hs & _ & Hf & Ht).
  cbv zeta in Hs, Hf, Ht.
  set (m2 := Simulation.step zero_vels influence finalize_vels move m1) in *.
  clearbody m2.
  assert (Hfilter : filter (fun j => negb (Nat.eqb cnt j)) (run ++ [cnt])
                    = run).
  { rewrite filter_app, filter_not_running by exact Hfresh.
    rewrite filter_cons. destruct (decide _) as [Hn|_].
    - rewrite Nat.eqb_refl in Hn. contradiction Hn.
    - rewrite filter_nil. apply app_nil_r. }
  rewrite Hfilter.
  unfold Simulation.test_for_new_results, Simulation.is_future_ready,
    Simulation.is_running.
  cbn [Simulation.sim Simulation.running Simulation.launched].
  rewrite Hs, Hf.
  cbn [m1 Simulation.step_has_started Simulation.stepfuture
       Simulation.set_stepfuture Simulation.set_step_has_started negb].
  rewrite Hfresh.
  cbn [negb fst snd Simulation.sim Simulation.running Simulation.launched
       Simulation.time Simulation.step_has_started
       Simulation.step_is_finished Simulation.stepfuture
       Simulation.set_stepfuture Simulation.set_step_has_started
       Simulation.set_step_is_finished].
  split; [reflexivity|]. split; [exact Ht|].
  split; [reflexivity|]. split; [reflexivity|]. split; [reflexivity|].
  split; [reflexivity|].
  eapply Forall_impl; [exact Hrun|]. cbv beta. intros j Hj. lia.
Qed.

(** X24: [reset] waits for a step that is still in flight and gives up the
    future, puts the time back to zero and clears the three flags.  It
    never clears the collections: without a pending step they, the
    parameters and the running tasks are exactly what they were.
    Resetting twice is the same as resetting once. *)
Theorem reset_clears_control_only (w : Simulation.World S Collection) :
  let reset := Simulation.reset zero_vels influence finalize_vels move in
  let m' := Simulation.sim (reset w) in
  (Simulation.stepfuture m' = None /\
   Simulation.time m' = lit_0 /\
   Simulation.sim_is_initialized m' = false /\
   Simulation.step_has_started m' = false /\
   Simulation.step_is_finished m' = false) /\
  (forall id, Simulation.stepfuture (Simulation.sim w) = Some id ->
     Simulation.is_running id (reset w) = false) /\
  (Simulation.is_future_ready (Simulation.stepfuture (Simulation.sim w)) w
   = true \/ Simulation.stepfuture (Simulation.sim w) = None ->
   Simulation.running (reset w) = Simulation.running w /\
   Simulation.vort m' = Simulation.vort (Simulation.sim w) /\
   Simulation.bdry m' = Simulation.bdry (Simulation.sim w) /\
   Simulation.fldpt m' = Simulation.fldpt (Simulation.sim w) /\
   same_shape (Simulation.set_sim_is_initialized false (Simulation.sim w))
     m') /\
  reset (reset w) = reset w.
Proof.
  destruct w as [m run cnt]. cbv zeta. unfold Simulation.reset.
  cbn [Simulation.sim Simulation.running Simulation.launched].
  destruct (Simulation.stepfuture m) as [id|] eqn:Hfut;
    cbn [has_value Simulation.wait].
  - unfold Simulation.run_task, Simulation.is_future_ready,
      Simulation.is_running.
    cbn [Simulation.running Simulation.sim Simulation.launched].
    destruct (existsb (Nat.eqb id) run) eqn:Hrun.
    + set (m2 := Simulation.step zero_vels influence finalize_vels move m).
      clearbody m2.
      cbn [Simulation.sim Simulation.running Simulation.launched
           Simulation.stepfuture Simulation.set_stepfuture
           Simulation.set_time Simulation.set_sim_is_initialized
           Simulation.set_step_has_started Simulation.set_step_is_finished
           has_value negb].
      split; [cbn; repeat split|]. split.
      { intros id' [= <-]. apply not_running_after. }
      split; [intros [Hr | Hn]; discriminate|reflexivity].
    + cbn [Simulation.sim Simulation.running Simulation.launched
           Simulation.stepfuture Simulation.set_stepfuture
           Simulation.set_time Simulation.set_sim_is_initialized
           Simulation.set_step_has_started Simulation.set_step_is_finished
           has_value negb].
      split; [cbn; repeat split|]. split.
      { intros id' [= <-]. exact Hrun. }
      split; [|reflexivity].
      intros _. cbn. repeat split.
  - split; [cbn; repeat split; exact Hfut|]. split; [intros id' [=]|].
    split.
    + intros _. cbn. repeat split.
    + cbn. rewrite Hfut. reflexivity.
Qed.
End StepperCycle2.

Section StepperWitnesses.
Local Open Scope R_scope.

(** X20 at a concrete input: collections that count their finalizations;
    both boundary collections still count zero after the step. *)
Lemma step_never_finalizes_boundaries_witness :
  (forall c : nat, c = 0%nat -> (fun c => c) c = 0%nat) /\
  (forall src c : nat, c = 0%nat -> (fun _ c => c) src c = 0%nat) /\
  (forall (h : R) (c : nat), c = 0%nat -> (fun _ c => c) h c = 0%nat) /\
  Forall (fun c => c = 0%nat) (Simulation.bdry Example.counting_simulation) /\
  Forall (fun c => c = 0%nat)
    (Simulation.bdry
       (Simulation.step (fun c => c) (fun _ c => c)
          (fun _ c => Datatypes.S c) (fun _ c => c)
          Example.counting_simulation)).
Proof.
  assert (Hz : forall c : nat, c = 0%nat -> (fun c => c) c = 0%nat)
    by (intros c Hc; exact Hc).
  assert (Hi : forall src c : nat,
            c = 0%nat -> (fun _ c => c) src c = 0%nat)
    by (intros src c Hc; exact Hc).
  assert (Hm : forall (h : R) (c : nat),
            c = 0%nat -> (fun _ c => c) h c = 0%nat)
    by (intros h c Hc; exact Hc).
  assert (HP : Forall (fun c => c = 0%nat)
                 (Simulation.bdry Example.counting_simulation))
    by (repeat constructor).
  split; [exact Hz|]. split; [exact Hi|]. split; [exact Hm|].
  split; [exact HP|].
  exact (step_never_finalizes_boundaries (fun c => c) (fun _ c => c)
           (fun _ c => Datatypes.S c) (fun _ c => c)
           (fun c => c = 0%nat) Example.counting_simulation Hz Hi Hm HP).
Defined.

(** X21 at a concrete input: two counting collections. *)
Lemma step_two_vorticity_collections_witness :
  Simulation.vort Example.two_swarms = [0; 0]%nat /\
  Simulation.bdry Example.two_swarms = [] /\
  Simulation.fldpt Example.two_swarms = [] /\
  Simulation.vort
    (Simulation.step (fun c => c) (fun _ c => c)
       (fun _ c => Datatypes.S c) (fun _ c => c) Example.two_swarms)
  = [1; 1]%nat.
Proof.
  assert (Hv : Simulation.vort Example.two_swarms = [0; 0]%nat)
    by reflexivity.
  assert (Hb : Simulation.bdry Example.two_swarms = []) by reflexivity.
  assert (Hf : Simulation.fldpt Example.two_swarms = []) by reflexivity.
  split; [exact Hv|]. split; [exact Hb|]. split; [exact Hf|].
  rewrite (step_two_vorticity_collections (fun c => c) (fun _ c => c)
             (fun _ c => Datatypes.S c) (fun _ c => c)
             Example.two_swarms 0%nat 0%nat Hv Hb Hf).
  reflexivity.
Defined.

(** X23 at a concrete input: the fresh world, with nothing running. *)
Lemma async_step_poll_cycle_witness :
  Simulation.stepfuture (Simulation.sim Example.fresh_world) = None /\
  Forall (fun j => (j < Simulation.launched Example.fresh_world)%nat)
    (Simulation.running Example.fresh_world) /\
  fst (Simulation.test_for_new_results
         (Simulation.run_task (fun c => c) (fun _ c => c)
            (fun _ c => Datatypes.S c) (fun _ c => c)
            (Simulation.launched Example.fresh_world)
            (Simulation.async_step (fun c => c) (fun _ c => c)
               (fun _ c => Datatypes.S c) (fun _ c => c)
               Example.fresh_world))) = true.
Proof.
  assert (Hfut : Simulation.stepfuture (Simulation.sim Example.fresh_world)
                 = None) by reflexivity.
  assert (Hrun : Forall
            (fun j => (j < Simulation.launched Example.fresh_world)%nat)
            (Simulation.running Example.fresh_world)) by constructor.
  split; [exact Hfut|]. split; [exact Hrun|].
  exact (proj1 (proj2 (proj2
           (async_step_poll_cycle (fun c => c) (fun _ c => c)
              (fun _ c => Datatypes.S c) (fun _ c => c)
              Example.fresh_world Hfut Hrun)))).
Defined.

(** X24 at a concrete input: the fresh world holds no future. *)
Lemma reset_clears_control_only_witness :
  (Simulation.is_future_ready
     (Simulation.stepfuture (Simulation.sim Example.fresh_world))
     Example.fresh_world = true \/
   Simulation.stepfuture (Simulation.sim Example.fresh_world) = None) /\
  Simulation.vort
    (Simulation.sim
       (Simulation.reset (fun c => c) (fun _ c => c)
          (fun _ c => Datatypes.S c) (fun _ c => c) Example.fresh_world))
  = Simulation.vort (Simulation.sim Example.fresh_world).
Proof.
  assert (Hq : Simulation.is_future_ready
                 (Simulation.stepfuture (Simulation.sim Example.fresh_world))
                 Example.fresh_world = true \/
               Simulation.stepfuture (Simulation.sim Example.fresh_world)
               = None) by (right; reflexivity).
  split; [exact Hq|].
  exact (proj1 (proj2 (proj1 (proj2 (proj2
           (reset_clears_control_only (fun c => c) (fun _ c => c)
              (fun _ c => Datatypes.S c) (fun _ c => c)
              Example.fresh_world))) Hq))).
Defined.
End StepperWitnesses.

(** ** Surfaces: construction of well-formed input *)

Section CtorAccepts.
Context {S : Type} `{Scalar S}.

Lemma index_check_passes (nnodes : nat) (_idx : list nat) (m : nat) :
  (forall i, i < m -> nth i _idx 0 < nnodes) ->
  for_loop 0 m (fun i good =>
    if nnodes <=? nth i _idx 0 then false else good) true = true.
Proof.
  intros Hgood.
  apply (for_loop_invariant (fun _ g => g = true)); [lia|reflexivity|].
  intros i a Hi ->. destruct (Nat.leb_spec nnodes (nth i _idx 0));
    [specialize (Hgood i ltac:(lia)); lia|reflexivity].
Qed.

Lemma index_copy (_idx : list nat) (l0 : list nat) :
  for_loop 0 (length _idx) (fun i ix => <[i := nth i _idx 0]> ix)
    (resize (length _idx) 0 l0) = _idx.
Proof.
  destruct (for_loop_write_range 0 (fun i _ => nth i _idx 0) 0
              (length _idx) (resize (length _idx) 0 l0)) as [Hl Hn];
    [rewrite length_resize; lia|].
  cbv zeta in *. apply (nth_ext _ _ 0 0).
  - rewrite Hl. apply length_resize.
  - intros j Hj. rewrite Hl, length_resize in Hj. rewrite Hn.
    replace (j <? length _idx) with true
      by (symmetry; apply Nat.ltb_lt; lia).
    reflexivity.
Qed.

(** The constructor on a well-formed input, up to its last statement. *)
Lemma ctor_reaches_center (_x : list S) (_idx : list nat)
    (_val : list S) (_e : elem_t) (_m : move_t) (_bp : option (Body S))
    (junk : Indeterminate S) :
  let nsurfs := length _idx / 3 in
  let nnodes := length _x / 3 in
  length _idx mod 3 = 0 ->
  0 < nsurfs ->
  (Z.of_nat (length _idx) < 4294967296)%Z ->
  length _x mod 3 = 0 ->
  (forall i, i < length _idx -> nth i _idx 0 < nnodes) ->
  match _e with
  | active => length _val = 2 * nsurfs
  | reactive => length _val mod nsurfs = 0 /\
                0 < length _val / nsurfs < 4
  | inert => length _val mod nsurfs = 0
  end ->
  exists t,
    Surfaces.ctor _x _idx _val _e _m _bp junk
    = match _m with
      | bodybound => Surfaces.set_geom_center t
      | _ => Ok t
      end /\
    has_value (ux (base t)) = has_value _bp /\
    np t = nsurfs /\ n (base t) = nnodes /\ idx t = _idx /\
    E (base t) = _e /\ M (base t) = _m /\ B (base t) = _bp /\
    (forall d i, d < 3 -> i < nnodes ->
       rd (v3_get d (x (base t))) i = rd _x (3 * i + d)) /\
    PanelFrame.frames_length nsurfs t /\
    (forall i, i < nsurfs ->
       PanelFrame.stored_frame t i
       = PanelFrame.loop_frame (x (base t)) (idx t) i).
Proof.
  intros nsurfs nnodes Hidx3 Hpos Hsmall Hx3 Hgood Hval.
  assert (Hlen : 3 * nsurfs = length _idx).
  { pose proof (Nat.div_mod_eq (length _idx) 3). subst nsurfs. lia. }
  assert (Hvalmod : length _val mod nsurfs = 0).
  { destruct _e; [|tauto|exact Hval].
    rewrite Hval. apply Nat.Div0.mod_mul. }
  assert (Hns : to_Int nsurfs = nsurfs) by (apply to_Int_small; lia).
  unfold Surfaces.ctor. change Dimensions with 3.
  fold nsurfs nnodes.
  rewrite Hidx3, Hx3, Hvalmod. cbn [Nat.eqb assert mbind result_bind].
  destruct (Nat.eqb_spec nsurfs 0) as [|_]; [lia|].
  rewrite Hlen.
  cbn [x base set_base set_x ElementBase_new empty3].
  set (X3 := (for_loop 0 nnodes _ _, for_loop 0 nnodes _ _,
              for_loop 0 nnodes _ _)).
  match goal with
  | |- context [resize (length _idx) 0 (idx ?T)] => set (t1 := T)
  end.
  assert (Hidx1 : idx t1 = []) by (subst t1; destruct _bp; reflexivity).
  assert (Hb1 : b t1 = (empty3, empty3, empty3))
    by (subst t1; destruct _bp; reflexivity).
  assert (HE1 : E (base t1) = _e) by (subst t1; destruct _bp; reflexivity).
  assert (HM1 : M (base t1) = _m) by (subst t1; destruct _bp; reflexivity).
  assert (HB1 : B (base t1) = _bp) by (subst t1; destruct _bp; reflexivity).
  assert (Hx1 : x (base t1) = X3) by (subst t1; destruct _bp; reflexivity).
  assert (Hux1 : has_value (ux (base t1)) = has_value _bp)
    by (subst t1; destruct _bp; reflexivity).
  rewrite Hidx1.
  rewrite (for_loop_pair 0 (length _idx)
             (fun i good => if nnodes <=? nth i _idx 0 then false else good)
             (fun i ix => <[i := nth i _idx 0]> ix)).
  rewrite index_check_passes, index_copy by exact Hgood.
  cbn [assert mbind result_bind].
  set (t2 := set_idx _idx t1).
  destruct (compute_bases_ok (to_Int nsurfs) t2) as [t3 Hrun3].
  { rewrite Hns. rewrite to_Int_small by lia. subst t2. cbn [idx set_idx].
    lia. }
  rewrite Hrun3. cbn [mbind result_bind].
  apply compute_bases_spec in Hrun3 as (_ & Heta3 & Hfl3 & Hnew3 & _).
  cbv zeta in Hnew3. rewrite Hns in Hfl3, Hnew3.
  assert (Hnorig : to_Int (length (v3_get 0 (v3_get 0 (b t2)))) = 0).
  { subst t2. cbn [b set_idx]. rewrite Hb1. reflexivity. }
  rewrite Hnorig in Hnew3.
  assert (Hbase3 : base t3 = base t1) by (rewrite Heta3; reflexivity).
  assert (Hidx3' : idx t3 = _idx) by (rewrite Heta3; reflexivity).
  match goal with
  | |- exists t, mbind ?K ?M = _ /\ _ =>
      assert (Hstage : exists t5,
                M = Ok t5 /\ base t5 = base t3 /\ idx t5 = idx t3 /\
                b t5 = b t3 /\ area t5 = area t3)
  end.
  { replace (E (base t3)) with _e by (rewrite Hbase3; symmetry; exact HE1).
    destruct _e.
    - rewrite Hval, Nat.eqb_refl. cbn [assert mbind result_bind].
      match goal with
      | |- context [Surfaces.vortex_sheet_to_panel_strength nsurfs ?T] =>
          destruct (vortex_sheet_to_panel_strength_ok nsurfs T)
            as [t5 Hrun5]
      end.
      + cbn [vs set_vs fst].
        apply (resized_write_range (fun i => rd _val (2 * i + 0)) 0 nsurfs).
      + cbn [b set_vs]. apply Hfl3.
      + exists t5. split; [exact Hrun5|].
        apply vortex_sheet_to_panel_strength_spec in Hrun5
          as (_ & _ & Heta5 & _).
        rewrite Heta5. repeat split.
    - destruct Hval as [_ Hnper].
      replace ((0 <? length _val / nsurfs) && (length _val / nsurfs <? 4))
        with true.
      2:{ symmetry. apply andb_true_iff. split; apply Nat.ltb_lt; lia. }
      cbn [assert mbind result_bind].
      match goal with
      | |- context [Surfaces.vortex_sheet_to_panel_strength nsurfs ?T] =>
          destruct (vortex_sheet_to_panel_strength_ok nsurfs T)
            as [t5 Hrun5]
      end.
      + cbn [vs set_vs fst]. apply length_replicate.
      + cbn [b set_vs set_bc]. apply Hfl3.
      + exists t5. split; [exact Hrun5|].
        apply vortex_sheet_to_panel_strength_spec in Hrun5
          as (_ & _ & Heta5 & _).
        rewrite Heta5. repeat split.
    - exists t3. repeat split. }
  destruct Hstage as (t5 & -> & Hbase5 & Hidx5 & Hb5 & Harea5).
  cbn [mbind result_bind].
  cbn [M B ux base set_np set_base set_n set_pu set_u pu].
  rewrite Hbase5, Hbase3, HM1.
  assert (Hframes : forall t : Surfaces S,
            b t = b t5 -> area t = area t5 ->
            PanelFrame.frames_length nsurfs t /\
            (forall i, i < nsurfs ->
               PanelFrame.stored_frame t i
               = PanelFrame.loop_frame X3 _idx i)).
  { intros t Hb Ha. split.
    - unfold PanelFrame.frames_length. rewrite Hb, Ha, Hb5, Harea5.
      exact Hfl3.
    - intros i Hi'. unfold PanelFrame.stored_frame.
      rewrite Hb, Ha, Hb5, Harea5, <- Hx1.
      exact (Hnew3 i (conj (Nat.le_0_l i) Hi')). }
  assert (Hnodes : forall d i, d < 3 -> i < nnodes ->
            rd (v3_get d X3) i = rd _x (3 * i + d)).
  { intros d i Hd Hi. subst X3. unfold rd at 1.
    destruct d as [|[|[|d]]]; [| | |lia]; cbn [v3_get].
    - exact (proj1 (proj2 (resized_write_range
               (fun i => rd _x (3 * i + 0)) 0 nnodes []))
               i (conj (Nat.le_0_l i) Hi)).
    - exact (proj1 (proj2 (resized_write_range
               (fun i => rd _x (3 * i + 1)) 0 nnodes []))
               i (conj (Nat.le_0_l i) Hi)).
    - exact (proj1 (proj2 (resized_write_range
               (fun i => rd _x (3 * i + 2)) 0 nnodes []))
               i (conj (Nat.le_0_l i) Hi)). }
  match goal with
  | |- exists t, match _ with
                 | bodybound => Surfaces.set_geom_center ?T
                 | _ => _
                 end = _ /\ _ => exists T
  end.
  split; [destruct _m; reflexivity|].
  cbn [np n idx E M B x ux base set_np set_base set_n set_pu set_u].
  rewrite ?Hidx5, ?Hidx3', ?Hbase5, ?Hbase3, ?HE1, ?HM1, ?HB1, ?Hx1, ?Hux1.
  repeat (split; [reflexivity|]). split; [exact Hnodes|].
  apply Hframes; reflexivity.
Qed.

(** X25: the constructor accepts every well-formed input with at least
    one panel: index and position arrays in triples, every index below the
    node count, a value array that fits the element type (two strengths per
    panel for active, one to three boundary conditions per panel for
    reactive, any multiple of the panel count for inert), and a body when
    the collection is body-bound.  The collection it returns has the panel
    and node counts of the input, the index table and the tags as given,
    node [i] at [(_x[3i], _x[3i+1], _x[3i+2])], and for every panel the
    frame and area that the basis loop computes from its nodes. *)
Theorem ctor_accepts_well_formed_input (_x : list S) (_idx : list nat)
    (_val : list S) (_e : elem_t) (_m : move_t) (_bp : option (Body S))
    (junk : Indeterminate S) :
  let nsurfs := length _idx / 3 in
  let nnodes := length _x / 3 in
  length _idx mod 3 = 0 ->
  0 < nsurfs ->
  (Z.of_nat (length _idx) < 4294967296)%Z ->
  length _x mod 3 = 0 ->
  (forall i, i < length _idx -> nth i _idx 0 < nnodes) ->
  match _e with
  | active => length _val = 2 * nsurfs
  | reactive => length _val mod nsurfs = 0 /\
                0 < length _val / nsurfs < 4
  | inert => length _val mod nsurfs = 0
  end ->
  (_m = bodybound -> _bp <> None) ->
  exists t,
    Surfaces.ctor _x _idx _val _e _m _bp junk = Ok t /\
    np t = nsurfs /\ n (base t) = nnodes /\ idx t = _idx /\
    E (base t) = _e /\ M (base t) = _m /\ B (base t) = _bp /\
    (forall d i, d < 3 -> i < nnodes ->
       rd (v3_get d (x (base t))) i = rd _x (3 * i + d)) /\
    PanelFrame.frames_length nsurfs t /\
    (forall i, i < nsurfs ->
       PanelFrame.stored_frame t i
       = PanelFrame.loop_frame (x (base t)) (idx t) i).
Proof.
  intros nsurfs nnodes Hidx3 Hpos Hsmall Hx3 Hgood Hval Hbody.
  destruct (ctor_reaches_center _x _idx _val _e _m _bp junk
              Hidx3 Hpos Hsmall Hx3 Hgood Hval)
    as (t & Hrun & Hux & Hnp & Hn & Hidx & HE & HM & HB & Hnodes & Hfl
        & Hfr).
  rewrite Hrun. destruct _m.
  - exists t. split; [reflexivity|].
    do 8 (split; [assumption|]). assumption.
  - unfold Surfaces.set_geom_center, Surfaces.get_npanels.
    rewrite HB, Hux.
    destruct _bp as [body|]; [|exfalso; apply Hbody; reflexivity].
    cbn [has_value assert mbind result_bind].
    destruct (default empty3 (ux (base t))) as [[ux0 ux1] ux2].
    match goal with
    | |- context [for_loop 0 ?k ?f (lit_0, lit_0, lit_0, lit_0)] =>
        destruct (for_loop 0 k f (lit_0, lit_0, lit_0, lit_0))
          as [[[vsum xsum] ysum] zsum]
    end.
    eexists. split; [reflexivity|].
    cbn [np n idx E M B x base set_utc set_vol].
    do 7 (split; [assumption|]). split; [exact Hfl|exact Hfr].
  - exists t. split; [reflexivity|].
    do 8 (split; [assumption|]). assumption.
Qed.

(** X26: a well-formed input for a body-bound collection without a body is
    still rejected, not for its shape: the constructor gets as far as the
    geometric center and stops there on the missing body. *)
Theorem ctor_bodybound_needs_body (_x : list S) (_idx : list nat)
    (_val : list S) (_e : elem_t) (junk : Indeterminate S) :
  let nsurfs := length _idx / 3 in
  let nnodes := length _x / 3 in
  length _idx mod 3 = 0 ->
  0 < nsurfs ->
  (Z.of_nat (length _idx) < 4294967296)%Z ->
  length _x mod 3 = 0 ->
  (forall i, i < length _idx -> nth i _idx 0 < nnodes) ->
  match _e with
  | active => length _val = 2 * nsurfs
  | reactive => length _val mod nsurfs = 0 /\
                0 < length _val / nsurfs < 4
  | inert => length _val mod nsurfs = 0
  end ->
  Surfaces.ctor _x _idx _val _e bodybound None junk
  = AssertFail "Body pointer has not been set" /\
  ~ In "Body pointer has not been set"%string shape_errors.
Proof.
  intros nsurfs nnodes Hidx3 Hpos Hsmall Hx3 Hgood Hval.
  destruct (ctor_reaches_center _x _idx _val _e bodybound None junk
              Hidx3 Hpos Hsmall Hx3 Hgood Hval)
    as (t & Hrun & _ & _ & _ & _ & _ & _ & HB & _).
  split.
  - rewrite Hrun. unfold Surfaces.set_geom_center. rewrite HB. reflexivity.
  - unfold shape_errors. cbn [In]. intros [Hs | [Hs | [Hs | [Hs | []]]]];
      discriminate Hs.
Qed.
End CtorAccepts.

Section CtorWitnesses.
Local Open Scope R_scope.

Lemma tri_idx_in_range :
  forall i, (i < length Example.tri_idx)%nat ->
    (nth i Example.tri_idx 0 < length Example.tri_x / 3)%nat.
Proof.
  intros i Hi. destruct i as [|[|[|i]]]; cbn in *; lia.
Qed.

(** X25 at a concrete input: the triangle on the wing, with one boundary
    condition. *)
Lemma ctor_accepts_well_formed_input_witness :
  (length Example.tri_idx mod 3 = 0 /\
   0 < length Example.tri_idx / 3 /\
   length Example.tri_x mod 3 = 0 /\
   (length Example.one_value mod (length Example.tri_idx / 3) = 0 /\
    0 < length Example.one_value / (length Example.tri_idx / 3) < 4))%nat /\
  (Z.of_nat (length Example.tri_idx) < 4294967296)%Z /\
  (forall i, (i < length Example.tri_idx)%nat ->
     (nth i Example.tri_idx 0 < length Example.tri_x / 3)%nat) /\
  exists t,
    Surfaces.ctor Example.tri_x Example.tri_idx Example.one_value reactive
      bodybound (Some Example.wing) Example.junk0 = Ok t /\
    np t = 1%nat /\ n (base t) = 3%nat /\ idx t = Example.tri_idx.
Proof.
  assert (H1 : (length Example.tri_idx mod 3 = 0)%nat) by reflexivity.
  assert (H2 : (0 < length Example.tri_idx / 3)%nat) by (cbn; lia).
  assert (H3 : (Z.of_nat (length Example.tri_idx) < 4294967296)%Z)
    by reflexivity.
  assert (H4 : (length Example.tri_x mod 3 = 0)%nat) by reflexivity.
  assert (H5 : (length Example.one_value mod (length Example.tri_idx / 3)
                = 0 /\
                0 < length Example.one_value / (length Example.tri_idx / 3)
                < 4)%nat) by (cbn; lia).
  assert (H6 : bodybound = bodybound -> Some Example.wing <> None)
    by (intros _; discriminate).
  split; [repeat split; first [assumption | apply H5]|].
  split; [exact H3|]. split; [exact tri_idx_in_range|].
  destruct (ctor_accepts_well_formed_input Example.tri_x Example.tri_idx
              Example.one_value reactive bodybound (Some Example.wing)
              Example.junk0 H1 H2 H3 H4 tri_idx_in_range H5 H6)
    as (t & Hrun & Hnp & Hn & Hidx & _).
  exists t. repeat split; assumption.
Defined.

(** X26 at a concrete input: the same triangle, bound to no body. *)
Lemma ctor_bodybound_needs_body_witness :
  (length Example.tri_idx mod 3 = 0 /\
   0 < length Example.tri_idx / 3 /\
   length Example.tri_x mod 3 = 0 /\
   (length Example.one_value mod (length Example.tri_idx / 3) = 0 /\
    0 < length Example.one_value / (length Example.tri_idx / 3) < 4))%nat /\
  (Z.of_nat (length Example.tri_idx) < 4294967296)%Z /\
  (forall i, (i < length Example.tri_idx)%nat ->
     (nth i Example.tri_idx 0 < length Example.tri_x / 3)%nat) /\
  Surfaces.ctor Example.tri_x Example.tri_idx Example.one_value reactive
    bodybound None Example.junk0
  = AssertFail "Body pointer has not been set".
Proof.
  assert (H1 : (length Example.tri_idx mod 3 = 0)%nat) by reflexivity.
  assert (H2 : (0 < length Example.tri_idx / 3)%nat) by (cbn; lia).
  assert (H3 : (Z.of_nat (length Example.tri_idx) < 4294967296)%Z)
    by reflexivity.
  assert (H4 : (length Example.tri_x mod 3 = 0)%nat) by reflexivity.
  assert (H5 : (length Example.one_value mod (length Example.tri_idx / 3)
                = 0 /\
                0 < length Example.one_value / (length Example.tri_idx / 3)
                < 4)%nat) by (cbn; lia).
  split; [repeat split; first [assumption | apply H5]|].
  split; [exact H3|]. split; [exact tri_idx_in_range|].
  exact (proj1 (ctor_bodybound_needs_body Example.tri_x Example.tri_idx
                  Example.one_value reactive Example.junk0
                  H1 H2 H3 H4 tri_idx_in_range H5)).
Defined.
End CtorWitnesses.

(** ** Surfaces: adding panels *)

Section OffsetLoops.
Context {A : Type}.

(** A loop that appends: after a resize to [off + m], pass [i] writes
    [F i] at [off + i]. *)
Lemma resized_write_offset (d : A) (F : nat -> A) (off m : nat)
    (l : list A) :
  let l' := for_loop 0 m (fun i v => <[off + i := F i]> v)
              (resize (off + m) d l) in
  length l' = off + m /\
  (forall i, i < m -> nth (off + i) l' d = F i) /\
  (forall j, j < off -> nth j l' d = nth j l d).
Proof.
  cbv zeta.
  apply (for_loop_invariant
    (fun k v => length v = off + m /\
       (forall i, i < k -> nth (off + i) v d = F i) /\
       (forall j, j < off -> nth j v d = nth j l d))); [lia| |].
  - split; [apply length_resize|]. split; [intros i Hi; lia|].
    intros j Hj. apply nth_resize_lt. lia.
  - intros k v Hk (Hl & Hnew & Hold).
    split; [rewrite length_insert; exact Hl|]. split.
    + intros i Hi. destruct (decide (i = k)) as [->|Hne].
      * apply nth_insert_eq. lia.
      * rewrite nth_insert_ne by lia. apply Hnew. lia.
    + intros j Hj. rewrite nth_insert_ne by lia. apply Hold. exact Hj.
Qed.
End OffsetLoops.

Section AddNew.
Context {S : Type} `{Scalar S}.

Lemma index_check_true (bound : nat) (_idx : list nat) (m : nat) :
  for_loop 0 m (fun i good =>
    if bound <=? nth i _idx 0 then false else good) true = true ->
  forall i, i < m -> nth i _idx 0 < bound.
Proof.
  apply (for_loop_invariant
    (fun k g => g = true -> forall i, i < k -> nth i _idx 0 < bound));
    [lia|intros _ i Hi; lia|].
  intros k g Hk IH Hg i Hi.
  destruct (Nat.leb_spec bound (nth k _idx 0)) as [|Hlt]; [discriminate|].
  destruct (decide (i = k)) as [->|Hne]; [exact Hlt|].
  apply IH; [exact Hg|lia].
Qed.

Lemma set_geom_center_frame (t t' : Surfaces S) :
  Surfaces.set_geom_center t = Ok t' ->
  t' = set_utc (utc t') (set_vol (vol t') t).
Proof.
  unfold Surfaces.set_geom_center.
  destruct (has_value (B (base t))); [|discriminate].
  cbn [assert mbind result_bind].
  destruct (has_value (ux (base t))); [|discriminate].
  cbn [assert mbind result_bind].
  destruct (default empty3 (ux (base t))) as [[ux0 ux1] ux2].
  destruct (for_loop _ _ _ _) as [[[vsum xsum] ysum] zsum].
  intros [= <-]. destruct t; reflexivity.
Qed.
End AddNew.

Section AddNewTheorem.
Context {S : Type} `{Scalar S}.

(** X27: what a successful [add_new] with at least one new panel has done
    to a collection whose basis arrays hold one entry per panel.  The
    counts grow by the numbers of new panels and nodes.  Old nodes, old
    index entries and the frames and areas of the old panels are kept; the
    new nodes are the input positions; the new panels get the frame that
    the basis loop computes from their nodes.  Every new index was checked
    against the new total node count, and is stored with the old node count
    added to it. *)
Theorem add_new_appends (_x : list S) (_idx : list nat) (_val : list S)
    (t t' : Surfaces S) :
  let nsurfs := length _idx / 3 in
  let nnodes := length _x / 3 in
  Surfaces.add_new _x _idx _val t = Ok t' ->
  0 < length _idx ->
  PanelFrame.frames_length (np t) t ->
  (Z.of_nat (np t + nsurfs) < 4294967296)%Z ->
  (np t' = np t + nsurfs /\ n (base t') = n (base t) + nnodes) /\
  (forall i, i < length _idx ->
     nth i _idx 0 < n (base t) + nnodes /\
     nth (3 * np t + i) (idx t') 0 = to_Int (n (base t) + nth i _idx 0)) /\
  (forall j, j < 3 * np t -> nth j (idx t') 0 = nth j (idx t) 0) /\
  (forall d, d < 3 ->
     (forall i, i < nnodes ->
        rd (v3_get d (x (base t'))) (n (base t) + i) = rd _x (3 * i + d)) /\
     (forall j, j < n (base t) ->
        rd (v3_get d (x (base t'))) j = rd (v3_get d (x (base t))) j)) /\
  (forall i, i < np t ->
     PanelFrame.stored_frame t' i = PanelFrame.stored_frame t i) /\
  (forall i, np t <= i < np t + nsurfs ->
     PanelFrame.stored_frame t' i
     = PanelFrame.loop_frame (x (base t')) (idx t') i).
Proof.
  intros nsurfs nnodes Hrun Hne Hfl Hsmall.
  unfold Surfaces.add_new, Surfaces.get_npanels in Hrun.
  change Dimensions with 3 in Hrun. fold nsurfs nnodes in Hrun.
  destruct (Nat.eqb_spec (length _idx mod 3) 0) as [Hidx3|]; [|discriminate].
  cbn [assert mbind result_bind] in Hrun.
  assert (Hlen : 3 * nsurfs = length _idx).
  { pose proof (Nat.div_mod_eq (length _idx) 3). subst nsurfs. lia. }
  destruct (Nat.eqb_spec nsurfs 0) as [|_]; [lia|].
  destruct (Nat.eqb_spec (length _val mod nsurfs) 0) as [Hvalmod|];
    [|discriminate].
  cbn [assert mbind result_bind] in Hrun.
  destruct (Nat.eqb_spec (length _x mod 3) 0) as [Hx3|]; [|discriminate].
  cbn [assert mbind result_bind] in Hrun.
  rewrite Hlen in Hrun.
  destruct (x (base t)) as [[x0 x1] x2] eqn:Hxt.
  cbn [x base set_base set_x B] in Hrun.
  set (X3 := (for_loop 0 nnodes _ _, for_loop 0 nnodes _ _,
              for_loop 0 nnodes _ _)) in Hrun.
  match type of Hrun with
  | context [resize (3 * np t + length _idx) 0 (idx ?T)] => set (t1 := T) in *
  end.
  assert (Hidx1 : idx t1 = idx t)
    by (subst t1; destruct (B (base t)); reflexivity).
  assert (Hb1 : b t1 = b t)
    by (subst t1; destruct (B (base t)); reflexivity).
  assert (Harea1 : area t1 = area t)
    by (subst t1; destruct (B (base t)); reflexivity).
  assert (Hn1 : n (base t1) = n (base t))
    by (subst t1; destruct (B (base t)); reflexivity).
  assert (Hnp1 : np t1 = np t)
    by (subst t1; destruct (B (base t)); reflexivity).
  assert (Hx1 : x (base t1) = X3)
    by (subst t1; destruct (B (base t)); reflexivity).
  rewrite Hidx1 in Hrun.
  rewrite (for_loop_pair 0 (length _idx)
             (fun i good =>
                if n (base t) + nnodes <=? nth i _idx 0 then false else good)
             (fun i ix =>
                <[3 * np t + i := to_Int (n (base t) + nth i _idx 0)]> ix))
    in Hrun.
  destruct (for_loop 0 (length _idx)
              (fun i good =>
                 if n (base t) + nnodes <=? nth i _idx 0 then false
                 else good) true) eqn:Hgood; [|discriminate].
  cbn [assert mbind result_bind] in Hrun.
  pose proof (index_check_true _ _ _ Hgood) as Hchecked.
  set (idx1 := for_loop 0 (length _idx) _ _) in Hrun.
  destruct (resized_write_offset 0
              (fun i => to_Int (n (base t) + nth i _idx 0))
              (3 * np t) (length _idx) (idx t)) as (_ & Hinew & Hiold).
  fold idx1 in Hinew, Hiold.
  set (t2 := set_idx idx1 t1) in Hrun.
  destruct (Surfaces.compute_bases (to_Int (np t + nsurfs)) t2)
    as [t3|] eqn:Hrun3; [|discriminate].
  cbn [mbind result_bind] in Hrun.
  apply compute_bases_spec in Hrun3 as (_ & Heta3 & Hfl3 & Hnew3 & Hold3).
  cbv zeta in Hnew3, Hold3.
  assert (Hnn : to_Int (np t + nsurfs) = np t + nsurfs)
    by (apply to_Int_small; exact Hsmall).
  assert (Hnorig : to_Int (length (v3_get 0 (v3_get 0 (b t2)))) = np t).
  { subst t2. cbn [b set_idx]. rewrite Hb1, (proj1 Hfl 0 0).
    apply to_Int_small. lia. }
  rewrite Hnn in Hfl3, Hnew3, Hold3. rewrite Hnorig in Hnew3, Hold3.
  assert (Hbase3 : base t3 = base t1) by (rewrite Heta3; reflexivity).
  assert (Hidx3' : idx t3 = idx1) by (rewrite Heta3; reflexivity).
  assert (Hnp3 : np t3 = np t) by (rewrite Heta3; exact Hnp1).
  match type of Hrun with
  | mbind ?K ?M = _ =>
      assert (Hstage : exists t5,
                M = Ok t5 /\ base t5 = base t3 /\ idx t5 = idx t3 /\
                b t5 = b t3 /\ area t5 = area t3 /\ np t5 = np t3)
  end.
  { destruct (E (base t3)).
    - destruct (length _val =? 2 * nsurfs); [|discriminate].
      cbn [assert mbind result_bind] in Hrun |- *.
      match type of Hrun with
      | context [Surfaces.vortex_sheet_to_panel_strength ?k ?T] =>
          destruct (Surfaces.vortex_sheet_to_panel_strength k T)
            as [t5|] eqn:Hrun5; [|discriminate]
      end.
      exists t5. split; [reflexivity|].
      apply vortex_sheet_to_panel_strength_spec in Hrun5
        as (_ & _ & Heta5 & _).
      rewrite Heta5. repeat split.
    - destruct ((0 <? length _val / nsurfs) && (length _val / nsurfs <? 4));
        [|discriminate].
      cbn [assert mbind result_bind] in Hrun |- *.
      destruct (length (bc t3) =? length _val / nsurfs); [|discriminate].
      cbn [assert mbind result_bind] in Hrun |- *.
      match type of Hrun with
      | context [Surfaces.vortex_sheet_to_panel_strength ?k ?T] =>
          destruct (Surfaces.vortex_sheet_to_panel_strength k T)
            as [t5|] eqn:Hrun5; [|discriminate]
      end.
      exists t5. split; [reflexivity|].
      apply vortex_sheet_to_panel_strength_spec in Hrun5
        as (_ & _ & Heta5 & _).
      rewrite Heta5. repeat split.
    - exists t3. repeat split. }
  destruct Hstage as (t5 & Hrun5 & Hbase5 & Hidx5 & Hb5 & Harea5 & Hnp5).
  rewrite Hrun5 in Hrun. cbn [mbind result_bind] in Hrun.
  cbn [M base set_np set_base set_n set_pu set_u pu np n] in Hrun.
  match type of Hrun with
  | match _ with bodybound => Surfaces.set_geom_center ?T | _ => _ end = _ =>
      set (t6 := T) in Hrun
  end.
  assert (Hfinal : base t' = base t6 /\ idx t' = idx t6 /\ b t' = b t6 /\
                   area t' = area t6 /\ np t' = np t6).
  { destruct (M (base t5)).
    - injection Hrun as <-. repeat split.
    - apply set_geom_center_frame in Hrun. rewrite Hrun. repeat split.
    - injection Hrun as <-. repeat split. }
  destruct Hfinal as (Hbase' & Hidx' & Hb' & Harea' & Hnp').
  assert (Hx' : x (base t') = X3).
  { rewrite Hbase'. subst t6. cbn [x base set_np set_base set_n set_pu set_u].
    rewrite Hbase5, Hbase3. exact Hx1. }
  assert (Hidx'' : idx t' = idx1).
  { rewrite Hidx'. subst t6. cbn [idx set_np set_base set_pu].
    rewrite Hidx5. exact Hidx3'. }
  assert (Hframe' : forall i,
            PanelFrame.stored_frame t' i = PanelFrame.stored_frame t3 i).
  { intros i. unfold PanelFrame.stored_frame. rewrite Hb', Harea'.
    subst t6. cbn [b area set_np set_base set_pu]. rewrite Hb5, Harea5.
    reflexivity. }
  split; [|split; [|split; [|split; [|split]]]].
  - rewrite Hnp', Hbase'. subst t6.
    cbn [np n base set_np set_base set_n set_pu set_u].
    rewrite Hnp5, Hnp3, Hbase5, Hbase3, Hn1. split; reflexivity.
  - intros i Hi. split; [apply Hchecked; exact Hi|].
    rewrite Hidx''. apply Hinew. exact Hi.
  - intros j Hj. rewrite Hidx''. apply Hiold. exact Hj.
  - intros d Hd. rewrite Hx'. subst X3. unfold rd at 1 3.
    destruct d as [|[|[|d]]]; [| | |lia]; cbn [v3_get].
    + destruct (resized_write_offset lit_0 (fun i => rd _x (3 * i + 0))
                  (n (base t)) nnodes x0) as (_ & Hxn & Hxo).
      split; [exact Hxn|exact Hxo].
    + destruct (resized_write_offset lit_0 (fun i => rd _x (3 * i + 1))
                  (n (base t)) nnodes x1) as (_ & Hxn & Hxo).
      split; [exact Hxn|exact Hxo].
    + destruct (resized_write_offset lit_0 (fun i => rd _x (3 * i + 2))
                  (n (base t)) nnodes x2) as (_ & Hxn & Hxo).
      split; [exact Hxn|exact Hxo].
  - intros i Hi. rewrite Hframe', (Hold3 i Hi ltac:(lia)).
    unfold PanelFrame.stored_frame. subst t2. cbn [b area set_idx].
    rewrite Hb1, Harea1. reflexivity.
  - intros i Hi. rewrite Hframe', (Hnew3 i Hi), Hx', Hidx''.
    subst t2. cbn [x base idx set_idx]. rewrite Hx1. reflexivity.
Qed.
End AddNewTheorem.

Section AddNewWitness.
Local Open Scope R_scope.

(** X27 at a concrete input: a third triangle added to the two-panel
    collection. *)
Lemma add_new_appends_witness :
  (0 < length Example.new_idx)%nat /\
  PanelFrame.frames_length (np Example.two_panels) Example.two_panels /\
  (Z.of_nat (np Example.two_panels + length Example.new_idx / 3)
   < 4294967296)%Z /\
  exists t',
    Surfaces.add_new Example.new_x Example.new_idx Example.new_val
      Example.two_panels = Ok t' /\
    np t' = (np Example.two_panels + length Example.new_idx / 3)%nat /\
    n (base t')
    = (n (base Example.two_panels) + length Example.new_x / 3)%nat.
Proof.
  assert (Hne : (0 < length Example.new_idx)%nat) by (cbn; lia).
  assert (Hfl : PanelFrame.frames_length (np Example.two_panels)
                  Example.two_panels).
  { split; [|reflexivity].
    intros k d. destruct k as [|[|k]], d as [|[|d]]; reflexivity. }
  assert (Hsmall : (Z.of_nat (np Example.two_panels
                              + length Example.new_idx / 3)
                    < 4294967296)%Z) by reflexivity.
  assert (Hex : exists t',
            Surfaces.add_new Example.new_x Example.new_idx Example.new_val
              Example.two_panels = Ok t').
  { eexists. r_eval. reflexivity. }
  split; [exact Hne|]. split; [exact Hfl|]. split; [exact Hsmall|].
  destruct Hex as [t' Hrun]. exists t'. split; [exact Hrun|].
  exact (proj1 (add_new_appends Example.new_x Example.new_idx
                  Example.new_val Example.two_panels t'
                  Hrun Hne Hfl Hsmall)).
Defined.
End AddNewWitness.

(** ** Surfaces: volume and geometric center *)

Section RelatedLoops.
Context {A B : Type}.

(** Two loops over the same range that keep a relation between their
    states. *)
Lemma for_loop_related (R : A -> B -> Prop) (lo hi : nat)
    (f : nat -> A -> A) (g : nat -> B -> B) (a : A) (b : B) :
  R a b ->
  (forall i x y, lo <= i < hi -> R x y -> R (f i x) (g i y)) ->
  R (for_loop lo hi f a) (for_loop lo hi g b).
Proof.
  intros Hab Hstep. destruct (decide (lo <= hi)) as [Hle|Hgt].
  2:{ rewrite !for_loop_empty by lia. exact Hab. }
  induction hi as [|hi IH].
  - rewrite !for_loop_empty by lia. exact Hab.
  - destruct (decide (lo = Datatypes.S hi)) as [->|Hne].
    + rewrite !for_loop_empty by lia. exact Hab.
    + rewrite !for_loop_snoc by lia. apply Hstep; [lia|].
      apply IH; [|lia]. intros i x y Hi. apply Hstep. lia.
Qed.
End RelatedLoops.

Section GeomCenterReal.
Local Open Scope R_scope.

(** X28: over the reals, turning every panel over (exchanging the second
    and third node of each) negates the volume that [set_geom_center]
    computes and, when that volume is not zero, leaves the geometric center
    where it was.  [set_geom_center] succeeds on every collection that has
    a body and untransformed positions, and changes nothing but the volume
    and the untransformed center. *)
Theorem set_geom_center_orientation (t t2 : Surfaces R) :
  has_value (B (base t)) = true ->
  has_value (ux (base t)) = true ->
  orientation_reversed t t2 ->
  exists t' t2',
    Surfaces.set_geom_center t = Ok t' /\
    Surfaces.set_geom_center t2 = Ok t2' /\
    t' = set_utc (utc t') (set_vol (vol t') t) /\
    vol t2' = - vol t' /\
    (vol t' <> 0 -> utc t2' = utc t').
Proof.
  intros HB Hux [Heta Hrev].
  assert (Hbase : base t2 = base t) by (rewrite Heta; reflexivity).
  assert (Hnp : np t2 = np t) by (rewrite Heta; reflexivity).
  unfold Surfaces.set_geom_center, Surfaces.get_npanels.
  rewrite Hbase, Hnp, HB, Hux. cbn [assert mbind result_bind].
  destruct (default empty3 (ux (base t))) as [[ux0 ux1] ux2].
  match goal with
  | |- context [for_loop 0 (np t) ?f (lit_0, lit_0, lit_0, lit_0)] =>
      set (F := f)
  end.
  match goal with
  | |- context [for_loop 0 (np t) ?g (lit_0, lit_0, lit_0, lit_0)] =>
      lazymatch g with
      | F => fail
      | _ => set (G := g)
      end
  end.
  set (Rel := fun p q : R * R * R * R =>
       let '(v, xs, ys, zs) := p in
       let '(v2, xs2, ys2, zs2) := q in
       v2 = - v /\ xs2 = - xs /\ ys2 = - ys /\ zs2 = - zs).
  assert (Hrel : Rel (for_loop 0 (np t) F (lit_0, lit_0, lit_0, lit_0))
                     (for_loop 0 (np t) G (lit_0, lit_0, lit_0, lit_0))).
  { apply (for_loop_related Rel 0 (np t) F G).
    - subst Rel. to_R. repeat split; ring.
    - intros i [[[v xs] ys] zs] [[[v2 xs2] ys2] zs2] Hi
        (-> & -> & -> & ->).
      destruct (Hrev i ltac:(lia)) as (H0 & H1 & H2).
      subst Rel F G. cbv beta iota zeta. rewrite H0, H1, H2. to_R.
      repeat split; field. }
  subst Rel. cbv beta in Hrel.
  destruct (for_loop 0 (np t) F _) as [[[v xs] ys] zs].
  destruct (for_loop 0 (np t) G _) as [[[v2 xs2] ys2] zs2].
  destruct Hrel as (-> & -> & -> & ->).
  eexists _, _. split; [reflexivity|]. split; [reflexivity|].
  cbn [vol utc set_utc set_vol]. split; [destruct t; reflexivity|].
  split; [reflexivity|].
  intros Hv. to_R. f_equal; [f_equal|]; field; exact Hv.
Qed.

(** X28 at a concrete input: the triangle on (1,0,0), (0,1,0), (0,0,1). *)
Lemma set_geom_center_orientation_witness :
  has_value (B (base Example.corner)) = true /\
  has_value (ux (base Example.corner)) = true /\
  orientation_reversed Example.corner Example.corner_reversed /\
  exists t' t2',
    Surfaces.set_geom_center Example.corner = Ok t' /\
    Surfaces.set_geom_center Example.corner_reversed = Ok t2' /\
    vol t2' = - vol t'.
Proof.
  assert (HB : has_value (B (base Example.corner)) = true) by reflexivity.
  assert (Hux : has_value (ux (base Example.corner)) = true)
    by reflexivity.
  assert (Hrev : orientation_reversed Example.corner
                   Example.corner_reversed).
  { split; [reflexivity|]. intros i Hi.
    assert (i = 0%nat) as -> by (cbn in Hi; lia).
    repeat split. }
  split; [exact HB|]. split; [exact Hux|]. split; [exact Hrev|].
  destruct (set_geom_center_orientation Example.corner
              Example.corner_reversed HB Hux Hrev)
    as (t' & t2' & Hrun & Hrun2 & _ & Hvol & _).
  exists t', t2'. repeat split; assumption.
Defined.
End GeomCenterReal.

(** ** Kernels: the source panel *)

Section SourcePanelReal.
Local Open Scope R_scope.

Lemma kernel_0s_0p_closed_form (sx sy sz ss tx ty tz : R) (acc : V3 R) :
  Kernels.kernel_0s_0p sx sy sz 0 ss tx ty tz acc
  = Vec.add acc (SourceSpec.point_velocity (sx, sy, sz) ss (tx, ty, tz)).
Proof.
  destruct acc as [[tu tv] tw].
  cbv [Kernels.kernel_0s_0p SourceSpec.point_velocity
       KernelSpec.separation_times_strength KernelSpec.reg_r2
       KernelSpec.r_cubed Vec.norm2 Vec.dot Vec.sub Vec.add Vec.divide
       Vec.scale v3_map v3_zip].
  to_R.
  set (dx := tx - sx). set (dy := ty - sy). set (dz := tz - sz).
  replace (dx * dx + dy * dy + dz * dz + 0 * 0 + 0 * 0)
    with (dx * dx + dy * dy + dz * dz + 0 * 0) by ring.
  assert (Hr : 0 <= dx * dx + dy * dy + dz * dz + 0 * 0) by nra.
  rewrite <- (sqrt_sqrt _ Hr) at 1 3 5.
  f_equal; [f_equal|]; unfold Rdiv; ring.
Qed.

(** X29: over the reals, the source-panel kernel [kernel_2s_0p] is a
    four-point quadrature: it adds, for the centroid and for the three
    points [(4 v_i + v_j + v_k) / 6], a quarter of the panel strength times
    the separation from that point to the target, divided by the cube of
    its length. *)
Theorem kernel_2s_0p_is_four_point_quadrature
    (sx0 sy0 sz0 sx1 sy1 sz1 sx2 sy2 sz2 ss tx ty tz : R) (acc : V3 R) :
  Kernels.kernel_2s_0p sx0 sy0 sz0 sx1 sy1 sz1 sx2 sy2 sz2 ss tx ty tz acc
  = Vec.add acc
      (SourceSpec.quadrature_sum (sx0, sy0, sz0) (sx1, sy1, sz1)
         (sx2, sy2, sz2) ss (tx, ty, tz)).
Proof.
  cbv [Kernels.kernel_2s_0p SourceSpec.quadrature_sum].
  change (@lit_0 R RScalar) with 0.
  rewrite !kernel_0s_0p_closed_form.
  rewrite !vadd_assoc. f_equal.
  rewrite <- !vadd_assoc.
  cbv [KernelSpec.centroid KernelSpec.toward Vec.divide Vec.add Vec.scale
       v3_map v3_zip].
  to_R.
  replace (/ 4 * ss) with (ss / 4) by lra.
  repeat (f_equal; try lra).
Qed.
End SourcePanelReal.

(** ** Surfaces: zeroing the strengths *)

Section ZeroStrengthsReal.
Local Open Scope R_scope.
Variable ElementBase_zero_strengths : ElementBase R -> ElementBase R.

(** X30: [zero_strengths] zeroes the sheet strengths and the source
    strengths in place, keeping their lengths, but leaves the absolute
    panel strengths as they were; only the next
    [vortex_sheet_to_panel_strength] makes them zero (over the reals). *)
Theorem zero_strengths_leaves_panel_strengths (t : Surfaces R) :
  length (fst (vs t)) = np t ->
  length (v3_get 0 (v3_get 0 (b t))) = np t ->
  let t0 := Surfaces.zero_strengths ElementBase_zero_strengths t in
  ps t0 = ps t /\
  length (fst (vs t0)) = length (fst (vs t)) /\
  length (snd (vs t0)) = length (snd (vs t)) /\
  (forall i, rd (fst (vs t0)) i = 0 /\ rd (snd (vs t0)) i = 0) /\
  match ss t0, ss t with
  | Some v0, Some v => length v0 = length v /\ forall i, rd v0 i = 0
  | None, None => True
  | _, _ => False
  end /\
  exists t',
    Surfaces.vortex_sheet_to_panel_strength (np t) t0 = Ok t' /\
    forall i, (i < np t)%nat -> rd3 (ps t') i = (0, 0, 0).
Proof.
  intros Hvs Hb t0.
  assert (Hvs0 : vs t0 = (replicate (length (fst (vs t))) 0,
                          replicate (length (snd (vs t))) 0)).
  { subst t0. unfold Surfaces.zero_strengths.
    cbn [ss vs set_vs set_base]. destruct (ss t); reflexivity. }
  assert (Hps0 : ps t0 = ps t).
  { subst t0. unfold Surfaces.zero_strengths.
    cbn [ss vs set_vs set_base]. destruct (ss t); reflexivity. }
  assert (Hb0 : b t0 = b t).
  { subst t0. unfold Surfaces.zero_strengths.
    cbn [ss vs set_vs set_base]. destruct (ss t); reflexivity. }
  assert (Hss0 : ss t0 = match ss t with
                         | Some v => Some (replicate (length v) 0)
                         | None => None
                         end).
  { subst t0. unfold Surfaces.zero_strengths.
    cbn [ss vs set_vs set_base]. destruct (ss t) eqn:Hss;
      cbn [ss set_ss set_vs set_base]; [reflexivity|exact Hss]. }
  split; [exact Hps0|]. rewrite Hvs0. cbn [fst snd].
  rewrite !length_replicate.
  split; [reflexivity|]. split; [reflexivity|]. split.
  { intros i. unfold rd. change (@lit_0 R RScalar) with 0.
    rewrite !(nth_replicate_default 0). split; reflexivity. }
  split.
  { rewrite Hss0. destruct (ss t) as [v|]; [|exact I].
    split; [apply length_replicate|].
    intros i. unfold rd. change (@lit_0 R RScalar) with 0.
    apply (nth_replicate_default 0). }
  destruct (vortex_sheet_to_panel_strength_ok (np t) t0) as [t' Hrun].
  { rewrite Hvs0. cbn [fst]. rewrite length_replicate. exact Hvs. }
  { rewrite Hb0. exact Hb. }
  exists t'. split; [exact Hrun|].
  apply vortex_sheet_to_panel_strength_spec in Hrun as (_ & _ & _ & _ & Hps).
  intros i Hi. rewrite (Hps i Hi). unfold PanelStrength.sheet_strength.
  rewrite Hvs0. cbn [fst snd]. unfold rd at 1 2.
  change (@lit_0 R RScalar) with 0.
  rewrite !(nth_replicate_default 0).
  destruct (rd3 (v3_get 0 (b t0)) i) as [[a0 a1] a2].
  destruct (rd3 (v3_get 1 (b t0)) i) as [[c0 c1] c2].
  cbn [v3_zip]. to_R. f_equal; [f_equal|]; ring.
Qed.

End ZeroStrengthsReal.

Section ZeroStrengthsWitness.
Local Open Scope R_scope.

(** X30 at a concrete input: the two-panel collection. *)
Lemma zero_strengths_leaves_panel_strengths_witness :
  (length (fst (vs Example.two_panels)) = np Example.two_panels /\
   length (v3_get 0 (v3_get 0 (b Example.two_panels)))
   = np Example.two_panels)%nat /\
  ps (Surfaces.zero_strengths (fun e => e) Example.two_panels)
  = ps Example.two_panels.
Proof.
  assert (H0 : length (fst (vs Example.two_panels))
               = np Example.two_panels) by reflexivity.
  assert (H2 : length (v3_get 0 (v3_get 0 (b Example.two_panels)))
               = np Example.two_panels) by reflexivity.
  split; [split; assumption|].
  exact (proj1 (zero_strengths_leaves_panel_strengths (fun e => e)
                  Example.two_panels H0 H2)).
Defined.
End ZeroStrengthsWitness.
